(** * The view transform pipeline of maptalks.js

    A shallow embedding of the camera part of [Map] (field of view, pitch and
    bearing, the derived matrices, the two point projectors), of the point
    symbolizer that consumes it, and of the style handling of [VectorLayer].

    JavaScript numbers are read as real numbers: [+], [-], [*] and [/] are the
    operations of [R], [===] on two numbers is equality of reals, and a
    number is falsy exactly when it is [0].  A field that may be [undefined]
    is an [option].  An exception is a result of its own that carries the
    object as it was when the exception left the method, since every
    assignment made before the [throw] stays. *)

From Stdlib Require Import Reals Lra Lia ZArith List String Bool.
Import ListNotations.
Open Scope R_scope.

(** ** Numbers *)

Definition Req_b (x y : R) : bool := if Req_dec_T x y then true else false.

(** [!v] for a field that holds a number or is [undefined]. *)
Definition falsy (v : option R) : bool :=
  match v with
  | None => true
  | Some x => Req_b x 0
  end.

(** [field === x] for a field that holds a number or is [undefined]. *)
Definition strict_eq (v : option R) (x : R) : bool :=
  match v with
  | None => false
  | Some y => Req_b y x
  end.

(** [if (!field) field = d], read back. *)
Definition or_default (v : option R) (d : R) : R :=
  match v with
  | None => d
  | Some x => if Req_b x 0 then d else x
  end.

Definition RADIAN : R := PI / 180.
Definition DEFAULT_FOV : R := 0.6435011087932844.

(** Modelled from the spec: [clamp] of core/util, which is not among the
    sources; "pitch clamped to [0, 60]". *)
Definition clamp (n lo hi : R) : R := Rmin hi (Rmax lo n).

(** The least integer that is not below [x]. *)
Definition Rceil (x : R) : Z := (1 - up (- x))%Z.

(** Modelled from the spec: [wrap] of core/util, which is not among the
    sources; "wrapping 270 into (-180, 180]": the representative of [n]
    modulo [hi - lo] that lies in the half-open interval [(lo, hi]]. *)
Definition wrap (n lo hi : R) : R :=
  let d := hi - lo in
  n - d * IZR (Rceil ((n - hi) / d)).

(** Modelled from the spec: [interpolate] of core/util, which is not among
    the sources; "interpolate x and y by t", linearly. *)
Definition interpolate (a b t : R) : R := a * (1 - t) + b * t.

(** ** Points *)

Record Point := mkPoint { px : R; py : R }.

Definition Point_add (p : Point) (x y : R) : Point := mkPoint (px p + x) (py p + y).
Definition Point_addp (p q : Point) : Point := Point_add p (px q) (py q).
Definition Point_sub (p q : Point) : Point := mkPoint (px p - px q) (py p - py q).
Definition Point_multi (p : Point) (k : R) : Point := mkPoint (px p * k) (py p * k).

(** ** The matrix module

    core/util/mat4 is not among the sources.  A matrix is the sixteen numbers
    of a [Float64Array(16)], column after column. *)

Module mat4.

Record t := Mat4 {
  e0 : R; e1 : R; e2 : R; e3 : R;
  e4 : R; e5 : R; e6 : R; e7 : R;
  e8 : R; e9 : R; e10 : R; e11 : R;
  e12 : R; e13 : R; e14 : R; e15 : R }.

Record vec4 := Vec4 { v0 : R; v1 : R; v2 : R; v3 : R }.

(** [mat4.create()]: the identity. *)
Definition create : t := Mat4 1 0 0 0  0 1 0 0  0 0 1 0  0 0 0 1.

(** [mat4.copy(new Float64Array(16), a)]. *)
Definition copy (a : t) : t := a.

(** Modelled from the spec: [multiply(out, a, b)], the matrix product
    [a * b] of the "general-purpose 4x4 matrix operations". *)
Definition multiply (a b : t) : t :=
  let 'Mat4 a00 a01 a02 a03 a10 a11 a12 a13 a20 a21 a22 a23 a30 a31 a32 a33 := a in
  let 'Mat4 b00 b01 b02 b03 b10 b11 b12 b13 b20 b21 b22 b23 b30 b31 b32 b33 := b in
  Mat4 (b00 * a00 + b01 * a10 + b02 * a20 + b03 * a30)
       (b00 * a01 + b01 * a11 + b02 * a21 + b03 * a31)
       (b00 * a02 + b01 * a12 + b02 * a22 + b03 * a32)
       (b00 * a03 + b01 * a13 + b02 * a23 + b03 * a33)
       (b10 * a00 + b11 * a10 + b12 * a20 + b13 * a30)
       (b10 * a01 + b11 * a11 + b12 * a21 + b13 * a31)
       (b10 * a02 + b11 * a12 + b12 * a22 + b13 * a32)
       (b10 * a03 + b11 * a13 + b12 * a23 + b13 * a33)
       (b20 * a00 + b21 * a10 + b22 * a20 + b23 * a30)
       (b20 * a01 + b21 * a11 + b22 * a21 + b23 * a31)
       (b20 * a02 + b21 * a12 + b22 * a22 + b23 * a32)
       (b20 * a03 + b21 * a13 + b22 * a23 + b23 * a33)
       (b30 * a00 + b31 * a10 + b32 * a20 + b33 * a30)
       (b30 * a01 + b31 * a11 + b32 * a21 + b33 * a31)
       (b30 * a02 + b31 * a12 + b32 * a22 + b33 * a32)
       (b30 * a03 + b31 * a13 + b32 * a23 + b33 * a33).

(** The four elementary matrices the builder multiplies by. *)
Definition fromScaling (x y z : R) : t :=
  Mat4 x 0 0 0  0 y 0 0  0 0 z 0  0 0 0 1.

Definition fromTranslation (x y z : R) : t :=
  Mat4 1 0 0 0  0 1 0 0  0 0 1 0  x y z 1.

Definition fromXRotation (rad : R) : t :=
  let s := sin rad in
  let c := cos rad in
  Mat4 1 0 0 0  0 c s 0  0 (- s) c 0  0 0 0 1.

Definition fromZRotation (rad : R) : t :=
  let s := sin rad in
  let c := cos rad in
  Mat4 c s 0 0  (- s) c 0 0  0 0 1 0  0 0 0 1.

(** Modelled from the spec: [scale], [translate], [rotateX] and [rotateZ]
    of the absent module; "each operation post-multiplies the running
    matrix". *)
Definition scale (a : t) (x y z : R) : t := multiply a (fromScaling x y z).
Definition translate (a : t) (x y z : R) : t := multiply a (fromTranslation x y z).
Definition rotateX (a : t) (rad : R) : t := multiply a (fromXRotation rad).
Definition rotateZ (a : t) (rad : R) : t := multiply a (fromZRotation rad).

(** Modelled from the spec: [perspective(out, fovy, aspect, near, far)] of
    the absent module; "a perspective projection matrix from
    (fov, aspectRatio, near, far)", the frustum matrix of vertical field of
    view [fovy] that sends the depths [near] and [far] to [-1] and [1]. *)
Definition perspective (fovy aspect near far : R) : t :=
  let f := 1 / tan (fovy / 2) in
  let nf := 1 / (near - far) in
  Mat4 (f / aspect) 0 0 0
       0 f 0 0
       0 0 ((far + near) * nf) (-1)
       0 0 (2 * far * near * nf) 0.

Definition determinant (a : t) : R :=
  let 'Mat4 a00 a01 a02 a03 a10 a11 a12 a13 a20 a21 a22 a23 a30 a31 a32 a33 := a in
  let b00 := a00 * a11 - a01 * a10 in
  let b01 := a00 * a12 - a02 * a10 in
  let b02 := a00 * a13 - a03 * a10 in
  let b03 := a01 * a12 - a02 * a11 in
  let b04 := a01 * a13 - a03 * a11 in
  let b05 := a02 * a13 - a03 * a12 in
  let b06 := a20 * a31 - a21 * a30 in
  let b07 := a20 * a32 - a22 * a30 in
  let b08 := a20 * a33 - a23 * a30 in
  let b09 := a21 * a32 - a22 * a31 in
  let b10 := a21 * a33 - a23 * a31 in
  let b11 := a22 * a33 - a23 * a32 in
  b00 * b11 - b01 * b10 + b02 * b09 + b03 * b08 - b04 * b07 + b05 * b06.

Definition adjugate (a : t) : t :=
  let 'Mat4 a00 a01 a02 a03 a10 a11 a12 a13 a20 a21 a22 a23 a30 a31 a32 a33 := a in
  let b00 := a00 * a11 - a01 * a10 in
  let b01 := a00 * a12 - a02 * a10 in
  let b02 := a00 * a13 - a03 * a10 in
  let b03 := a01 * a12 - a02 * a11 in
  let b04 := a01 * a13 - a03 * a11 in
  let b05 := a02 * a13 - a03 * a12 in
  let b06 := a20 * a31 - a21 * a30 in
  let b07 := a20 * a32 - a22 * a30 in
  let b08 := a20 * a33 - a23 * a30 in
  let b09 := a21 * a32 - a22 * a31 in
  let b10 := a21 * a33 - a23 * a31 in
  let b11 := a22 * a33 - a23 * a32 in
  Mat4 (a11 * b11 - a12 * b10 + a13 * b09)
       (a02 * b10 - a01 * b11 - a03 * b09)
       (a31 * b05 - a32 * b04 + a33 * b03)
       (a22 * b04 - a21 * b05 - a23 * b03)
       (a12 * b08 - a10 * b11 - a13 * b07)
       (a00 * b11 - a02 * b08 + a03 * b07)
       (a32 * b02 - a30 * b05 - a33 * b01)
       (a20 * b05 - a22 * b02 + a23 * b01)
       (a10 * b10 - a11 * b08 + a13 * b06)
       (a01 * b08 - a00 * b10 - a03 * b06)
       (a30 * b04 - a31 * b02 + a33 * b00)
       (a21 * b02 - a20 * b04 - a23 * b00)
       (a11 * b07 - a10 * b09 - a12 * b06)
       (a00 * b09 - a01 * b07 + a02 * b06)
       (a31 * b01 - a30 * b03 - a32 * b00)
       (a20 * b03 - a21 * b01 + a22 * b00).

Definition smul (k : R) (a : t) : t :=
  let 'Mat4 a00 a01 a02 a03 a10 a11 a12 a13 a20 a21 a22 a23 a30 a31 a32 a33 := a in
  Mat4 (a00 * k) (a01 * k) (a02 * k) (a03 * k)
       (a10 * k) (a11 * k) (a12 * k) (a13 * k)
       (a20 * k) (a21 * k) (a22 * k) (a23 * k)
       (a30 * k) (a31 * k) (a32 * k) (a33 * k).

(** Modelled from the spec: [invert(out, a)] of the absent module; the
    "exact algebraic inverse", "absent/undefined if inversion fails
    (degenerate matrix)": the cofactors over the determinant, and [null]
    when the determinant is falsy. *)
Definition invert (a : t) : option t :=
  let det := determinant a in
  if Req_b det 0 then None else Some (smul (1 / det) (adjugate a)).

(** Modelled from the spec: [transformMat4(out, a, m)] of the absent
    module; "apply the matrix as a homogeneous transform". *)
Definition transformMat4 (a : vec4) (m : t) : vec4 :=
  let 'Vec4 x y z w := a in
  Vec4 (e0 m * x + e4 m * y + e8 m * z + e12 m * w)
       (e1 m * x + e5 m * y + e9 m * z + e13 m * w)
       (e2 m * x + e6 m * y + e10 m * z + e14 m * w)
       (e3 m * x + e7 m * y + e11 m * z + e15 m * w).

End mat4.

(** ** The map and its camera *)

Definition Zoom := Z.

(** [Browser] of core/Browser: the one flag the camera reads. *)
Record Browser := { ie9 : bool }.

(** A layer as [_renderLayers] sees it: whether [_getRenderer()] gives a
    renderer. *)
Record Layer := mkLayer { layerId : string; hasRenderer : bool }.

(** The fields of [Map] that the camera code reads and writes.  The
    collaborators defined elsewhere in [Map] are fields too: [isZooming()],
    [getMaxZoom()], [_getResolution(zoom)] and
    [_prjToPoint(this._getPrjCenter(), zoom)], the centre of the view as a
    point at a zoom ([None] for an omitted zoom argument), [getBaseLayer()]
    and [_getLayers()].  [width] is a number; [height] may be unset. *)
Record Map := mkMap {
  _fov : option R;
  _pitch : option R;
  _angle : option R;
  width : R;
  height : option R;
  cameraToCenterDistance : option R;
  projMatrix : option mat4.t;
  pixelMatrix : option mat4.t;
  pixelMatrixInverse : option mat4.t;
  cameraMatrix : option mat4.t;
  isZooming : bool;
  getMaxZoom : Zoom;
  _getResolution : option Zoom -> R;
  _prjCenterToPoint : option Zoom -> Point;
  getBaseLayer : option Layer;
  _getLayers : list Layer }.

Definition set_fov (m : Map) (v : option R) : Map :=
  mkMap v (_pitch m) (_angle m) (width m) (height m) (cameraToCenterDistance m)
        (projMatrix m) (pixelMatrix m) (pixelMatrixInverse m) (cameraMatrix m)
        (isZooming m) (getMaxZoom m) (_getResolution m) (_prjCenterToPoint m)
        (getBaseLayer m) (_getLayers m).

Definition set_pitch (m : Map) (v : option R) : Map :=
  mkMap (_fov m) v (_angle m) (width m) (height m) (cameraToCenterDistance m)
        (projMatrix m) (pixelMatrix m) (pixelMatrixInverse m) (cameraMatrix m)
        (isZooming m) (getMaxZoom m) (_getResolution m) (_prjCenterToPoint m)
        (getBaseLayer m) (_getLayers m).

Definition set_angle (m : Map) (v : option R) : Map :=
  mkMap (_fov m) (_pitch m) v (width m) (height m) (cameraToCenterDistance m)
        (projMatrix m) (pixelMatrix m) (pixelMatrixInverse m) (cameraMatrix m)
        (isZooming m) (getMaxZoom m) (_getResolution m) (_prjCenterToPoint m)
        (getBaseLayer m) (_getLayers m).

Definition set_cameraToCenterDistance (m : Map) (v : option R) : Map :=
  mkMap (_fov m) (_pitch m) (_angle m) (width m) (height m) v
        (projMatrix m) (pixelMatrix m) (pixelMatrixInverse m) (cameraMatrix m)
        (isZooming m) (getMaxZoom m) (_getResolution m) (_prjCenterToPoint m)
        (getBaseLayer m) (_getLayers m).

Definition set_projMatrix (m : Map) (v : option mat4.t) : Map :=
  mkMap (_fov m) (_pitch m) (_angle m) (width m) (height m) (cameraToCenterDistance m)
        v (pixelMatrix m) (pixelMatrixInverse m) (cameraMatrix m)
        (isZooming m) (getMaxZoom m) (_getResolution m) (_prjCenterToPoint m)
        (getBaseLayer m) (_getLayers m).

Definition set_pixelMatrix (m : Map) (v : option mat4.t) : Map :=
  mkMap (_fov m) (_pitch m) (_angle m) (width m) (height m) (cameraToCenterDistance m)
        (projMatrix m) v (pixelMatrixInverse m) (cameraMatrix m)
        (isZooming m) (getMaxZoom m) (_getResolution m) (_prjCenterToPoint m)
        (getBaseLayer m) (_getLayers m).

Definition set_pixelMatrixInverse (m : Map) (v : option mat4.t) : Map :=
  mkMap (_fov m) (_pitch m) (_angle m) (width m) (height m) (cameraToCenterDistance m)
        (projMatrix m) (pixelMatrix m) v (cameraMatrix m)
        (isZooming m) (getMaxZoom m) (_getResolution m) (_prjCenterToPoint m)
        (getBaseLayer m) (_getLayers m).

Definition set_cameraMatrix (m : Map) (v : option mat4.t) : Map :=
  mkMap (_fov m) (_pitch m) (_angle m) (width m) (height m) (cameraToCenterDistance m)
        (projMatrix m) (pixelMatrix m) (pixelMatrixInverse m) v
        (isZooming m) (getMaxZoom m) (_getResolution m) (_prjCenterToPoint m)
        (getBaseLayer m) (_getLayers m).

(** What a method of the map leaves behind: it returns, or an [Error] with
    its message leaves it.  Either way the map is the one the method wrote. *)
Inductive Completion :=
| Normal (m : Map)
| Raise (msg : string) (m : Map).

Definition state_of (c : Completion) : Map :=
  match c with
  | Normal m => m
  | Raise _ m => m
  end.

Definition raised (c : Completion) : option string :=
  match c with
  | Normal _ => None
  | Raise msg _ => Some msg
  end.

(** What a setter does to the world around the map, in the order it does
    it: a call of [_calcMatrices], a call of [_renderLayers], an event. *)
Inductive Effect :=
| CalcMatrices
| RenderLayers
| FireEvent (type : string) (from to : R).

(** A setter's completion with the effects it had. *)
Record Outcome := mkOutcome { completion : Completion; effects : list Effect }.

Definition _clearMatrices (m : Map) : Map :=
  set_cameraMatrix
    (set_pixelMatrixInverse
       (set_pixelMatrix
          (set_projMatrix m None) None) None) None.

(** The matrices of [_calcMatrices], each as the source computes it from
    the fields it has just normalised.  The quotients are those of [R];
    the theorems that depend on the far plane keep [farZ_divisor] away
    from 0 by their hypothesis [pitch + fov / 2 < PI / 2]. *)
Definition calc_cameraToCenterDistance (fov h : R) : R :=
  0.5 / tan (fov / 2) * h.

Definition calc_farZ (fov pitch h : R) : R :=
  let cameraToCenterDistance := calc_cameraToCenterDistance fov h in
  let halfFov := fov / 2 in
  let groundAngle := PI / 2 + pitch in
  let topHalfSurfaceDistance :=
    sin halfFov * cameraToCenterDistance / sin (PI - groundAngle - halfFov) in
  let furthestDistance :=
    cos (PI / 2 - pitch) * topHalfSurfaceDistance + cameraToCenterDistance in
  furthestDistance * 1.01.

(** The sine that line 207 divides by.  It is 0 when the top edge of the
    viewport looks along the ground, [pitch + fov / 2 = PI / 2]; there
    the quotient of [calc_farZ] is the [x / 0] of [R], not a distance. *)
Definition farZ_divisor (fov pitch : R) : R :=
  let halfFov := fov / 2 in
  let groundAngle := PI / 2 + pitch in
  sin (PI - groundAngle - halfFov).

(** [m] at line 221: perspective, flip of the y axis, the camera pulled
    back, the two rotations. *)
Definition calc_camera (fov pitch angle w h : R) : mat4.t :=
  let m := mat4.perspective fov (w / h) 1 (calc_farZ fov pitch h) in
  let m := mat4.scale m 1 (-1) 1 in
  let m := mat4.translate m 0 0 (- calc_cameraToCenterDistance fov h) in
  let m := mat4.rotateX m pitch in
  mat4.rotateZ m angle.

Definition calc_projMatrix (fov pitch angle w h : R) (centerPoint : Point) : mat4.t :=
  let x := px centerPoint in
  let y := py centerPoint in
  mat4.translate (calc_camera fov pitch angle w h) (- x) (- y) 0.

Definition calc_pixelMatrix (w h : R) (projMatrix : mat4.t) : mat4.t :=
  let m := mat4.create in
  let m := mat4.scale m (w / 2) (- h / 2) 1 in
  let m := mat4.translate m 1 (-1) 0 in
  mat4.multiply m projMatrix.

Definition calc_cameraMatrix (w h : R) (m2 : mat4.t) : mat4.t :=
  let m := mat4.create in
  let m := mat4.scale m (w / 2) (- h / 2) 1 in
  mat4.multiply m m2.

Definition _calcMatrices (m : Map) : Completion :=
  if falsy (height m) then Normal m else
  let h := or_default (height m) 0 in
  let fov := or_default (_fov m) DEFAULT_FOV in
  let m := set_fov m (Some fov) in
  let pitch := or_default (_pitch m) 0 in
  let m := set_pitch m (Some pitch) in
  let angle := or_default (_angle m) 0 in
  let m := set_angle m (Some angle) in
  if Req_b pitch 0 && Req_b angle 0 then Normal (_clearMatrices m) else
  let centerPoint := _prjCenterToPoint m None in
  let m := set_cameraToCenterDistance m (Some (calc_cameraToCenterDistance fov h)) in
  let m2 := mat4.copy (calc_camera fov pitch angle (width m) h) in
  let m := set_projMatrix m (Some (calc_projMatrix fov pitch angle (width m) h centerPoint)) in
  let pixel := calc_pixelMatrix (width m) h (calc_projMatrix fov pitch angle (width m) h centerPoint) in
  let m := set_pixelMatrix m (Some pixel) in
  match mat4.invert pixel with
  | None => Raise "failed to invert matrix" m
  | Some inv =>
      let m := set_pixelMatrixInverse m (Some inv) in
      Normal (set_cameraMatrix m (Some (calc_cameraMatrix (width m) h m2)))
  end.

(** *** Getters and setters *)

(** [getFov] writes the default into an unset [_fov] before it reads it. *)
Definition getFov (m : Map) : R * Map :=
  let m := if falsy (_fov m) then set_fov m (Some DEFAULT_FOV) else m in
  (or_default (_fov m) DEFAULT_FOV / RADIAN, m).

Definition getBearing (m : Map) : R :=
  if falsy (_angle m) then 0 else - or_default (_angle m) 0 / RADIAN.

Definition getPitch (m : Map) : R :=
  if falsy (_pitch m) then 0 else or_default (_pitch m) 0 / PI * 180.

Definition getCameraMatrix (m : Map) : option mat4.t := cameraMatrix m.

Definition unchanged (m : Map) : Outcome := mkOutcome (Normal m) [].

Definition setFov (fov : R) (m : Map) : Outcome :=
  if isZooming m then unchanged m else
  let fov := Rmax 0.01 (Rmin 60 fov) in
  if strict_eq (_fov m) fov then unchanged m else
  let (from, m) := getFov m in
  let m := set_fov m (Some (fov * RADIAN)) in
  match _calcMatrices m with
  | Raise msg m => mkOutcome (Raise msg m) [CalcMatrices]
  | Normal m =>
      let (to, m) := getFov m in
      mkOutcome (Normal m) [CalcMatrices; RenderLayers; FireEvent "fovchange" from to]
  end.

Definition setBearing (B : Browser) (bearing : R) (m : Map) : Outcome :=
  if ie9 B then mkOutcome (Raise "map can't rotate in IE9." m) [] else
  if isZooming m then unchanged m else
  let b := (- wrap bearing (-180) 180) * RADIAN in
  if strict_eq (_angle m) b then unchanged m else
  let from := getBearing m in
  let m := set_angle m (Some b) in
  match _calcMatrices m with
  | Raise msg m => mkOutcome (Raise msg m) [CalcMatrices]
  | Normal m =>
      mkOutcome (Normal m) [CalcMatrices; RenderLayers; FireEvent "rotate" from b]
  end.

Definition setPitch (B : Browser) (pitch : R) (m : Map) : Outcome :=
  if ie9 B then mkOutcome (Raise "map can't tilt in IE9." m) [] else
  if isZooming m then unchanged m else
  let p := clamp pitch 0 60 * RADIAN in
  if strict_eq (_pitch m) p then unchanged m else
  let from := getPitch m in
  let m := set_pitch m (Some p) in
  match _calcMatrices m with
  | Raise msg m => mkOutcome (Raise msg m) [CalcMatrices]
  | Normal m =>
      mkOutcome (Normal m) [CalcMatrices; RenderLayers; FireEvent "pitch" from p]
  end.

(** The map a setter leaves, returned or thrown from. *)
Definition after (o : Outcome) : Map := state_of (completion o).

(** [_renderLayers]: the layers whose renderer is asked to render, in the
    order of the calls. *)
Definition render (layer : option Layer) : list string :=
  match layer with
  | Some l => if hasRenderer l then [layerId l] else []
  | None => []
  end.

Definition _renderLayers (m : Map) : list string :=
  render (getBaseLayer m) ++ flat_map (fun layer => render (Some layer)) (_getLayers m).

(** *** The two projectors *)

(** Modelled from the spec: [_pointToPoint] and [_pointToPointAtZoom] of
    [Map], which are not among the sources; "zoom rescaling is a simple
    scalar operation", by the ratio of the two resolutions, and nothing
    for an omitted zoom. *)
Definition _pointToPoint (m : Map) (point : Point) (zoom : option Zoom) : Point :=
  match zoom with
  | None => point
  | Some z => Point_multi point (_getResolution m (Some z) / _getResolution m None)
  end.

Definition _pointToPointAtZoom (m : Map) (point : Point) (zoom : option Zoom) : Point :=
  match zoom with
  | None => point
  | Some z => Point_multi point (_getResolution m None / _getResolution m (Some z))
  end.

(** [this.height] where the source computes with it.  An unset height
    makes [this.height / 2] a NaN, which [R] does not have: the value 0
    given here is not the code's, and the round trips and the container
    points of the flat path are stated for a map whose height is set. *)
Definition height_num (m : Map) : R :=
  match height m with
  | Some h => h
  | None => 0
  end.

Definition _pointToContainerPoint (m : Map) (point : Point) (zoom : option Zoom) : Point :=
  let point := _pointToPoint m point zoom in
  match pixelMatrix m with
  | Some pm =>
      let t := mat4.transformMat4 (mat4.Vec4 (px point) (py point) 0 1) pm in
      mkPoint (mat4.v0 t / mat4.v3 t) (mat4.v1 t / mat4.v3 t)
  | None =>
      let centerPoint := _prjCenterToPoint m None in
      Point_add (Point_sub point centerPoint) (width m / 2) (height_num m / 2)
  end.

Definition _containerPointToPoint (m : Map) (p : Point) (zoom : option Zoom) : Point :=
  match pixelMatrixInverse m with
  | Some inv =>
      let targetZ := 0 in
      let coord0 := mat4.transformMat4 (mat4.Vec4 (px p) (py p) 0 1) inv in
      let coord1 := mat4.transformMat4 (mat4.Vec4 (px p) (py p) 1 1) inv in
      let w0 := mat4.v3 coord0 in
      let w1 := mat4.v3 coord1 in
      let x0 := mat4.v0 coord0 / w0 in
      let x1 := mat4.v0 coord1 / w1 in
      let y0 := mat4.v1 coord0 / w0 in
      let y1 := mat4.v1 coord1 / w1 in
      let z0 := mat4.v2 coord0 / w0 in
      let z1 := mat4.v2 coord1 / w1 in
      let t := if Req_b z0 z1 then 0 else (targetZ - z0) / (z1 - z0) in
      let cp := mkPoint (interpolate x0 x1 t) (interpolate y0 y1 t) in
      match zoom with
      | None => cp
      | Some _ => _pointToPointAtZoom m cp zoom
      end
  | None =>
      let centerPoint := _prjCenterToPoint m zoom in
      let scale :=
        match zoom with
        | Some _ => _getResolution m None / _getResolution m zoom
        | None => 1
        end in
      let x := scale * (px p - width m / 2) in
      let y := scale * (py p - height_num m / 2) in
      Point_add centerPoint x y
  end.

(** ** The point symbolizer *)

(** What a method returns, or the [TypeError] of reading a property of
    [undefined]. *)
Inductive Thrown (A : Type) :=
| Returned (a : A)
| TypeError.
Arguments Returned {A} a.
Arguments TypeError {A}.

(** A [PointSymbolizer] through the methods of its subclass and painter
    that the class calls: [getRotation()], the two components of
    [_getRenderPoints()] (the render points as one flat array, the pairs
    of reference points if any), [getMap()], [getPainter().isSpriting()],
    [getDxDy()] and the [_northWest] of the layer's renderer. *)
Record PointSymbolizer := mkPointSymbolizer {
  getRotation : option R;
  renderPoints : list Point;
  rotations : option (list (Point * Point));
  getMap : Map;
  isSpriting : bool;
  getDxDy : Point;
  _northWest : Point }.

(** [computeDegree] of core/util is not among the sources: it is the
    argument [computeDegree] here. *)
Definition _getRotationAt (computeDegree : Point -> Point -> R)
    (s : PointSymbolizer) (i : nat) : Thrown (option R) :=
  let r := getRotation s in
  match rotations s with
  | None => Returned r
  | Some rotations =>
      let r := or_default r 0 in
      let map := getMap s in
      match nth_error rotations i with
      | None => TypeError
      | Some (r0, r1) =>
          let (p0, p1) :=
            match getCameraMatrix map with
            | Some _ =>
                let maxZoom := getMaxZoom map in
                (_pointToContainerPoint map r0 (Some maxZoom),
                 _pointToContainerPoint map r1 (Some maxZoom))
            | None => (r0, r1)
            end in
          Returned (Some (r + computeDegree p0 p1))
      end
  end.

Definition _getRenderContainerPoints (s : PointSymbolizer) : list Point :=
  let points := renderPoints s in
  if isSpriting s then points else
  let map := getMap s in
  let maxZoom := getMaxZoom map in
  let dxdy := getDxDy s in
  let layerPoint := _pointToContainerPoint map (_northWest s) None in
  List.map (fun point =>
              Point_sub (Point_addp (_pointToContainerPoint map point (Some maxZoom)) dxdy)
                        layerPoint) points.

(** ** The vector layer: styles and JSON *)

Module VectorLayer.

(** What a compiled filter returns: a boolean, or some other value; only
    [true] itself passes the test [=== true]. *)
Inductive JsValue :=
| JsBool (b : bool)
| JsOther.

Definition is_true (v : JsValue) : bool :=
  match v with
  | JsBool true => true
  | _ => false
  end.

(** A symbol and a filter feature are objects: their properties. *)
Definition Symbol := list (string * string).
Definition Feature := list (string * string).

(** An element of [_cookedStyles], as [compileStyle] of core/mapbox makes
    them. *)
Record CookedStyle := mkCookedStyle {
  filter : Feature -> JsValue;
  symbol : Symbol }.

(** An extent, for [clipExtent.intersects(geoExt)] of geo/Extent. *)
Record Extent := mkExtent { xmin : R; ymin : R; xmax : R; ymax : R }.

(** The JSON of a geometry as far as the layer looks into it: its
    ['symbol'], and the rest. *)
Record GeoJSON := mkGeoJSON {
  json_symbol : option Symbol;
  json_rest : list (string * string) }.

(** A geometry through what the layer calls on it:
    [getFilterFeature(geometry)], the symbol [_setExternSymbol] last set,
    [getExtent()], [toJSON(...)] and [_symbolBeforeStyle]. *)
Record Geometry := mkGeometry {
  feature : Feature;
  externSymbol : option Symbol;
  getExtent : option Extent;
  toJSON_of : GeoJSON;
  _symbolBeforeStyle : option Symbol }.

Definition _setExternSymbol (g : Geometry) (s : option Symbol) : Geometry :=
  mkGeometry (feature g) s (getExtent g) (toJSON_of g) (_symbolBeforeStyle g).

Section Layer.

(** A style as the user passes it, and [compileStyle] of core/mapbox,
    which is not among the sources. *)
Variable Style : Type.
Variable compileStyle : Style -> list CookedStyle.

Inductive Event :=
| setstyle (style : Style)
| removestyle.

Record Layer := mkLayer {
  getId : string;
  config : list (string * string);
  _style : option Style;
  _cookedStyles : option (list CookedStyle);
  getGeometries : list Geometry;
  fired : list Event }.

Definition getStyle (l : Layer) : option Style := _style l.

(** The loop of [_styleGeometry]: the first style whose filter returns
    [true] sets the symbol. *)
Fixpoint first_match (cooked : list CookedStyle) (g : Feature) : option Symbol :=
  match cooked with
  | [] => None
  | c :: rest => if is_true (filter c g) then Some (symbol c) else first_match rest g
  end.

Definition _styleGeometry (l : Layer) (geometry : Geometry) : bool * Geometry :=
  match _cookedStyles l with
  | None => (false, geometry)
  | Some cooked =>
      match first_match cooked (feature geometry) with
      | Some s => (true, _setExternSymbol geometry (Some s))
      | None => (false, geometry)
      end
  end.

Definition setStyle (style : Style) (l : Layer) : Layer :=
  let l := mkLayer (getId l) (config l) (Some style) (Some (compileStyle style))
                   (getGeometries l) (fired l) in
  let geometries := List.map (fun geometry => snd (_styleGeometry l geometry))
                             (getGeometries l) in
  mkLayer (getId l) (config l) (_style l) (_cookedStyles l) geometries
          (fired l ++ [setstyle style]).

Definition removeStyle (l : Layer) : Layer :=
  match _style l with
  | None => l
  | Some _ =>
      let geometries := List.map (fun geometry => _setExternSymbol geometry None)
                                 (getGeometries l) in
      mkLayer (getId l) (config l) None None geometries (fired l ++ [removestyle])
  end.

Definition onAddGeometry (l : Layer) (geo : Geometry) : Geometry :=
  match getStyle l with
  | Some _ => snd (_styleGeometry l geo)
  | None => geo
  end.

(** The options of [toJSON]: ['style'] and ['geometries'] are nil
    ([None]) or have a truth value; ['clipExtent'] is there or not. *)
Record JSONOptions := mkJSONOptions {
  opt_style : option bool;
  opt_geometries : option bool;
  opt_clipExtent : option Extent }.

Record Profile := mkProfile {
  profile_type : string;
  profile_id : string;
  profile_options : list (string * string);
  profile_style : option Style;
  profile_geometries : option (list GeoJSON) }.

Definition nil_or_truthy (v : option bool) : bool :=
  match v with
  | None => true
  | Some b => b
  end.

(** [intersects] of geo/Extent is not among the sources: an argument. *)
Definition export_geometry (intersects : Extent -> Extent -> bool) (l : Layer)
    (clipExtent : option Extent) (geometry : Geometry) : list GeoJSON :=
  match getExtent geometry with
  | None => []
  | Some geoExt =>
      let skip :=
        match clipExtent with
        | Some clip => negb (intersects clip geoExt)
        | None => false
        end in
      if skip then [] else
      let json := toJSON_of geometry in
      let json :=
        match json_symbol json, getStyle l with
        | Some _, Some _ => mkGeoJSON (_symbolBeforeStyle geometry) (json_rest json)
        | _, _ => json
        end in
      [json]
  end.

Definition toJSON (intersects : Extent -> Extent -> bool) (l : Layer)
    (options : option JSONOptions) : Profile :=
  let options :=
    match options with
    | Some o => o
    | None => mkJSONOptions None None None
    end in
  let style :=
    if nil_or_truthy (opt_style options) then getStyle l else None in
  let geometries :=
    if nil_or_truthy (opt_geometries options)
    then Some (flat_map (export_geometry intersects l (opt_clipExtent options))
                        (getGeometries l))
    else None in
  mkProfile "VectorLayer" (getId l) (config l) style geometries.

(** [fromJSON]: the constructor of the layer and [addGeometry] live in
    OverlayLayer and [Geometry.fromJSON] in Geometry, none of them among
    the sources; they are the arguments [construct], [addGeometry] and
    [Geometry_fromJSON].  A JSON without ['geometries'] ends in the
    [TypeError] of reading [length] of [undefined]. *)
Definition fromJSON (construct : string -> list (string * string) -> Layer)
    (addGeometry : Layer -> list Geometry -> Layer)
    (Geometry_fromJSON : GeoJSON -> option Geometry)
    (json : option Profile) : Thrown (option Layer) :=
  match json with
  | None => Returned None
  | Some json =>
      if negb (String.eqb (profile_type json) "VectorLayer") then Returned None else
      let layer := construct (profile_id json) (profile_options json) in
      match profile_geometries json with
      | None => TypeError
      | Some geoJSONs =>
          let geometries :=
            flat_map (fun j => match Geometry_fromJSON j with
                               | Some geo => [geo]
                               | None => []
                               end) geoJSONs in
          let layer := addGeometry layer geometries in
          Returned (Some (match profile_style json with
                          | Some style => setStyle style layer
                          | None => layer
                          end))
      end
  end.

End Layer.

Arguments setstyle {Style} style.
Arguments removestyle {Style}.
Arguments mkLayer {Style} _ _ _ _ _ _.
Arguments getId {Style} _.
Arguments config {Style} _.
Arguments _style {Style} _.
Arguments _cookedStyles {Style} _.
Arguments getGeometries {Style} _.
Arguments fired {Style} _.
Arguments getStyle {Style} _.
Arguments _styleGeometry {Style} _ _.
Arguments setStyle {Style} _ _ _.
Arguments removeStyle {Style} _.
Arguments onAddGeometry {Style} _ _.
Arguments mkProfile {Style} _ _ _ _ _.
Arguments profile_type {Style} _.
Arguments profile_id {Style} _.
Arguments profile_options {Style} _.
Arguments profile_style {Style} _.
Arguments profile_geometries {Style} _.
Arguments export_geometry {Style} _ _ _ _.
Arguments toJSON {Style} _ _ _.
Arguments fromJSON {Style} _ _ _ _ _.

End VectorLayer.

(** ** The matrices that belong to a camera *)

(** The three matrices [_calcMatrices] computes without inverting, read off
    the fields of a map. *)
Definition proj_of (m : Map) : mat4.t :=
  calc_projMatrix (or_default (_fov m) DEFAULT_FOV) (or_default (_pitch m) 0)
    (or_default (_angle m) 0) (width m) (height_num m) (_prjCenterToPoint m None).

Definition pixel_of (m : Map) : mat4.t :=
  calc_pixelMatrix (width m) (height_num m) (proj_of m).

Definition camera_of (m : Map) : mat4.t :=
  calc_cameraMatrix (width m) (height_num m)
    (calc_camera (or_default (_fov m) DEFAULT_FOV) (or_default (_pitch m) 0)
       (or_default (_angle m) 0) (width m) (height_num m)).

(** All four derived matrices are those of the camera of [m]. *)
Definition all_updated (m : Map) : Prop :=
  projMatrix m = Some (proj_of m) /\
  pixelMatrix m = Some (pixel_of m) /\
  pixelMatrixInverse m = mat4.invert (pixel_of m) /\
  mat4.invert (pixel_of m) <> None /\
  cameraMatrix m = Some (camera_of m).

Definition all_cleared (m : Map) : Prop :=
  projMatrix m = None /\ pixelMatrix m = None /\
  pixelMatrixInverse m = None /\ cameraMatrix m = None.

Definition none_updated (m m' : Map) : Prop :=
  projMatrix m' = projMatrix m /\ pixelMatrix m' = pixelMatrix m /\
  pixelMatrixInverse m' = pixelMatrixInverse m /\ cameraMatrix m' = cameraMatrix m.

(** A recomputation that took [m] to [m'] was all or nothing. *)
Definition atomic (m m' : Map) : Prop :=
  all_updated m' \/ all_cleared m' \/ none_updated m m'.

(** The top edge of the viewport looks below the horizon. *)
Definition below_horizon (m : Map) : Prop :=
  or_default (_pitch m) 0 + or_default (_fov m) DEFAULT_FOV / 2 < PI / 2.

(** A camera in the domain its setters keep it in, over a viewport. *)
Definition in_domain (m : Map) (h : R) : Prop :=
  height m = Some h /\ 0 < h /\ 0 < width m /\
  0 < or_default (_fov m) DEFAULT_FOV <= PI / 3 /\
  0 <= or_default (_pitch m) 0 <= PI / 3.

Definition tilted (m : Map) : Prop :=
  ~ (or_default (_pitch m) 0 = 0 /\ or_default (_angle m) 0 = 0).

(** The flat path of the two projectors. *)
Definition flat_forward (m : Map) (point : Point) (zoom : option Zoom) : Point :=
  Point_add (Point_sub (_pointToPoint m point zoom) (_prjCenterToPoint m None))
            (width m / 2) (height_num m / 2).

Definition flat_backward (m : Map) (p : Point) (zoom : option Zoom) : Point :=
  let scale :=
    match zoom with
    | Some _ => _getResolution m None / _getResolution m zoom
    | None => 1
    end in
  Point_add (_prjCenterToPoint m zoom)
            (scale * (px p - width m / 2)) (scale * (py p - height_num m / 2)).

(** The part of a map that no camera method writes, and the two camera
    parameters as they count. *)
Definition same_view (m m' : Map) : Prop :=
  width m' = width m /\ height m' = height m /\ isZooming m' = isZooming m /\
  getMaxZoom m' = getMaxZoom m /\ _getResolution m' = _getResolution m /\
  _prjCenterToPoint m' = _prjCenterToPoint m /\
  getBaseLayer m' = getBaseLayer m /\ _getLayers m' = _getLayers m.

(** What a setter called on [m] may have done, for the event type [ty]
    and the value [from] its getter had: no effect, the map as it was; or
    one recomputation that raised; or one recomputation, one render and
    one event, in this order, and a normal return. *)
Definition outcome_shape (m : Map) (ty : string) (from : R) (o : Outcome) : Prop :=
  (effects o = [] /\ after o = m) \/
  (raised (completion o) <> None /\ effects o = [CalcMatrices]) \/
  (raised (completion o) = None /\
   exists to, effects o = [CalcMatrices; RenderLayers; FireEvent ty from to]).

(** ** Scripts of setter calls *)

Inductive Call :=
| CallFov (v : R)
| CallBearing (v : R)
| CallPitch (v : R).

Definition call (B : Browser) (c : Call) (m : Map) : Outcome :=
  match c with
  | CallFov v => setFov v m
  | CallBearing v => setBearing B v m
  | CallPitch v => setPitch B v m
  end.

(** The calls one after the other, up to the first that raises. *)
Fixpoint run (B : Browser) (cs : list Call) (m : Map) : Outcome :=
  match cs with
  | [] => unchanged m
  | c :: rest =>
      let o := call B c m in
      match completion o with
      | Raise msg m' => o
      | Normal m' =>
          let o' := run B rest m' in
          mkOutcome (completion o') (effects o ++ effects o')
      end
  end.

(** The camera within the ranges its setters clamp and wrap to. *)
Definition camera_in_range (m : Map) : Prop :=
  0 < or_default (_fov m) DEFAULT_FOV <= PI / 3 /\
  0 <= or_default (_pitch m) 0 <= PI / 3 /\
  - PI <= or_default (_angle m) 0 < PI.

(** ** The maps of the examples *)

Definition set_width (m : Map) (v : R) : Map :=
  mkMap (_fov m) (_pitch m) (_angle m) v (height m) (cameraToCenterDistance m)
        (projMatrix m) (pixelMatrix m) (pixelMatrixInverse m) (cameraMatrix m)
        (isZooming m) (getMaxZoom m) (_getResolution m) (_prjCenterToPoint m)
        (getBaseLayer m) (_getLayers m).

Definition set_height (m : Map) (v : option R) : Map :=
  mkMap (_fov m) (_pitch m) (_angle m) (width m) v (cameraToCenterDistance m)
        (projMatrix m) (pixelMatrix m) (pixelMatrixInverse m) (cameraMatrix m)
        (isZooming m) (getMaxZoom m) (_getResolution m) (_prjCenterToPoint m)
        (getBaseLayer m) (_getLayers m).

Definition set_isZooming (m : Map) (v : bool) : Map :=
  mkMap (_fov m) (_pitch m) (_angle m) (width m) (height m) (cameraToCenterDistance m)
        (projMatrix m) (pixelMatrix m) (pixelMatrixInverse m) (cameraMatrix m)
        v (getMaxZoom m) (_getResolution m) (_prjCenterToPoint m)
        (getBaseLayer m) (_getLayers m).

(** The map after a pan: the centre of the view moved. *)
Definition set_prjCenterToPoint (m : Map) (v : option Zoom -> Point) : Map :=
  mkMap (_fov m) (_pitch m) (_angle m) (width m) (height m) (cameraToCenterDistance m)
        (projMatrix m) (pixelMatrix m) (pixelMatrixInverse m) (cameraMatrix m)
        (isZooming m) (getMaxZoom m) (_getResolution m) v
        (getBaseLayer m) (_getLayers m).

Definition origin : Point := mkPoint 0 0.
Definition modern : Browser := {| ie9 := false |}.
Definition legacy : Browser := {| ie9 := true |}.

(** A map of 800 by 600 pixels centred on the origin of map space, its
    camera untouched, no zoom animation running. *)
Definition fresh_map : Map :=
  mkMap None None None 800 (Some 600) None None None None None
        false 18%Z (fun _ => 1) (fun _ => origin) None [].

(** The same map after [setPitch(30)]. *)
Definition tilted_map : Map := after (setPitch modern 30 fresh_map).

(** The tilted map once its container has lost its height. *)
Definition collapsed_map : Map := set_height tilted_map (Some 0).

(** A map whose container is 600 pixels high and has no width. *)
Definition narrow_map : Map := set_width fresh_map 0.

(** A map as [Map] keeps its layers: [_getLayers()] lists the base layer
    before the others. *)
Definition tiles : Layer := mkLayer "tiles" true.
Definition markers : Layer := mkLayer "markers" true.

Definition layered_map : Map :=
  mkMap None None None 800 (Some 600) None None None None None
        false 18%Z (fun _ => 1) (fun _ => origin) (Some tiles) [tiles; markers].


(** A direction for the examples, where the source calls [computeDegree]. *)
Definition direction (p0 p1 : Point) : R :=
  atan ((py p1 - py p0) / (px p1 - px p0 + 1)).

(** A symbolizer on the tilted map with one render point, one pair of
    reference points and a base rotation of a half. *)
Definition arrow : PointSymbolizer :=
  mkPointSymbolizer (Some 0.5) [mkPoint 10 10]
    (Some [(mkPoint 0 0, mkPoint 0 100)]) tilted_map false origin origin.

(** A layer of the examples: styles are lists of a property value to look
    for and the symbol to give. *)
Definition example_compile (style : list (string * VectorLayer.Symbol))
    : list VectorLayer.CookedStyle :=
  List.map (fun rule =>
    VectorLayer.mkCookedStyle
      (fun g => match g with
                | (_, v) :: _ => VectorLayer.JsBool (String.eqb v (fst rule))
                | [] => VectorLayer.JsOther
                end)
      (snd rule)) style.

Definition red : VectorLayer.Symbol := [("markerFill", "red")]%string.
Definition blue : VectorLayer.Symbol := [("markerFill", "blue")]%string.

Definition town : VectorLayer.Geometry :=
  VectorLayer.mkGeometry [("kind", "town")]%string None
    (Some (VectorLayer.mkExtent 0 0 1 1))
    (VectorLayer.mkGeoJSON (Some blue) []) (Some blue).

Definition lake : VectorLayer.Geometry :=
  VectorLayer.mkGeometry [("kind", "lake")]%string (Some red) None
    (VectorLayer.mkGeoJSON None []) None.

Definition plain_layer : VectorLayer.Layer (list (string * VectorLayer.Symbol)) :=
  VectorLayer.mkLayer "roads" [] None None [town; lake] [].

Definition styled_layer : VectorLayer.Layer (list (string * VectorLayer.Symbol)) :=
  VectorLayer.setStyle example_compile [("town", red)]%string plain_layer.

(** * Properties *)

(** ** Numbers *)

Lemma Req_b_true x y : Req_b x y = true <-> x = y.
Proof. unfold Req_b; destruct (Req_dec_T x y); split; congruence. Qed.

Lemma Req_b_false x y : Req_b x y = false <-> x <> y.
Proof. unfold Req_b; destruct (Req_dec_T x y); split; congruence. Qed.

Lemma Req_b_refl x : Req_b x x = true.
Proof. apply Req_b_true; reflexivity. Qed.

Lemma Req_b_neq x y : x <> y -> Req_b x y = false.
Proof. apply Req_b_false. Qed.

Lemma RADIAN_pos : 0 < RADIAN.
Proof. unfold RADIAN. pose proof PI_RGT_0. lra. Qed.

Lemma RADIAN_neq_0 : RADIAN <> 0.
Proof. pose proof RADIAN_pos. lra. Qed.

Lemma RADIAN_lt_1 : RADIAN < 1.
Proof. unfold RADIAN. pose proof PI_4. lra. Qed.

Lemma Rceil_spec (x : R) (z : Z) : IZR z - 1 < x -> x <= IZR z -> Rceil x = z.
Proof.
  intros H1 H2. unfold Rceil.
  assert (E : (1 - z)%Z = up (- x)).
  { apply tech_up; rewrite minus_IZR; lra. }
  rewrite <- E. lia.
Qed.

Lemma Rceil_bounds (x : R) : IZR (Rceil x) - 1 < x <= IZR (Rceil x).
Proof.
  unfold Rceil. destruct (archimed (- x)) as [H1 H2].
  rewrite minus_IZR. lra.
Qed.

Lemma wrap_range (n lo hi : R) : lo < hi -> lo < wrap n lo hi <= hi.
Proof.
  intros H. unfold wrap.
  pose proof (Rceil_bounds ((n - hi) / (hi - lo))) as [H1 H2].
  set (k := IZR (Rceil ((n - hi) / (hi - lo)))) in *.
  assert (E : n - hi = (n - hi) / (hi - lo) * (hi - lo)) by (field; lra).
  assert (0 < hi - lo) by lra.
  split; nra.
Qed.

Lemma wrap_270 : wrap 270 (-180) 180 = -90.
Proof.
  unfold wrap.
  rewrite (Rceil_spec _ 1%Z); lra.
Qed.

Lemma wrap_inside (n lo hi : R) : lo < n <= hi -> wrap n lo hi = n.
Proof.
  intros H. unfold wrap.
  rewrite (Rceil_spec _ 0%Z).
  - lra.
  - assert (0 < hi - lo) by lra.
    apply Rmult_lt_reg_r with (hi - lo); [lra|].
    replace ((n - hi) / (hi - lo) * (hi - lo)) with (n - hi) by (field; lra). lra.
  - assert (0 < hi - lo) by lra.
    apply Rmult_le_reg_r with (hi - lo); [lra|].
    replace ((n - hi) / (hi - lo) * (hi - lo)) with (n - hi) by (field; lra). lra.
Qed.

Lemma strict_eq_or_default (x : option R) (y : R) :
  strict_eq x y = true -> or_default x 0 = y.
Proof.
  unfold strict_eq, or_default. destruct x as [z|]; [|discriminate].
  intros E. apply Req_b_true in E. subst. destruct (Req_b y 0) eqn:Z; [|reflexivity].
  apply Req_b_true in Z. symmetry. exact Z.
Qed.

(** ** What [_calcMatrices] does to the camera fields *)

Lemma or_default_idem v d : d <> 0 \/ d = 0 ->
  or_default (Some (or_default v d)) d = or_default v d.
Proof.
  intros _. unfold or_default. destruct v as [x|].
  - destruct (Req_b x 0) eqn:E.
    + destruct (Req_b d 0); reflexivity.
    + rewrite E. reflexivity.
  - destruct (Req_b d 0); reflexivity.
Qed.

Lemma falsy_or_default v : falsy (Some (or_default v 0)) = falsy v.
Proof.
  unfold falsy, or_default. destruct v as [x|].
  - destruct (Req_b x 0) eqn:E; [apply Req_b_refl | exact E].
  - apply Req_b_refl.
Qed.

Lemma calcMatrices_fields (m : Map) :
  let m' := state_of (_calcMatrices m) in
  (falsy (height m) = true /\ _calcMatrices m = Normal m) \/
  (falsy (height m) = false /\
   _fov m' = Some (or_default (_fov m) DEFAULT_FOV) /\
   _pitch m' = Some (or_default (_pitch m) 0) /\
   _angle m' = Some (or_default (_angle m) 0)).
Proof.
  cbv zeta. unfold _calcMatrices. destruct (falsy (height m)) eqn:Hh.
  - left. split; reflexivity.
  - right. split; [reflexivity|]. cbn [_pitch _angle set_fov set_pitch].
    destruct (Req_b (or_default (_pitch m) 0) 0 && Req_b (or_default (_angle m) 0) 0).
    + simpl. repeat split.
    + destruct (mat4.invert _); simpl; repeat split.
Qed.

Lemma calcMatrices_frame (m : Map) :
  let m' := state_of (_calcMatrices m) in
  width m' = width m /\ height m' = height m /\ isZooming m' = isZooming m /\
  getMaxZoom m' = getMaxZoom m /\ _getResolution m' = _getResolution m /\
  _prjCenterToPoint m' = _prjCenterToPoint m /\
  getBaseLayer m' = getBaseLayer m /\ _getLayers m' = _getLayers m.
Proof.
  cbv zeta. unfold _calcMatrices. destruct (falsy (height m)).
  - simpl. repeat split.
  - cbn [_pitch _angle set_fov set_pitch].
    destruct (Req_b (or_default (_pitch m) 0) 0 && Req_b (or_default (_angle m) 0) 0).
    + simpl. repeat split.
    + destruct (mat4.invert _); simpl; repeat split.
Qed.

Lemma getPitch_calcMatrices (m : Map) :
  getPitch (state_of (_calcMatrices m)) = getPitch m.
Proof.
  destruct (calcMatrices_fields m) as [[_ E]|(_ & _ & E & _)].
  - rewrite E. reflexivity.
  - unfold getPitch. rewrite E, falsy_or_default, or_default_idem by (right; reflexivity).
    reflexivity.
Qed.

Lemma getBearing_calcMatrices (m : Map) :
  getBearing (state_of (_calcMatrices m)) = getBearing m.
Proof.
  destruct (calcMatrices_fields m) as [[_ E]|(_ & _ & _ & E)].
  - rewrite E. reflexivity.
  - unfold getBearing. rewrite E, falsy_or_default, or_default_idem by (right; reflexivity).
    reflexivity.
Qed.

Lemma getFov_calcMatrices (m : Map) :
  fst (getFov (state_of (_calcMatrices m))) = fst (getFov m).
Proof.
  assert (G : forall m0, fst (getFov m0) = or_default (_fov m0) DEFAULT_FOV / RADIAN).
  { intros m0. unfold getFov. destruct (falsy (_fov m0)) eqn:F; simpl; [|reflexivity].
    f_equal. unfold falsy in F. unfold or_default.
    rewrite Req_b_neq by (unfold DEFAULT_FOV; lra).
    destruct (_fov m0); [rewrite F|]; reflexivity. }
  rewrite !G.
  destruct (calcMatrices_fields m) as [[_ E]|(_ & E & _)].
  - rewrite E. reflexivity.
  - rewrite E, or_default_idem by (left; unfold DEFAULT_FOV; lra). reflexivity.
Qed.

Lemma getFov_value (m : Map) :
  fst (getFov m) = or_default (_fov m) DEFAULT_FOV / RADIAN.
Proof.
  unfold getFov. destruct (falsy (_fov m)) eqn:F; simpl; [|reflexivity].
  f_equal. unfold falsy in F. unfold or_default.
  rewrite Req_b_neq by (unfold DEFAULT_FOV; lra).
  destruct (_fov m); [rewrite F|]; reflexivity.
Qed.

(** ** The setters *)

Lemma clamp_range n lo hi : lo <= hi -> lo <= clamp n lo hi <= hi.
Proof.
  intros H. unfold clamp, Rmin, Rmax.
  destruct (Rle_dec lo n); destruct (Rle_dec hi _); lra.
Qed.

Lemma clamp_above n lo hi : lo <= hi -> hi <= n -> clamp n lo hi = hi.
Proof.
  intros H1 H2. unfold clamp, Rmin, Rmax.
  destruct (Rle_dec lo n); destruct (Rle_dec hi _); lra.
Qed.

Lemma clamp_inside n lo hi : lo <= n <= hi -> clamp n lo hi = n.
Proof.
  intros H. unfold clamp, Rmin, Rmax.
  destruct (Rle_dec lo n); destruct (Rle_dec hi _); lra.
Qed.

Lemma fov_clamp_range v : 0.01 <= Rmax 0.01 (Rmin 60 v) <= 60.
Proof.
  unfold Rmin, Rmax. destruct (Rle_dec 60 v); destruct (Rle_dec 0.01 _); lra.
Qed.

(** The pitch a completed [setPitch] leaves, read in degrees. *)
Lemma getPitch_after_setPitch (B : Browser) (v : R) (m : Map) :
  ie9 B = false -> isZooming m = false ->
  getPitch (after (setPitch B v m)) = clamp v 0 60.
Proof.
  intros HB HZ. unfold setPitch, after. rewrite HB, HZ.
  set (p := clamp v 0 60 * RADIAN).
  assert (Hp : p / PI * 180 = clamp v 0 60).
  { unfold p, RADIAN. field. pose proof PI_RGT_0; lra. }
  assert (Hget : forall m0, _pitch m0 = Some p -> getPitch m0 = clamp v 0 60).
  { intros m0 E. unfold getPitch. rewrite E. simpl.
    destruct (Req_b p 0) eqn:Z.
    - apply Req_b_true in Z. rewrite Z in Hp. lra.
    - exact Hp. }
  destruct (strict_eq (_pitch m) p) eqn:S.
  - simpl. apply Hget. unfold strict_eq in S. destruct (_pitch m); [|discriminate].
    apply Req_b_true in S. congruence.
  - assert (E : getPitch (state_of (_calcMatrices (set_pitch m (Some p)))) = clamp v 0 60).
    { rewrite getPitch_calcMatrices. apply Hget. reflexivity. }
    destruct (_calcMatrices (set_pitch m (Some p))); exact E.
Qed.

(** The bearing a completed [setBearing] leaves, read in degrees. *)
Lemma getBearing_after_setBearing (B : Browser) (v : R) (m : Map) :
  ie9 B = false -> isZooming m = false ->
  getBearing (after (setBearing B v m)) = wrap v (-180) 180.
Proof.
  intros HB HZ. unfold setBearing, after. rewrite HB, HZ.
  set (b := - wrap v (-180) 180 * RADIAN).
  assert (Hb : - b / RADIAN = wrap v (-180) 180).
  { unfold b. field. apply RADIAN_neq_0. }
  assert (Hget : forall m0, _angle m0 = Some b -> getBearing m0 = wrap v (-180) 180).
  { intros m0 E. unfold getBearing. rewrite E. simpl.
    destruct (Req_b b 0) eqn:Z.
    - apply Req_b_true in Z. rewrite Z in Hb. rewrite <- Hb. field. apply RADIAN_neq_0.
    - exact Hb. }
  destruct (strict_eq (_angle m) b) eqn:S.
  - simpl. apply Hget. unfold strict_eq in S. destruct (_angle m); [|discriminate].
    apply Req_b_true in S. congruence.
  - assert (E : getBearing (state_of (_calcMatrices (set_angle m (Some b)))) = wrap v (-180) 180).
    { rewrite getBearing_calcMatrices. apply Hget. reflexivity. }
    destruct (_calcMatrices (set_angle m (Some b))); exact E.
Qed.

(** ** Matrices *)

Lemma Mat4_ext a0 a1 a2 a3 a4 a5 a6 a7 a8 a9 a10 a11 a12 a13 a14 a15
    b0 b1 b2 b3 b4 b5 b6 b7 b8 b9 b10 b11 b12 b13 b14 b15 :
  a0 = b0 -> a1 = b1 -> a2 = b2 -> a3 = b3 ->
  a4 = b4 -> a5 = b5 -> a6 = b6 -> a7 = b7 ->
  a8 = b8 -> a9 = b9 -> a10 = b10 -> a11 = b11 ->
  a12 = b12 -> a13 = b13 -> a14 = b14 -> a15 = b15 ->
  mat4.Mat4 a0 a1 a2 a3 a4 a5 a6 a7 a8 a9 a10 a11 a12 a13 a14 a15 =
  mat4.Mat4 b0 b1 b2 b3 b4 b5 b6 b7 b8 b9 b10 b11 b12 b13 b14 b15.
Proof. intros; subst; reflexivity. Qed.

Lemma Vec4_ext a0 a1 a2 a3 b0 b1 b2 b3 :
  a0 = b0 -> a1 = b1 -> a2 = b2 -> a3 = b3 ->
  mat4.Vec4 a0 a1 a2 a3 = mat4.Vec4 b0 b1 b2 b3.
Proof. intros; subst; reflexivity. Qed.

Ltac map_fields :=
  cbn [state_of after completion _fov _pitch _angle width height cameraToCenterDistance
       projMatrix pixelMatrix pixelMatrixInverse cameraMatrix isZooming getMaxZoom
       _getResolution _prjCenterToPoint getBaseLayer _getLayers
       set_fov set_pitch set_angle set_cameraToCenterDistance set_projMatrix
       set_pixelMatrix set_pixelMatrixInverse set_cameraMatrix
       set_width set_height set_isZooming set_prjCenterToPoint _clearMatrices].

Ltac mat4_ring :=
  cbv [mat4.multiply mat4.adjugate mat4.smul mat4.determinant mat4.create
       mat4.fromScaling mat4.fromTranslation mat4.scale mat4.translate];
  apply Mat4_ext; ring.

Lemma multiply_assoc (a b c : mat4.t) :
  mat4.multiply (mat4.multiply a b) c = mat4.multiply a (mat4.multiply b c).
Proof. destruct a, b, c. mat4_ring. Qed.

Lemma multiply_create_l (a : mat4.t) : mat4.multiply mat4.create a = a.
Proof. destruct a. mat4_ring. Qed.

Lemma multiply_create_r (a : mat4.t) : mat4.multiply a mat4.create = a.
Proof. destruct a. mat4_ring. Qed.

Lemma multiply_adjugate (a : mat4.t) :
  mat4.multiply a (mat4.adjugate a) = mat4.smul (mat4.determinant a) mat4.create.
Proof. destruct a. mat4_ring. Qed.

Lemma adjugate_multiply (a : mat4.t) :
  mat4.multiply (mat4.adjugate a) a = mat4.smul (mat4.determinant a) mat4.create.
Proof. destruct a. mat4_ring. Qed.

Lemma multiply_smul_r (k : R) (a b : mat4.t) :
  mat4.multiply a (mat4.smul k b) = mat4.smul k (mat4.multiply a b).
Proof. destruct a, b. mat4_ring. Qed.

Lemma multiply_smul_l (k : R) (a b : mat4.t) :
  mat4.multiply (mat4.smul k a) b = mat4.smul k (mat4.multiply a b).
Proof. destruct a, b. mat4_ring. Qed.

Lemma smul_smul_create (k d : R) :
  k * d = 1 -> mat4.smul k (mat4.smul d mat4.create) = mat4.create.
Proof.
  intros H. cbv [mat4.smul mat4.create].
  apply Mat4_ext; try ring; rewrite Rmult_1_l, Rmult_comm; exact H.
Qed.

Lemma determinant_multiply (a b : mat4.t) :
  mat4.determinant (mat4.multiply a b) = mat4.determinant a * mat4.determinant b.
Proof. destruct a, b. cbv [mat4.multiply mat4.determinant]. ring. Qed.

Lemma determinant_create : mat4.determinant mat4.create = 1.
Proof. cbv [mat4.determinant mat4.create]. ring. Qed.

(** [invert] gives [null] exactly on a matrix of determinant [0], and
    otherwise a two-sided inverse. *)
Lemma invert_None (a : mat4.t) : mat4.invert a = None <-> mat4.determinant a = 0.
Proof.
  unfold mat4.invert. destruct (Req_b (mat4.determinant a) 0) eqn:E.
  - apply Req_b_true in E. tauto.
  - apply Req_b_false in E. split; [discriminate | tauto].
Qed.

Lemma invert_Some (a b : mat4.t) :
  mat4.invert a = Some b ->
  mat4.determinant a <> 0 /\
  mat4.multiply a b = mat4.create /\ mat4.multiply b a = mat4.create.
Proof.
  unfold mat4.invert. destruct (Req_b (mat4.determinant a) 0) eqn:E; [discriminate|].
  apply Req_b_false in E. intros H. injection H as <-.
  split; [exact E|].
  rewrite multiply_smul_r, multiply_smul_l, multiply_adjugate, adjugate_multiply.
  split; apply smul_smul_create; field; exact E.
Qed.

Lemma invert_total (a : mat4.t) :
  mat4.determinant a <> 0 -> exists b, mat4.invert a = Some b.
Proof.
  intros H. unfold mat4.invert. rewrite Req_b_neq by exact H. eauto.
Qed.

Lemma transformMat4_multiply (v : mat4.vec4) (a b : mat4.t) :
  mat4.transformMat4 v (mat4.multiply a b) =
  mat4.transformMat4 (mat4.transformMat4 v b) a.
Proof.
  destruct v, a, b. cbv [mat4.transformMat4 mat4.multiply
    mat4.e0 mat4.e1 mat4.e2 mat4.e3 mat4.e4 mat4.e5 mat4.e6 mat4.e7
    mat4.e8 mat4.e9 mat4.e10 mat4.e11 mat4.e12 mat4.e13 mat4.e14 mat4.e15].
  apply Vec4_ext; ring.
Qed.

Lemma transformMat4_create (v : mat4.vec4) : mat4.transformMat4 v mat4.create = v.
Proof.
  destruct v. cbv [mat4.transformMat4 mat4.create
    mat4.e0 mat4.e1 mat4.e2 mat4.e3 mat4.e4 mat4.e5 mat4.e6 mat4.e7
    mat4.e8 mat4.e9 mat4.e10 mat4.e11 mat4.e12 mat4.e13 mat4.e14 mat4.e15].
  apply Vec4_ext; ring.
Qed.

Lemma sin2_cos2_1 (x : R) : sin x * sin x + cos x * cos x = 1.
Proof. pose proof (sin2_cos2 x) as H. unfold Rsqr in H. exact H. Qed.

Lemma determinant_fromScaling x y z : mat4.determinant (mat4.fromScaling x y z) = x * y * z.
Proof. cbv [mat4.determinant mat4.fromScaling]. ring. Qed.

Lemma determinant_fromTranslation x y z : mat4.determinant (mat4.fromTranslation x y z) = 1.
Proof. cbv [mat4.determinant mat4.fromTranslation]. ring. Qed.

Lemma determinant_fromXRotation a : mat4.determinant (mat4.fromXRotation a) = 1.
Proof.
  cbv [mat4.determinant mat4.fromXRotation].
  transitivity (sin a * sin a + cos a * cos a); [ring | apply sin2_cos2_1].
Qed.

Lemma determinant_fromZRotation a : mat4.determinant (mat4.fromZRotation a) = 1.
Proof.
  cbv [mat4.determinant mat4.fromZRotation].
  transitivity (sin a * sin a + cos a * cos a); [ring | apply sin2_cos2_1].
Qed.

Lemma determinant_perspective fovy aspect near far :
  mat4.determinant (mat4.perspective fovy aspect near far) =
  (1 / tan (fovy / 2) / aspect) * (1 / tan (fovy / 2)) * (2 * far * near * (1 / (near - far))).
Proof. cbv [mat4.determinant mat4.perspective]. ring. Qed.

Lemma determinant_pixelMatrix fov pitch angle w h c :
  mat4.determinant (calc_pixelMatrix w h (calc_projMatrix fov pitch angle w h c)) =
  (w / 2 * (- h / 2)) *
  ((1 / tan (fov / 2) / (w / h)) * (1 / tan (fov / 2)) *
   (2 * calc_farZ fov pitch h * (1 / (1 - calc_farZ fov pitch h)))) * (-1).
Proof.
  unfold calc_pixelMatrix, calc_projMatrix, calc_camera,
    mat4.scale, mat4.translate, mat4.rotateX, mat4.rotateZ.
  rewrite !determinant_multiply, determinant_create, !determinant_fromScaling,
    !determinant_fromTranslation, determinant_fromXRotation, determinant_fromZRotation,
    determinant_perspective.
  ring.
Qed.

(** ** Single steps of the pixel matrix *)

Ltac vec4_ring :=
  cbv [mat4.transformMat4 mat4.fromScaling mat4.fromTranslation mat4.fromXRotation
       mat4.fromZRotation mat4.perspective
    mat4.e0 mat4.e1 mat4.e2 mat4.e3 mat4.e4 mat4.e5 mat4.e6 mat4.e7
    mat4.e8 mat4.e9 mat4.e10 mat4.e11 mat4.e12 mat4.e13 mat4.e14 mat4.e15];
  apply Vec4_ext; ring.

Lemma transform_fromTranslation a b c k x y z :
  mat4.transformMat4 (mat4.Vec4 a b c k) (mat4.fromTranslation x y z) =
  mat4.Vec4 (a + x * k) (b + y * k) (c + z * k) k.
Proof. vec4_ring. Qed.

Lemma transform_fromScaling a b c k x y z :
  mat4.transformMat4 (mat4.Vec4 a b c k) (mat4.fromScaling x y z) =
  mat4.Vec4 (x * a) (y * b) (z * c) k.
Proof. vec4_ring. Qed.

Lemma transform_fromXRotation a b c k rad :
  mat4.transformMat4 (mat4.Vec4 a b c k) (mat4.fromXRotation rad) =
  mat4.Vec4 a (cos rad * b - sin rad * c) (sin rad * b + cos rad * c) k.
Proof. vec4_ring. Qed.

Lemma transform_fromZRotation a b c k rad :
  mat4.transformMat4 (mat4.Vec4 a b c k) (mat4.fromZRotation rad) =
  mat4.Vec4 (cos rad * a - sin rad * b) (sin rad * a + cos rad * b) c k.
Proof. vec4_ring. Qed.

Lemma transform_perspective a b c k fovy aspect near far :
  mat4.transformMat4 (mat4.Vec4 a b c k) (mat4.perspective fovy aspect near far) =
  mat4.Vec4 (1 / tan (fovy / 2) / aspect * a) (1 / tan (fovy / 2) * b)
            ((far + near) * (1 / (near - far)) * c + 2 * far * near * (1 / (near - far)) * k)
            (- c).
Proof. vec4_ring. Qed.

Lemma transform_pixelMatrix fov pitch angle w h c x y z k :
  let f := 1 / tan (fov / 2) in
  let far := calc_farZ fov pitch h in
  let nf := 1 / (1 - far) in
  let d := calc_cameraToCenterDistance fov h in
  let x1 := x - px c * k in
  let y1 := y - py c * k in
  let x2 := cos angle * x1 - sin angle * y1 in
  let y2 := sin angle * x1 + cos angle * y1 in
  let y3 := cos pitch * y2 - sin pitch * z in
  let z3 := sin pitch * y2 + cos pitch * z in
  let Z := z3 - d * k in
  mat4.transformMat4 (mat4.Vec4 x y z k)
    (calc_pixelMatrix w h (calc_projMatrix fov pitch angle w h c)) =
  mat4.Vec4 (w / 2 * (f / (w / h) * x2 - Z))
            (- h / 2 * (- f * y3 + Z))
            ((far + 1) * nf * Z + 2 * far * 1 * nf * k)
            (- Z).
Proof.
  cbv zeta.
  unfold calc_pixelMatrix, calc_projMatrix, calc_camera,
    mat4.scale, mat4.translate, mat4.rotateX, mat4.rotateZ.
  rewrite !transformMat4_multiply.
  rewrite !transform_fromTranslation, transform_fromZRotation, transform_fromXRotation,
    transform_fromTranslation, transform_fromScaling, transform_perspective,
    transform_fromTranslation, transform_fromScaling, transformMat4_create.
  apply Vec4_ext; ring.
Qed.

(** ** The frustum of a camera in its domain *)

Lemma tan_half_fov_pos fov : 0 < fov <= PI / 3 -> 0 < tan (fov / 2).
Proof. intros H. pose proof PI_RGT_0. apply tan_gt_0; lra. Qed.

Lemma cameraToCenterDistance_pos fov h :
  0 < fov <= PI / 3 -> 0 < h -> 0 < calc_cameraToCenterDistance fov h.
Proof.
  intros Hf Hh. unfold calc_cameraToCenterDistance.
  pose proof (tan_half_fov_pos fov Hf) as Ht.
  apply Rmult_lt_0_compat; [|exact Hh].
  apply Rdiv_lt_0_compat; lra.
Qed.

Lemma Rdiv_nonneg a b : 0 <= a -> 0 < b -> 0 <= a / b.
Proof.
  intros Ha Hb. apply Rmult_le_pos; [exact Ha|]. left. apply Rinv_0_lt_compat. exact Hb.
Qed.

Lemma farZ_divisor_pos fov pitch :
  0 < fov -> 0 <= pitch -> pitch + fov / 2 < PI / 2 -> 0 < farZ_divisor fov pitch.
Proof.
  intros Hf Hp Hb. unfold farZ_divisor. pose proof PI_RGT_0. apply sin_gt_0; lra.
Qed.

Lemma farZ_lower fov pitch h :
  0 < fov <= PI / 3 -> 0 <= pitch <= PI / 3 -> pitch + fov / 2 < PI / 2 -> 0 < h ->
  calc_cameraToCenterDistance fov h * 1.01 <= calc_farZ fov pitch h.
Proof.
  intros Hf Hp Hb Hh. unfold calc_farZ.
  pose proof (cameraToCenterDistance_pos fov h Hf Hh) as Hd.
  set (d := calc_cameraToCenterDistance fov h) in *.
  pose proof PI_RGT_0 as Hpi.
  assert (Hs : 0 <= cos (PI / 2 - pitch)).
  { rewrite cos_shift. apply sin_ge_0; lra. }
  assert (Hh2 : 0 <= sin (fov / 2)) by (apply sin_ge_0; lra).
  assert (Hden : 0 < sin (PI - (PI / 2 + pitch) - fov / 2)).
  { apply (farZ_divisor_pos fov pitch); lra. }
  assert (Ht : 0 <= sin (fov / 2) * d / sin (PI - (PI / 2 + pitch) - fov / 2)).
  { apply Rdiv_nonneg; [|exact Hden]. apply Rmult_le_pos; lra. }
  nra.
Qed.

Lemma farZ_pos fov pitch h :
  0 < fov <= PI / 3 -> 0 <= pitch <= PI / 3 -> pitch + fov / 2 < PI / 2 -> 0 < h ->
  0 < calc_farZ fov pitch h.
Proof.
  intros Hf Hp Hb Hh.
  pose proof (farZ_lower fov pitch h Hf Hp Hb Hh).
  pose proof (cameraToCenterDistance_pos fov h Hf Hh). lra.
Qed.

(** In the domain the pixel matrix is singular exactly when the far plane
    falls on the near plane. *)
Lemma determinant_pixelMatrix_neq_0 fov pitch angle w h c :
  0 < fov <= PI / 3 -> 0 <= pitch <= PI / 3 -> pitch + fov / 2 < PI / 2 ->
  0 < w -> 0 < h ->
  calc_farZ fov pitch h <> 1 ->
  mat4.determinant (calc_pixelMatrix w h (calc_projMatrix fov pitch angle w h c)) <> 0.
Proof.
  intros Hf Hp Hb Hw Hh Hfar. rewrite determinant_pixelMatrix.
  pose proof (tan_half_fov_pos fov Hf) as Ht.
  pose proof (farZ_pos fov pitch h Hf Hp Hb Hh) as Hz.
  remember (calc_farZ fov pitch h) as far eqn:Efar. clear Efar.
  assert (H1 : 1 / tan (fov / 2) <> 0).
  { unfold Rdiv. rewrite Rmult_1_l. apply Rinv_neq_0_compat. lra. }
  assert (H2 : 1 / (1 - far) <> 0).
  { unfold Rdiv. rewrite Rmult_1_l. apply Rinv_neq_0_compat. lra. }
  assert (H3 : / (w / h) <> 0).
  { apply Rinv_neq_0_compat. unfold Rdiv. apply Rmult_integral_contrapositive_currified.
    - lra.
    - apply Rinv_neq_0_compat. lra. }
  unfold Rdiv at 2.
  repeat apply Rmult_integral_contrapositive_currified; try lra; try assumption.
Qed.

Lemma determinant_pixelMatrix_far fov pitch angle w h c :
  mat4.determinant (calc_pixelMatrix w h (calc_projMatrix fov pitch angle w h c)) <> 0 ->
  calc_farZ fov pitch h <> 1 /\ calc_farZ fov pitch h <> 0.
Proof.
  rewrite determinant_pixelMatrix. intros H. split; intros E; apply H; rewrite E.
  - replace (1 / (1 - 1)) with 0; [ring|].
    unfold Rdiv. replace (1 - 1) with 0 by ring. rewrite Rinv_0. ring.
  - ring.
Qed.

(** ** Unprojecting a pixel through the inverse pixel matrix *)

Lemma transformMat4_lin (al be : R) (a b : mat4.vec4) (M : mat4.t) :
  mat4.transformMat4
    (mat4.Vec4 (al * mat4.v0 a + be * mat4.v0 b) (al * mat4.v1 a + be * mat4.v1 b)
               (al * mat4.v2 a + be * mat4.v2 b) (al * mat4.v3 a + be * mat4.v3 b)) M =
  mat4.Vec4
    (al * mat4.v0 (mat4.transformMat4 a M) + be * mat4.v0 (mat4.transformMat4 b M))
    (al * mat4.v1 (mat4.transformMat4 a M) + be * mat4.v1 (mat4.transformMat4 b M))
    (al * mat4.v2 (mat4.transformMat4 a M) + be * mat4.v2 (mat4.transformMat4 b M))
    (al * mat4.v3 (mat4.transformMat4 a M) + be * mat4.v3 (mat4.transformMat4 b M)).
Proof.
  destruct a, b, M.
  cbv [mat4.transformMat4 mat4.v0 mat4.v1 mat4.v2 mat4.v3
    mat4.e0 mat4.e1 mat4.e2 mat4.e3 mat4.e4 mat4.e5 mat4.e6 mat4.e7
    mat4.e8 mat4.e9 mat4.e10 mat4.e11 mat4.e12 mat4.e13 mat4.e14 mat4.e15].
  apply Vec4_ext; ring.
Qed.


(** What the pixel matrix of a camera sends to a pixel at depth [s]: its
    fourth and third components. *)
Lemma unproject_components fov pitch angle w h c (v : mat4.vec4) (x y s : R) :
  let far := calc_farZ fov pitch h in
  let d := calc_cameraToCenterDistance fov h in
  mat4.transformMat4 v (calc_pixelMatrix w h (calc_projMatrix fov pitch angle w h c)) =
    mat4.Vec4 x y s 1 ->
  0 < tan (fov / 2) -> h <> 0 -> far <> 0 -> far <> 1 ->
  mat4.v3 v = (s * (1 - far) + far + 1) / (2 * far) /\
  mat4.v2 v = cos pitch * (d * mat4.v3 v - 1) +
              sin pitch * ((1 - 2 * y / h) * tan (fov / 2)).
Proof.
  intros far d H Ht Hh Hf0 Hf1. destruct v as [a b cz k].
  rewrite transform_pixelMatrix in H. cbv zeta in H. fold far d in H.
  injection H as _ E2 E3 E4. cbn [mat4.v3 mat4.v2].
  set (y2 := sin angle * (a - px c * k) + cos angle * (b - py c * k)) in *.
  assert (EZ : sin pitch * y2 + cos pitch * cz = d * k - 1) by lra.
  rewrite EZ in E2, E3.
  assert (Ek : k = (s * (1 - far) + far + 1) / (2 * far)).
  { apply Rmult_eq_reg_l with (2 * far * (1 / (1 - far))).
    - transitivity (s + (far + 1) * (1 / (1 - far))).
      + rewrite <- E3. ring.
      + field. split; lra.
    - apply Rmult_integral_contrapositive_currified; [lra|].
      unfold Rdiv. rewrite Rmult_1_l. apply Rinv_neq_0_compat. lra. }
  split; [exact Ek|].
  assert (Ey : cos pitch * y2 - sin pitch * cz = - ((1 - 2 * y / h) * tan (fov / 2))).
  { apply Rmult_eq_reg_l with (1 / tan (fov / 2)).
    - transitivity (- (1 - 2 * y / h)); [|field; lra].
      transitivity (- (- (1 / tan (fov / 2)) * (cos pitch * y2 - sin pitch * cz))); [ring|].
      f_equal.
      apply Rmult_eq_reg_l with (- h / 2); [|lra].
      transitivity (y + (- h / 2) * (- (d * k - 1 - (d * k)))); [rewrite <- E2; ring|].
      field. exact Hh.
    - unfold Rdiv. rewrite Rmult_1_l. apply Rinv_neq_0_compat. lra. }
  pose proof (sin2_cos2_1 pitch) as Hsc.
  transitivity ((sin pitch * sin pitch + cos pitch * cos pitch) * cz); [rewrite Hsc; ring|].
  transitivity (cos pitch * (sin pitch * y2 + cos pitch * cz)
                - sin pitch * (cos pitch * y2 - sin pitch * cz)); [ring|].
  rewrite EZ, Ey. ring.
Qed.

Lemma ground_slope_neg fov pitch y h :
  0 < fov <= PI / 3 -> 0 <= pitch <= PI / 3 -> 0 < y < h ->
  sin pitch * ((1 - 2 * y / h) * tan (fov / 2)) - cos pitch < 0.
Proof.
  intros Hf Hp Hy. pose proof PI_RGT_0 as Hpi.
  assert (Hh : 0 < h) by lra.
  assert (HC : 0 < cos pitch) by (apply cos_gt_0; lra).
  assert (HS : 0 <= sin pitch) by (apply sin_ge_0; lra).
  assert (Hc2 : 0 < cos (fov / 2)) by (apply cos_gt_0; lra).
  assert (HT : 0 < tan (fov / 2)) by (apply tan_half_fov_pos; exact Hf).
  assert (Hsum : 0 <= cos (pitch + fov / 2)) by (apply cos_ge_0; lra).
  rewrite cos_plus in Hsum.
  assert (HST : sin pitch * tan (fov / 2) <= cos pitch).
  { unfold tan. apply Rmult_le_reg_r with (cos (fov / 2)); [exact Hc2|].
    replace (sin pitch * (sin (fov / 2) / cos (fov / 2)) * cos (fov / 2))
      with (sin pitch * sin (fov / 2)) by (field; lra).
    lra. }
  assert (Hu : -1 < 1 - 2 * y / h < 1).
  { assert (0 < y / h < 1).
    { split.
      - apply Rdiv_lt_0_compat; lra.
      - apply Rmult_lt_reg_r with h; [exact Hh|].
        replace (y / h * h) with y by (field; lra). lra. }
    lra. }
  set (u := 1 - 2 * y / h) in *.
  assert (HP : 0 <= sin pitch * tan (fov / 2)) by (apply Rmult_le_pos; lra).
  replace (sin pitch * (u * tan (fov / 2))) with (u * (sin pitch * tan (fov / 2))) by ring.
  nra.
Qed.

(** ** What [_calcMatrices] builds *)

Lemma falsy_Some_neq h : h <> 0 -> falsy (Some h) = false.
Proof. intros H. simpl. apply Req_b_neq. exact H. Qed.

Lemma or_default_Some_neq h d : h <> 0 -> or_default (Some h) d = h.
Proof. intros H. simpl. rewrite Req_b_neq by exact H. reflexivity. Qed.

Lemma flat_test_false (pitch angle : R) :
  ~ (pitch = 0 /\ angle = 0) -> Req_b pitch 0 && Req_b angle 0 = false.
Proof.
  intros H. destruct (Req_b pitch 0) eqn:E1; [|reflexivity].
  destruct (Req_b angle 0) eqn:E2; [|reflexivity].
  apply Req_b_true in E1, E2. tauto.
Qed.

Lemma flat_test_true (pitch angle : R) :
  pitch = 0 -> angle = 0 -> Req_b pitch 0 && Req_b angle 0 = true.
Proof. intros -> ->. rewrite Req_b_refl. reflexivity. Qed.

(** With pitch or bearing away from [0] and a viewport height: the two
    matrices written before the inversion, and the two written after it
    when it succeeds. *)
Lemma calcMatrices_perspective (m : Map) (h : R) :
  height m = Some h -> h <> 0 ->
  let fov := or_default (_fov m) DEFAULT_FOV in
  let pitch := or_default (_pitch m) 0 in
  let angle := or_default (_angle m) 0 in
  let w := width m in
  ~ (pitch = 0 /\ angle = 0) ->
  let proj := calc_projMatrix fov pitch angle w h (_prjCenterToPoint m None) in
  let pixel := calc_pixelMatrix w h proj in
  let m' := state_of (_calcMatrices m) in
  projMatrix m' = Some proj /\ pixelMatrix m' = Some pixel /\
  cameraToCenterDistance m' = Some (calc_cameraToCenterDistance fov h) /\
  match mat4.invert pixel with
  | Some inv =>
      _calcMatrices m = Normal m' /\
      pixelMatrixInverse m' = Some inv /\
      cameraMatrix m' = Some (calc_cameraMatrix w h (calc_camera fov pitch angle w h))
  | None =>
      _calcMatrices m = Raise "failed to invert matrix" m' /\
      pixelMatrixInverse m' = pixelMatrixInverse m /\
      cameraMatrix m' = cameraMatrix m
  end.
Proof.
  intros Hh Hh0 fov pitch angle w Hflat proj pixel m'.
  subst m'. unfold _calcMatrices.
  rewrite Hh, (falsy_Some_neq h Hh0), (or_default_Some_neq h 0 Hh0).
  cbn [_pitch _angle _fov width _prjCenterToPoint set_fov set_pitch set_angle
       set_cameraToCenterDistance set_projMatrix set_pixelMatrix].
  fold fov pitch angle w. rewrite (flat_test_false pitch angle Hflat).
  fold proj. fold pixel.
  destruct (mat4.invert pixel);
    cbn [state_of projMatrix pixelMatrix pixelMatrixInverse cameraMatrix
         cameraToCenterDistance set_pixelMatrixInverse set_cameraMatrix width];
    repeat split.
Qed.

(** In flat mode with a viewport height: everything cleared. *)
Lemma calcMatrices_flat (m : Map) (h : R) :
  height m = Some h -> h <> 0 ->
  or_default (_pitch m) 0 = 0 -> or_default (_angle m) 0 = 0 ->
  exists m', _calcMatrices m = Normal m' /\
    projMatrix m' = None /\ pixelMatrix m' = None /\
    pixelMatrixInverse m' = None /\ cameraMatrix m' = None.
Proof.
  intros Hh Hh0 Hp Ha. unfold _calcMatrices.
  rewrite Hh, (falsy_Some_neq h Hh0).
  cbn [_pitch _angle _fov set_fov set_pitch set_angle].
  rewrite (flat_test_true _ _ Hp Ha).
  eexists. split; [reflexivity|]. cbn. repeat split.
Qed.

(** ** The round trip through the perspective matrices *)

Lemma unprojection_nondegenerate fov pitch angle w h c inv (p : Point) :
  0 < fov <= PI / 3 -> 0 <= pitch <= PI / 3 -> pitch + fov / 2 < PI / 2 ->
  0 < w -> 0 < h ->
  let pixel := calc_pixelMatrix w h (calc_projMatrix fov pitch angle w h c) in
  mat4.invert pixel = Some inv ->
  0 < py p < h ->
  let coord0 := mat4.transformMat4 (mat4.Vec4 (px p) (py p) 0 1) inv in
  let coord1 := mat4.transformMat4 (mat4.Vec4 (px p) (py p) 1 1) inv in
  let w0 := mat4.v3 coord0 in
  let w1 := mat4.v3 coord1 in
  let z0 := mat4.v2 coord0 / w0 in
  let z1 := mat4.v2 coord1 / w1 in
  let t := (0 - z0) / (z1 - z0) in
  let lam := (1 - t) / w0 + t / w1 in
  w0 <> 0 /\ w1 <> 0 /\ z0 <> z1 /\ lam <> 0.
Proof.
  intros Hf Hp Hb Hw Hh pixel Hinv Hy coord0 coord1 w0 w1 z0 z1 t lam.
  destruct (invert_Some _ _ Hinv) as (Hdet & Hmul & _).
  destruct (determinant_pixelMatrix_far _ _ _ _ _ _ Hdet) as [Hfar1 Hfar0].
  pose proof (farZ_pos fov pitch h Hf Hp Hb Hh) as Hfar.
  pose proof (tan_half_fov_pos fov Hf) as Ht.
  pose proof (cameraToCenterDistance_pos fov h Hf Hh) as Hd.
  pose proof (ground_slope_neg fov pitch (py p) h Hf Hp Hy) as Hk.
  assert (HC : 0 < cos pitch) by (pose proof PI_RGT_0; apply cos_gt_0; lra).
  assert (T0 : mat4.transformMat4 coord0 pixel = mat4.Vec4 (px p) (py p) 0 1).
  { unfold coord0. rewrite <- transformMat4_multiply, Hmul. apply transformMat4_create. }
  assert (T1 : mat4.transformMat4 coord1 pixel = mat4.Vec4 (px p) (py p) 1 1).
  { unfold coord1. rewrite <- transformMat4_multiply, Hmul. apply transformMat4_create. }
  assert (Hh0 : h <> 0) by lra.
  destruct (unproject_components _ _ _ _ _ _ _ _ _ _ T0 Ht Hh0 Hfar0 Hfar1) as [E0 F0].
  destruct (unproject_components _ _ _ _ _ _ _ _ _ _ T1 Ht Hh0 Hfar0 Hfar1) as [E1 F1].
  fold w0 in E0, F0. fold w1 in E1, F1.
  remember (calc_farZ fov pitch h) as far eqn:Efar. clear Efar.
  remember (calc_cameraToCenterDistance fov h) as d eqn:Ed. clear Ed.
  remember (sin pitch * ((1 - 2 * py p / h) * tan (fov / 2)) - cos pitch) as kap eqn:Ekap.
  assert (G0 : mat4.v2 coord0 = kap + d * cos pitch * w0) by (rewrite F0, Ekap; ring).
  assert (G1 : mat4.v2 coord1 = kap + d * cos pitch * w1) by (rewrite F1, Ekap; ring).
  assert (W0 : w0 = (far + 1) / (2 * far)) by (rewrite E0; field; lra).
  assert (W1 : w1 = 1 / far) by (rewrite E1; field; lra).
  assert (Hw0 : w0 <> 0).
  { rewrite W0. unfold Rdiv. apply Rmult_integral_contrapositive_currified; [lra|].
    apply Rinv_neq_0_compat. lra. }
  assert (Hw1 : w1 <> 0).
  { rewrite W1. unfold Rdiv. rewrite Rmult_1_l. apply Rinv_neq_0_compat. lra. }
  assert (Z0 : z0 = kap * (2 * far / (far + 1)) + d * cos pitch).
  { unfold z0. rewrite G0, W0. field. split; lra. }
  assert (Z1 : z1 = kap * far + d * cos pitch).
  { unfold z1. rewrite G1, W1. field. lra. }
  assert (Hdz : z1 - z0 = kap * (far * (far - 1) / (far + 1))).
  { rewrite Z0, Z1. field. lra. }
  assert (Hdz0 : z1 - z0 <> 0).
  { rewrite Hdz. apply Rmult_integral_contrapositive_currified; [lra|].
    unfold Rdiv. apply Rmult_integral_contrapositive_currified.
    - apply Rmult_integral_contrapositive_currified; lra.
    - apply Rinv_neq_0_compat. lra. }
  assert (Hlam : lam = - (d * cos pitch) / kap).
  { unfold lam, t. rewrite Hdz, Z0, W0, W1. field. repeat split; lra. }
  repeat split; try assumption.
  - lra.
  - rewrite Hlam. unfold Rdiv. apply Rmult_integral_contrapositive_currified.
    + assert (0 < d * cos pitch) by (apply Rmult_lt_0_compat; lra). lra.
    + apply Rinv_neq_0_compat. lra.
Qed.


(** ** When the inversion succeeds *)

Lemma DEFAULT_FOV_domain : 0 < DEFAULT_FOV <= PI / 3.
Proof. unfold DEFAULT_FOV. pose proof PI2_1. lra. Qed.

Lemma tan_half_fov_lt_1 fov : 0 < fov <= PI / 3 -> tan (fov / 2) < 1.
Proof.
  intros H. pose proof PI_RGT_0. rewrite <- tan_PI4.
  apply tan_increasing; lra.
Qed.

Lemma farZ_gt_1 fov pitch h :
  0 < fov <= PI / 3 -> 0 <= pitch <= PI / 3 -> pitch + fov / 2 < PI / 2 -> 2 <= h ->
  1 < calc_farZ fov pitch h.
Proof.
  intros Hf Hp Hb Hh.
  assert (Hh0 : 0 < h) by lra.
  pose proof (farZ_lower fov pitch h Hf Hp Hb Hh0) as Hl.
  pose proof (tan_half_fov_pos fov Hf) as Ht.
  pose proof (tan_half_fov_lt_1 fov Hf) as Ht1.
  assert (Hd : 1 < calc_cameraToCenterDistance fov h).
  { unfold calc_cameraToCenterDistance.
    assert (1 < / tan (fov / 2)).
    { rewrite <- Rinv_1 at 1. apply Rinv_0_lt_contravar; lra. }
    unfold Rdiv. nra. }
  lra.
Qed.

(** A camera in its domain that looks below the horizon, over a viewport
    at least two pixels high, always gets its four matrices. *)
Lemma calcMatrices_succeeds (m : Map) (h : R) :
  in_domain m h -> 2 <= h -> tilted m -> below_horizon m ->
  exists inv,
    mat4.invert (calc_pixelMatrix (width m) h
      (calc_projMatrix (or_default (_fov m) DEFAULT_FOV) (or_default (_pitch m) 0)
         (or_default (_angle m) 0) (width m) h (_prjCenterToPoint m None))) = Some inv /\
    _calcMatrices m = Normal (state_of (_calcMatrices m)) /\
    pixelMatrixInverse (state_of (_calcMatrices m)) = Some inv /\
    cameraMatrix (state_of (_calcMatrices m)) =
      Some (calc_cameraMatrix (width m) h
              (calc_camera (or_default (_fov m) DEFAULT_FOV) (or_default (_pitch m) 0)
                 (or_default (_angle m) 0) (width m) h)).
Proof.
  intros (Hh & Hh0 & Hw & Hf & Hp) H2 Ht Hb. unfold below_horizon in Hb.
  assert (Hhn : h <> 0) by lra.
  pose proof (calcMatrices_perspective m h Hh Hhn Ht) as H. cbv zeta in H.
  destruct H as (_ & _ & _ & H).
  pose proof (farZ_gt_1 _ _ h Hf Hp Hb H2) as Hfar.
  destruct (invert_total (calc_pixelMatrix (width m) h
      (calc_projMatrix (or_default (_fov m) DEFAULT_FOV) (or_default (_pitch m) 0)
         (or_default (_angle m) 0) (width m) h (_prjCenterToPoint m None)))) as [inv Hinv].
  { apply determinant_pixelMatrix_neq_0; try assumption. lra. }
  rewrite Hinv in H. exists inv. tauto.
Qed.

Lemma PI6_RADIAN : 30 * RADIAN = PI / 6.
Proof. unfold RADIAN. field. Qed.

Lemma or_default_pos x d : 0 < x -> or_default (Some x) d = x.
Proof. intros H. apply or_default_Some_neq. lra. Qed.

Lemma fresh_pitched_domain (p : R) :
  0 < p <= PI / 3 -> in_domain (set_pitch fresh_map (Some p)) 600 /\
                     tilted (set_pitch fresh_map (Some p)) /\
                     below_horizon (set_pitch fresh_map (Some p)).
Proof.
  intros Hp. unfold in_domain, tilted, below_horizon. map_fields.
  unfold fresh_map. map_fields.
  rewrite (or_default_pos p 0) by lra. cbn [or_default].
  pose proof DEFAULT_FOV_domain. pose proof PI2_1. unfold DEFAULT_FOV in *.
  repeat split; try lra.
Qed.


(** ** The setters, step by step *)

Lemma setPitch_genuine (B : Browser) (v : R) (m : Map) :
  ie9 B = false -> isZooming m = false ->
  strict_eq (_pitch m) (clamp v 0 60 * RADIAN) = false ->
  let c := _calcMatrices (set_pitch m (Some (clamp v 0 60 * RADIAN))) in
  after (setPitch B v m) = state_of c /\
  raised (completion (setPitch B v m)) = raised c /\
  effects (setPitch B v m) =
    match c with
    | Normal _ => [CalcMatrices; RenderLayers;
                   FireEvent "pitch" (getPitch m) (clamp v 0 60 * RADIAN)]
    | Raise _ _ => [CalcMatrices]
    end.
Proof.
  intros HB HZ HS c. unfold setPitch, after. rewrite HB, HZ, HS. fold c.
  destruct c; cbn; repeat split.
Qed.

Lemma setBearing_genuine (B : Browser) (v : R) (m : Map) :
  ie9 B = false -> isZooming m = false ->
  strict_eq (_angle m) (- wrap v (-180) 180 * RADIAN) = false ->
  let c := _calcMatrices (set_angle m (Some (- wrap v (-180) 180 * RADIAN))) in
  after (setBearing B v m) = state_of c /\
  raised (completion (setBearing B v m)) = raised c /\
  effects (setBearing B v m) =
    match c with
    | Normal _ => [CalcMatrices; RenderLayers;
                   FireEvent "rotate" (getBearing m) (- wrap v (-180) 180 * RADIAN)]
    | Raise _ _ => [CalcMatrices]
    end.
Proof.
  intros HB HZ HS c. unfold setBearing, after. rewrite HB, HZ, HS. fold c.
  destruct c; cbn; repeat split.
Qed.

Lemma setFov_genuine (v : R) (m : Map) :
  isZooming m = false ->
  strict_eq (_fov m) (Rmax 0.01 (Rmin 60 v)) = false ->
  let c := _calcMatrices (set_fov (snd (getFov m)) (Some (Rmax 0.01 (Rmin 60 v) * RADIAN))) in
  after (setFov v m) =
    match c with
    | Normal m' => snd (getFov m')
    | Raise _ m' => m'
    end /\
  raised (completion (setFov v m)) = raised c /\
  effects (setFov v m) =
    match c with
    | Normal m' => [CalcMatrices; RenderLayers;
                    FireEvent "fovchange" (fst (getFov m)) (fst (getFov m'))]
    | Raise _ _ => [CalcMatrices]
    end.
Proof.
  intros HZ HS c. unfold setFov, after. rewrite HZ, HS.
  destruct (getFov m) as [from m1] eqn:G. cbn [snd fst] in *. fold c.
  destruct c as [m2|msg m2].
  - destruct (getFov m2) as [to m3] eqn:G2. cbn. repeat split.
  - cbn. repeat split.
Qed.

Lemma fov_clamp_RADIAN_neq_0 v : Rmax 0.01 (Rmin 60 v) * RADIAN <> 0.
Proof.
  pose proof (fov_clamp_range v). pose proof RADIAN_pos.
  apply Rmult_integral_contrapositive_currified; lra.
Qed.

Lemma getFov_set (m : Map) (x : R) :
  x <> 0 -> _fov m = Some x -> getFov m = (x / RADIAN, m).
Proof.
  intros Hx E. unfold getFov. rewrite E. cbn [falsy].
  rewrite (Req_b_neq _ _ Hx). rewrite E. cbn [or_default].
  rewrite (Req_b_neq _ _ Hx). reflexivity.
Qed.

(** The internal field of view a genuine [setFov] leaves. *)
Lemma fov_after_setFov (v : R) (m : Map) :
  isZooming m = false ->
  strict_eq (_fov m) (Rmax 0.01 (Rmin 60 v)) = false ->
  _fov (after (setFov v m)) = Some (Rmax 0.01 (Rmin 60 v) * RADIAN).
Proof.
  intros HZ HS. destruct (setFov_genuine v m HZ HS) as (E & _ & _).
  cbv zeta in E. rewrite E. clear E.
  set (x := Rmax 0.01 (Rmin 60 v) * RADIAN).
  pose proof (fov_clamp_RADIAN_neq_0 v) as Hx. fold x in Hx.
  set (m0 := set_fov (snd (getFov m)) (Some x)).
  assert (F : _fov (state_of (_calcMatrices m0)) = Some x).
  { destruct (calcMatrices_fields m0) as [[_ E]|(_ & E & _)].
    - rewrite E. reflexivity.
    - rewrite E. unfold m0. map_fields. rewrite (or_default_Some_neq _ _ Hx). reflexivity. }
  destruct (_calcMatrices m0) as [m2|msg m2]; cbn [state_of] in F.
  - rewrite (getFov_set m2 x Hx F). exact F.
  - exact F.
Qed.

Lemma getFov_after_setFov (v : R) (m : Map) :
  isZooming m = false ->
  strict_eq (_fov m) (Rmax 0.01 (Rmin 60 v)) = false ->
  fst (getFov (after (setFov v m))) = Rmax 0.01 (Rmin 60 v).
Proof.
  intros HZ HS. pose proof (fov_after_setFov v m HZ HS) as F.
  rewrite (getFov_set _ _ (fov_clamp_RADIAN_neq_0 v) F). cbn [fst].
  field. apply RADIAN_neq_0.
Qed.

(** [setFov] compares the stored radians with the clamped argument, and a
    number in [0.01, 60] is never its own multiple by [RADIAN]. *)
Lemma setFov_never_settles (v : R) (m : Map) :
  isZooming m = false ->
  strict_eq (_fov m) (Rmax 0.01 (Rmin 60 v)) = false ->
  strict_eq (_fov (after (setFov v m))) (Rmax 0.01 (Rmin 60 v)) = false.
Proof.
  intros HZ HS. rewrite (fov_after_setFov v m HZ HS). cbn [strict_eq].
  apply Req_b_neq. pose proof (fov_clamp_range v). pose proof RADIAN_lt_1.
  pose proof RADIAN_pos. nra.
Qed.

Lemma after_frame_setFov (v : R) (m : Map) :
  isZooming (after (setFov v m)) = isZooming m.
Proof.
  unfold setFov, after. destruct (isZooming m) eqn:Z; [exact Z|].
  destruct (strict_eq _ _); [exact Z|].
  unfold getFov at 1. 
  set (m1 := set_fov _ _).
  pose proof (calcMatrices_frame m1) as (_ & _ & F & _).
  destruct (_calcMatrices m1) as [m2|msg m2]; cbn [state_of] in F.
  - unfold getFov. destruct (falsy (_fov m2)); cbn; rewrite F; unfold m1; map_fields;
      destruct (falsy (_fov m)); exact Z.
  - cbn. rewrite F. unfold m1. map_fields. destruct (falsy (_fov m)); exact Z.
Qed.

(** ** The camera of the fresh map *)

Lemma calcMatrices_fresh_flat (m : Map) :
  height m = Some 600 -> or_default (_pitch m) 0 = 0 -> or_default (_angle m) 0 = 0 ->
  _calcMatrices m = Normal (state_of (_calcMatrices m)).
Proof.
  intros Hh Hp Ha.
  destruct (calcMatrices_flat m 600 Hh ltac:(lra) Hp Ha) as (m' & E & _).
  rewrite E. reflexivity.
Qed.

Lemma fov_clamp_30 : Rmax 0.01 (Rmin 60 30) = 30.
Proof. unfold Rmin, Rmax. destruct (Rle_dec 60 30); destruct (Rle_dec 0.01 _); lra. Qed.

Lemma fov_clamp_0 : Rmax 0.01 (Rmin 60 0) = 0.01.
Proof. unfold Rmin, Rmax. destruct (Rle_dec 60 0); destruct (Rle_dec 0.01 _); lra. Qed.

Lemma fov_clamp_inside v : 0.01 <= v <= 60 -> Rmax 0.01 (Rmin 60 v) = v.
Proof.
  intros H. unfold Rmin, Rmax. destruct (Rle_dec 60 v); destruct (Rle_dec 0.01 _); lra.
Qed.

(** C4. [setPitch(90)] and [setBearing(270)] leave 60 and -90 to their
    getters, but [setFov(0)] does not always leave 0.01: on the map whose
    field of view was set by [setFov(1.8 / PI)], stored as 0.01 radians, the
    call compares the stored radians with the clamped argument 0.01, finds
    them equal and returns without a change, and [getFov()] still gives
    [1.8 / PI]. *)
Theorem setFov_0_keeps_a_coinciding_fov :
  let m := after (setFov (1.8 / PI) fresh_map) in
  getPitch (after (setPitch modern 90 m)) = 60 /\
  getBearing (after (setBearing modern 270 m)) = -90 /\
  setFov 0 m = unchanged m /\
  fst (getFov (after (setFov 0 m))) = 1.8 / PI /\
  1.8 / PI <> 0.01.
Proof.
  pose proof PI_RGT_0 as Hpi. pose proof PI_4 as Hpi4. pose proof PI2_1 as Hpi2.
  assert (Hq : 0.01 <= 1.8 / PI <= 60).
  { split.
    - apply Rmult_le_reg_r with PI; [lra|].
      replace (1.8 / PI * PI) with 1.8 by (field; lra). lra.
    - apply Rmult_le_reg_r with PI; [lra|].
      replace (1.8 / PI * PI) with 1.8 by (field; lra). lra. }
  assert (HZ : isZooming fresh_map = false) by reflexivity.
  assert (HS : strict_eq (_fov fresh_map) (Rmax 0.01 (Rmin 60 (1.8 / PI))) = false)
    by reflexivity.
  pose proof (fov_after_setFov _ _ HZ HS) as F.
  pose proof (getFov_after_setFov _ _ HZ HS) as G.
  pose proof (after_frame_setFov (1.8 / PI) fresh_map) as Z.
  rewrite (fov_clamp_inside _ Hq) in F, G.
  cbv zeta. set (m := after (setFov (1.8 / PI) fresh_map)) in *.
  assert (U : setFov 0 m = unchanged m).
  { unfold setFov. rewrite Z, HZ, fov_clamp_0, F. cbn [strict_eq].
    replace (Req_b (1.8 / PI * RADIAN) 0.01) with true; [reflexivity|].
    symmetry. apply (proj2 (Req_b_true _ _)). unfold RADIAN.
    replace (1.8 / PI * (PI / 180)) with (1.8 / 180) by (field; lra). lra. }
  split; [|split; [|split; [|split]]].
  - rewrite getPitch_after_setPitch; [|reflexivity|rewrite Z; exact HZ].
    apply clamp_above; lra.
  - rewrite getBearing_after_setBearing; [|reflexivity|rewrite Z; exact HZ].
    apply wrap_270.
  - exact U.
  - rewrite U. exact G.
  - intros E. apply (f_equal (fun x => x * PI)) in E.
    replace (1.8 / PI * PI) with 1.8 in E by (field; lra). lra.
Qed.


(** ** What the setters leave alone *)

Lemma calcMatrices_camera (m : Map) :
  let m' := state_of (_calcMatrices m) in
  or_default (_fov m') DEFAULT_FOV = or_default (_fov m) DEFAULT_FOV /\
  or_default (_pitch m') 0 = or_default (_pitch m) 0 /\
  or_default (_angle m') 0 = or_default (_angle m) 0.
Proof.
  cbv zeta. destruct (calcMatrices_fields m) as [[_ E]|(_ & E1 & E2 & E3)].
  - rewrite E. repeat split.
  - rewrite E1, E2, E3, !or_default_idem; repeat split; try (right; reflexivity).
    left. unfold DEFAULT_FOV. lra.
Qed.

Lemma same_view_refl m : same_view m m.
Proof. unfold same_view. repeat split. Qed.

Lemma same_view_trans m1 m2 m3 : same_view m1 m2 -> same_view m2 m3 -> same_view m1 m3.
Proof.
  unfold same_view. intros (A1 & A2 & A3 & A4 & A5 & A6 & A7 & A8)
    (B1 & B2 & B3 & B4 & B5 & B6 & B7 & B8).
  repeat split; congruence.
Qed.

Lemma same_view_calcMatrices m : same_view m (state_of (_calcMatrices m)).
Proof. exact (calcMatrices_frame m). Qed.

Lemma same_view_getFov m : same_view m (snd (getFov m)).
Proof.
  unfold getFov. destruct (falsy (_fov m)); cbn [snd]; [|apply same_view_refl].
  unfold same_view. map_fields. repeat split.
Qed.

Lemma getFov_camera m :
  or_default (_fov (snd (getFov m))) DEFAULT_FOV = or_default (_fov m) DEFAULT_FOV /\
  _pitch (snd (getFov m)) = _pitch m /\ _angle (snd (getFov m)) = _angle m.
Proof.
  unfold getFov. destruct (falsy (_fov m)) eqn:F; cbn [snd]; [|repeat split].
  map_fields. repeat split. unfold falsy in F. unfold or_default.
  rewrite Req_b_neq by (unfold DEFAULT_FOV; lra).
  destruct (_fov m); [rewrite F|]; reflexivity.
Qed.

Lemma setFov_frame (v : R) (m : Map) :
  let m' := after (setFov v m) in
  same_view m m' /\
  or_default (_pitch m') 0 = or_default (_pitch m) 0 /\
  or_default (_angle m') 0 = or_default (_angle m) 0.
Proof.
  cbv zeta. unfold setFov, after.
  destruct (isZooming m); [split; [apply same_view_refl | split; reflexivity]|].
  destruct (strict_eq _ _); [split; [apply same_view_refl | split; reflexivity]|].
  destruct (getFov m) as [from m1] eqn:G.
  assert (E1 : m1 = snd (getFov m)) by (rewrite G; reflexivity).
  set (m2 := set_fov m1 _).
  pose proof (same_view_calcMatrices m2) as V.
  pose proof (calcMatrices_camera m2) as (_ & P & A).
  assert (V2 : same_view m m2).
  { apply same_view_trans with m1; [rewrite E1; apply same_view_getFov|].
    unfold same_view, m2. map_fields. repeat split. }
  destruct (getFov_camera m) as (_ & P1 & A1). rewrite <- E1 in P1, A1.
  assert (P2 : _pitch m2 = _pitch m) by (unfold m2; map_fields; exact P1).
  assert (A2 : _angle m2 = _angle m) by (unfold m2; map_fields; exact A1).
  rewrite P2 in P. rewrite A2 in A.
  destruct (_calcMatrices m2) as [m3|msg m3]; cbn [state_of] in *.
  - destruct (getFov m3) as [to m4] eqn:G3.
    assert (E4 : m4 = snd (getFov m3)) by (rewrite G3; reflexivity).
    cbn [completion state_of].
    destruct (getFov_camera m3) as (_ & P3 & A3). rewrite <- E4 in P3, A3.
    rewrite P3, A3. split; [|split; assumption].
    apply same_view_trans with m3; [apply same_view_trans with m2; assumption|].
    rewrite E4. apply same_view_getFov.
  - cbn [completion state_of]. split; [|split; assumption].
    apply same_view_trans with m2; assumption.
Qed.

Lemma setPitch_frame (B : Browser) (v : R) (m : Map) :
  let m' := after (setPitch B v m) in
  same_view m m' /\
  or_default (_fov m') DEFAULT_FOV = or_default (_fov m) DEFAULT_FOV /\
  or_default (_angle m') 0 = or_default (_angle m) 0.
Proof.
  cbv zeta. unfold setPitch, after.
  destruct (ie9 B); [split; [apply same_view_refl | split; reflexivity]|].
  destruct (isZooming m); [split; [apply same_view_refl | split; reflexivity]|].
  destruct (strict_eq _ _); [split; [apply same_view_refl | split; reflexivity]|].
  set (m2 := set_pitch m _).
  pose proof (same_view_calcMatrices m2) as V.
  pose proof (calcMatrices_camera m2) as (F & _ & A).
  assert (E : after (mkOutcome (_calcMatrices m2) []) = state_of (_calcMatrices m2))
    by reflexivity.
  destruct (_calcMatrices m2) as [m3|msg m3]; cbn [completion state_of] in *;
    (split; [exact V | split; assumption]).
Qed.

Lemma setBearing_frame (B : Browser) (v : R) (m : Map) :
  let m' := after (setBearing B v m) in
  same_view m m' /\
  or_default (_fov m') DEFAULT_FOV = or_default (_fov m) DEFAULT_FOV /\
  or_default (_pitch m') 0 = or_default (_pitch m) 0.
Proof.
  cbv zeta. unfold setBearing, after.
  destruct (ie9 B); [split; [apply same_view_refl | split; reflexivity]|].
  destruct (isZooming m); [split; [apply same_view_refl | split; reflexivity]|].
  destruct (strict_eq _ _); [split; [apply same_view_refl | split; reflexivity]|].
  set (m2 := set_angle m _).
  pose proof (same_view_calcMatrices m2) as V.
  pose proof (calcMatrices_camera m2) as (F & P & _).
  destruct (_calcMatrices m2) as [m3|msg m3]; cbn [completion state_of] in *;
    (split; [exact V | split; assumption]).
Qed.

(** A genuine [setFov] on a flat map with a viewport: its three effects. *)
Lemma setFov_effects_flat (v h : R) (m : Map) :
  isZooming m = false ->
  strict_eq (_fov m) (Rmax 0.01 (Rmin 60 v)) = false ->
  height m = Some h -> h <> 0 ->
  or_default (_pitch m) 0 = 0 -> or_default (_angle m) 0 = 0 ->
  effects (setFov v m) =
    [CalcMatrices; RenderLayers;
     FireEvent "fovchange" (fst (getFov m)) (Rmax 0.01 (Rmin 60 v))].
Proof.
  intros HZ HS Hh Hh0 Hp Ha.
  destruct (setFov_genuine v m HZ HS) as (_ & _ & E). cbv zeta in E. rewrite E. clear E.
  set (x := Rmax 0.01 (Rmin 60 v) * RADIAN).
  pose proof (fov_clamp_RADIAN_neq_0 v) as Hx. fold x in Hx.
  set (m0 := set_fov (snd (getFov m)) (Some x)).
  destruct (getFov_camera m) as (_ & P1 & A1).
  destruct (same_view_getFov m) as (_ & Hh1 & _).
  assert (T : fst (getFov (state_of (_calcMatrices m0))) = Rmax 0.01 (Rmin 60 v)).
  { rewrite getFov_calcMatrices, getFov_value. unfold m0. map_fields.
    rewrite (or_default_Some_neq _ _ Hx). unfold x. field. apply RADIAN_neq_0. }
  destruct (calcMatrices_flat m0 h) as (m' & C & _);
    try (unfold m0; map_fields; congruence).
  rewrite C in *. cbn [state_of] in T. rewrite T. reflexivity.
Qed.

(** C5. On the fresh map [setFov(30)] called twice recomputes, renders and
    notifies twice: the second call compares the stored [30 * RADIAN] with
    30 and goes through again, with an event from 30 to 30. *)
Theorem setFov_twice_recomputes :
  let m := after (setFov 30 fresh_map) in
  effects (setFov 30 fresh_map) =
    [CalcMatrices; RenderLayers; FireEvent "fovchange" (DEFAULT_FOV / RADIAN) 30] /\
  effects (setFov 30 m) =
    [CalcMatrices; RenderLayers; FireEvent "fovchange" 30 30].
Proof.
  assert (HZ : isZooming fresh_map = false) by reflexivity.
  assert (HS : strict_eq (_fov fresh_map) (Rmax 0.01 (Rmin 60 30)) = false) by reflexivity.
  pose proof (setFov_never_settles _ _ HZ HS) as HS2.
  pose proof (getFov_after_setFov _ _ HZ HS) as G.
  pose proof (setFov_frame 30 fresh_map) as ((_ & Hh & Z & _) & P & A).
  cbv zeta. set (m := after (setFov 30 fresh_map)) in *.
  assert (H600 : 600 <> 0) by lra.
  split.
  - rewrite (setFov_effects_flat 30 600 fresh_map HZ HS eq_refl H600 eq_refl eq_refl).
    rewrite getFov_value, fov_clamp_30. reflexivity.
  - rewrite (setFov_effects_flat 30 600 m); try assumption.
    rewrite G, fov_clamp_30. reflexivity.
Qed.

Lemma wrap_90 : wrap 90 (-180) 180 = 90.
Proof. apply wrap_inside. lra. Qed.

Lemma wrap_0 : wrap 0 (-180) 180 = 0.
Proof. apply wrap_inside. lra. Qed.

Lemma clamp_30 : clamp 30 0 60 = 30.
Proof. apply clamp_inside. lra. Qed.

Lemma fresh_turned_domain (a : R) :
  a <> 0 -> in_domain (set_angle fresh_map (Some a)) 600 /\
            tilted (set_angle fresh_map (Some a)) /\
            below_horizon (set_angle fresh_map (Some a)).
Proof.
  intros Ha. unfold in_domain, tilted, below_horizon. map_fields.
  unfold fresh_map. map_fields.
  rewrite (or_default_Some_neq a 0 Ha). cbn [or_default].
  pose proof DEFAULT_FOV_domain. pose proof PI_RGT_0. pose proof PI2_1.
  unfold DEFAULT_FOV in *. repeat split; try lra.
Qed.

(** C6. On the fresh map [setBearing(90)] fires its event with [to] the
    internal angle, [-90 * RADIAN], while [getBearing()] then gives 90; and
    [setPitch(30)] fires with [to] the internal [30 * RADIAN] while
    [getPitch()] gives 30.  [from] is in degrees both times. *)
Theorem setter_events_carry_radians :
  effects (setBearing modern 90 fresh_map) =
    [CalcMatrices; RenderLayers; FireEvent "rotate" 0 (- (90) * RADIAN)] /\
  getBearing (after (setBearing modern 90 fresh_map)) = 90 /\
  - (90) * RADIAN <> 90 /\
  effects (setPitch modern 30 fresh_map) =
    [CalcMatrices; RenderLayers; FireEvent "pitch" 0 (30 * RADIAN)] /\
  getPitch (after (setPitch modern 30 fresh_map)) = 30 /\
  30 * RADIAN <> 30.
Proof.
  pose proof RADIAN_pos as R0. pose proof RADIAN_lt_1 as R1.
  assert (H2 : 2 <= 600) by lra.
  split; [|split; [|split; [|split; [|split]]]].
  - destruct (setBearing_genuine modern 90 fresh_map eq_refl eq_refl eq_refl) as (_ & _ & E).
    cbv zeta in E. rewrite E. clear E. rewrite wrap_90.
    assert (Ha : - (90) * RADIAN <> 0) by lra.
    destruct (fresh_turned_domain _ Ha) as (D & T & BH).
    destruct (calcMatrices_succeeds _ 600 D H2 T BH) as (inv & _ & HN & _).
    rewrite HN. reflexivity.
  - rewrite getBearing_after_setBearing by reflexivity. apply wrap_90.
  - lra.
  - destruct (setPitch_genuine modern 30 fresh_map eq_refl eq_refl eq_refl) as (_ & _ & E).
    cbv zeta in E. rewrite E. clear E. rewrite clamp_30.
    assert (Hp : 0 < 30 * RADIAN <= PI / 3).
    { rewrite PI6_RADIAN. pose proof PI_RGT_0. lra. }
    destruct (fresh_pitched_domain _ Hp) as (D & T & BH).
    destruct (calcMatrices_succeeds _ 600 D H2 T BH) as (inv & _ & HN & _).
    rewrite HN. reflexivity.
  - rewrite getPitch_after_setPitch by reflexivity. apply clamp_30.
  - lra.
Qed.

(** C9. On a backend with [Browser.ie9] set, [setBearing] and [setPitch]
    raise their capability error whatever the map, a zooming one included,
    and leave it untouched; [setFov], which reads no capability, raises
    nothing but a failed inversion, and on a zooming map returns at once. *)
Theorem ie9_capability_check (B : Browser) (v : R) (m : Map) :
  ie9 B = true ->
  setBearing B v m = mkOutcome (Raise "map can't rotate in IE9." m) [] /\
  setPitch B v m = mkOutcome (Raise "map can't tilt in IE9." m) [] /\
  (raised (completion (setFov v m)) = None \/
   raised (completion (setFov v m)) = Some "failed to invert matrix"%string) /\
  (isZooming m = true -> setFov v m = unchanged m).
Proof.
  intros HB. unfold setBearing, setPitch. rewrite HB.
  split; [reflexivity|]. split; [reflexivity|]. split.
  - unfold setFov. destruct (isZooming m); [left; reflexivity|].
    destruct (strict_eq _ _); [left; reflexivity|].
    destruct (getFov m) as [from m1].
    set (m2 := set_fov m1 _).
    assert (H : raised (_calcMatrices m2) = None \/
                raised (_calcMatrices m2) = Some "failed to invert matrix"%string).
    { unfold _calcMatrices. destruct (falsy (height m2)); [left; reflexivity|].
      destruct (_ && _); [left; reflexivity|].
      destruct (mat4.invert _); [left | right]; reflexivity. }
    destruct (_calcMatrices m2) as [m3|msg m3].
    + destruct (getFov m3). left. reflexivity.
    + exact H.
  - intros HZ. unfold setFov. rewrite HZ. reflexivity.
Qed.

Lemma ie9_capability_check_witness :
  setBearing legacy 45 (set_isZooming fresh_map true) =
    mkOutcome (Raise "map can't rotate in IE9." (set_isZooming fresh_map true)) [] /\
  setPitch legacy 45 (set_isZooming fresh_map true) =
    mkOutcome (Raise "map can't tilt in IE9." (set_isZooming fresh_map true)) [] /\
  (raised (completion (setFov 45 (set_isZooming fresh_map true))) = None \/
   raised (completion (setFov 45 (set_isZooming fresh_map true))) =
     Some "failed to invert matrix"%string) /\
  (isZooming (set_isZooming fresh_map true) = true ->
   setFov 45 (set_isZooming fresh_map true) = unchanged (set_isZooming fresh_map true)).
Proof. apply (ie9_capability_check legacy 45 (set_isZooming fresh_map true)). reflexivity. Defined.

(** C10. With the viewport height unset or zero [_calcMatrices] returns
    the map as it was, every field of it, so the four matrices stay what
    they were and both projectors compute what they computed before. *)
Theorem calcMatrices_without_height (m : Map) :
  height m = None \/ height m = Some 0 ->
  _calcMatrices m = Normal m /\
  none_updated m (state_of (_calcMatrices m)) /\
  (forall p zoom, _pointToContainerPoint (state_of (_calcMatrices m)) p zoom =
                  _pointToContainerPoint m p zoom) /\
  (forall p zoom, _containerPointToPoint (state_of (_calcMatrices m)) p zoom =
                  _containerPointToPoint m p zoom).
Proof.
  intros H.
  assert (E : _calcMatrices m = Normal m).
  { unfold _calcMatrices. destruct H as [-> | ->]; cbn [falsy]; [reflexivity|].
    rewrite Req_b_refl. reflexivity. }
  rewrite E. cbn [state_of]. unfold none_updated. repeat split.
Qed.

Lemma calcMatrices_without_height_witness :
  _calcMatrices collapsed_map = Normal collapsed_map /\
  none_updated collapsed_map (state_of (_calcMatrices collapsed_map)) /\
  (forall p zoom, _pointToContainerPoint (state_of (_calcMatrices collapsed_map)) p zoom =
                  _pointToContainerPoint collapsed_map p zoom) /\
  (forall p zoom, _containerPointToPoint (state_of (_calcMatrices collapsed_map)) p zoom =
                  _containerPointToPoint collapsed_map p zoom).
Proof. apply (calcMatrices_without_height collapsed_map). right. reflexivity. Defined.

(** C8. [_getRotationAt(i)] without a rotations array returns the base
    rotation as it is; with one, it returns the base rotation (0 when it
    is not set) plus [computeDegree] of the i-th pair of reference points,
    and when the map has a camera matrix both points are first taken
    through [_pointToContainerPoint] at the maximum zoom. *)
Theorem getRotationAt_spec (computeDegree : Point -> Point -> R)
    (s : PointSymbolizer) (i : nat) :
  (rotations s = None -> _getRotationAt computeDegree s i = Returned (getRotation s)) /\
  (forall rs p0 p1, rotations s = Some rs -> nth_error rs i = Some (p0, p1) ->
     (getCameraMatrix (getMap s) <> None ->
      _getRotationAt computeDegree s i =
        Returned (Some (or_default (getRotation s) 0 +
          computeDegree
            (_pointToContainerPoint (getMap s) p0 (Some (getMaxZoom (getMap s))))
            (_pointToContainerPoint (getMap s) p1 (Some (getMaxZoom (getMap s))))))) /\
     (getCameraMatrix (getMap s) = None ->
      _getRotationAt computeDegree s i =
        Returned (Some (or_default (getRotation s) 0 + computeDegree p0 p1)))).
Proof.
  unfold _getRotationAt. split.
  - intros ->. reflexivity.
  - intros rs p0 p1 -> ->. split.
    + destruct (getCameraMatrix (getMap s)); [reflexivity | congruence].
    + intros ->. reflexivity.
Qed.

(** ** The matrices of a camera survive [_calcMatrices] *)

Lemma height_num_Some m h : height m = Some h -> height_num m = h.
Proof. unfold height_num. intros ->. reflexivity. Qed.

Lemma camera_of_calcMatrices (m : Map) :
  let m' := state_of (_calcMatrices m) in
  proj_of m' = proj_of m /\ pixel_of m' = pixel_of m /\ camera_of m' = camera_of m.
Proof.
  cbv zeta. destruct (calcMatrices_camera m) as (F & P & A).
  destruct (calcMatrices_frame m) as (W & H & _ & _ & _ & C & _).
  unfold pixel_of, camera_of, proj_of, height_num. rewrite F, P, A, W, H, C.
  repeat split.
Qed.

Lemma height_cases (m : Map) :
  falsy (height m) = true \/ exists h, height m = Some h /\ h <> 0.
Proof.
  destruct (height m) as [h|] eqn:E; [|left; reflexivity]. cbn [falsy].
  destruct (Req_b h 0) eqn:Z; [left; reflexivity|].
  right. exists h. split; [reflexivity|]. apply Req_b_false. exact Z.
Qed.

Lemma flat_or_tilted (m : Map) :
  (or_default (_pitch m) 0 = 0 /\ or_default (_angle m) 0 = 0) \/ tilted m.
Proof.
  unfold tilted.
  destruct (Req_dec_T (or_default (_pitch m) 0) 0);
    destruct (Req_dec_T (or_default (_angle m) 0) 0); tauto.
Qed.

(** C2, amended. [_calcMatrices] returns with all four matrices those of
    the camera, or all four cleared, or all four untouched; when the
    inversion fails it raises with [projMatrix] and [pixelMatrix] already
    those of the new camera and [pixelMatrixInverse] and [cameraMatrix]
    still what they were. *)
Theorem calcMatrices_all_or_error (m : Map) :
  match _calcMatrices m with
  | Normal m' => atomic m m'
  | Raise msg m' =>
      msg = "failed to invert matrix"%string /\
      projMatrix m' = Some (proj_of m') /\
      pixelMatrix m' = Some (pixel_of m') /\
      mat4.invert (pixel_of m') = None /\
      pixelMatrixInverse m' = pixelMatrixInverse m /\
      cameraMatrix m' = cameraMatrix m
  end.
Proof.
  destruct (height_cases m) as [Hf | (h & Hh & Hh0)].
  - unfold _calcMatrices. rewrite Hf. right. right. unfold none_updated. repeat split.
  - destruct (flat_or_tilted m) as [[Hp Ha] | Ht].
    + destruct (calcMatrices_flat m h Hh Hh0 Hp Ha) as (m' & E & C).
      rewrite E. right. left. exact C.
    + pose proof (calcMatrices_perspective m h Hh Hh0 Ht) as H. cbv zeta in H.
      destruct (camera_of_calcMatrices m) as (E1 & E2 & E3).
      pose proof (height_num_Some m h Hh) as Hn.
      assert (Q1 : proj_of m = calc_projMatrix (or_default (_fov m) DEFAULT_FOV)
                (or_default (_pitch m) 0) (or_default (_angle m) 0) (width m) h
                (_prjCenterToPoint m None)) by (unfold proj_of; rewrite Hn; reflexivity).
      assert (Q2 : pixel_of m = calc_pixelMatrix (width m) h (proj_of m))
        by (unfold pixel_of; rewrite Hn; reflexivity).
      assert (Q3 : camera_of m = calc_cameraMatrix (width m) h
                (calc_camera (or_default (_fov m) DEFAULT_FOV)
                (or_default (_pitch m) 0) (or_default (_angle m) 0) (width m) h))
        by (unfold camera_of; rewrite Hn; reflexivity).
      rewrite <- Q1, <- Q2, <- Q3 in H.
      destruct H as (P1 & P2 & _ & H).
      destruct (mat4.invert (pixel_of m)) as [inv|] eqn:I.
      * destruct H as (C & P3 & P4). rewrite C. left.
        unfold all_updated. rewrite E1, E2, E3, I. repeat split; try assumption.
        discriminate.
      * destruct H as (C & P3 & P4). rewrite C. rewrite C in *. cbn [state_of] in *.
        rewrite E1, E2, I. repeat split; assumption.
Qed.

(** Without a width the pixel matrix has no inverse. *)
Lemma narrow_pixel_singular fov pitch angle h c :
  mat4.invert (calc_pixelMatrix 0 h (calc_projMatrix fov pitch angle 0 h c)) = None.
Proof. apply invert_None. rewrite determinant_pixelMatrix. unfold Rdiv. ring. Qed.

(** C2, as stated, fails: [setPitch(30)] on the map without a width raises
    the inversion error and leaves [projMatrix] and [pixelMatrix] written
    beside a [pixelMatrixInverse] and a [cameraMatrix] that were not. *)
Lemma calcMatrices_not_atomic :
  raised (completion (setPitch modern 30 narrow_map)) =
    Some "failed to invert matrix"%string /\
  ~ atomic narrow_map (after (setPitch modern 30 narrow_map)).
Proof.
  destruct (setPitch_genuine modern 30 narrow_map eq_refl eq_refl eq_refl) as (Ea & Er & _).
  cbv zeta in Ea, Er. rewrite Ea, Er. clear Ea Er. rewrite clamp_30.
  set (m := set_pitch narrow_map (Some (30 * RADIAN))).
  assert (Hp : 30 * RADIAN <> 0) by (pose proof RADIAN_pos; lra).
  assert (Ht : tilted m).
  { unfold tilted, m. map_fields. rewrite (or_default_Some_neq _ _ Hp). tauto. }
  assert (H600 : 600 <> 0) by lra.
  pose proof (calcMatrices_perspective m 600 eq_refl H600 Ht) as H. cbv zeta in H.
  replace (width m) with 0 in H by reflexivity.
  rewrite narrow_pixel_singular in H. destruct H as (P1 & P2 & _ & C & P3 & P4).
  split; [rewrite C; reflexivity|].
  intros [U | [Cl | N]].
  - destruct U as (_ & _ & U3 & U4 & _). rewrite <- U3, P3 in U4. apply U4. reflexivity.
  - destruct Cl as (Cl & _). rewrite P1 in Cl. discriminate.
  - destruct N as (N & _). rewrite P1 in N. discriminate.
Qed.

(** ** The tilted map of the examples *)

Lemma tilted_map_eq :
  tilted_map = state_of (_calcMatrices (set_pitch fresh_map (Some (30 * RADIAN)))).
Proof.
  unfold tilted_map.
  destruct (setPitch_genuine modern 30 fresh_map eq_refl eq_refl eq_refl) as (Ea & _).
  cbv zeta in Ea. rewrite Ea, clamp_30. reflexivity.
Qed.

Lemma pitch_30_domain : 0 < 30 * RADIAN <= PI / 3.
Proof. rewrite PI6_RADIAN. pose proof PI_RGT_0. lra. Qed.

Lemma tilted_map_matrices :
  pixelMatrix tilted_map =
    Some (calc_pixelMatrix 800 600
            (calc_projMatrix DEFAULT_FOV (30 * RADIAN) 0 800 600 origin)) /\
  cameraMatrix tilted_map =
    Some (calc_cameraMatrix 800 600 (calc_camera DEFAULT_FOV (30 * RADIAN) 0 800 600)) /\
  isZooming tilted_map = false /\
  _pitch tilted_map = Some (30 * RADIAN) /\
  _angle tilted_map = Some 0.
Proof.
  rewrite tilted_map_eq.
  destruct (fresh_pitched_domain _ pitch_30_domain) as (D & T & BH).
  assert (H2 : 2 <= 600) by lra.
  destruct (calcMatrices_succeeds _ 600 D H2 T BH) as (inv & _ & _ & _ & HC).
  assert (H600 : 600 <> 0) by lra.
  pose proof (calcMatrices_perspective (set_pitch fresh_map (Some (30 * RADIAN))) 600
                eq_refl H600 T) as H. cbv zeta in H.
  destruct H as (_ & HP & _).
  assert (Hp : 30 * RADIAN <> 0) by (pose proof pitch_30_domain; lra).
  assert (E1 : or_default (_pitch (set_pitch fresh_map (Some (30 * RADIAN)))) 0 = 30 * RADIAN).
  { map_fields. apply or_default_Some_neq. exact Hp. }
  rewrite E1 in HP, HC.
  split; [exact HP|]. split; [exact HC|].
  destruct (calcMatrices_frame (set_pitch fresh_map (Some (30 * RADIAN))))
    as (_ & _ & Z & _).
  split; [rewrite Z; reflexivity|].
  destruct (calcMatrices_fields (set_pitch fresh_map (Some (30 * RADIAN))))
    as [[Hc _]|(_ & _ & F2 & F3)].
  { cbn in Hc. rewrite (Req_b_neq _ _ H600) in Hc. discriminate Hc. }
  rewrite F2, F3, E1. split; reflexivity.
Qed.

(** ** Setters on a map without a viewport height *)

Lemma setPitch_without_height (B : Browser) (v : R) (m : Map) :
  falsy (height m) = true -> none_updated m (after (setPitch B v m)).
Proof.
  intros H. unfold setPitch, after, none_updated.
  destruct (ie9 B); [repeat split|].
  destruct (isZooming m); [repeat split|].
  destruct (strict_eq _ _); [repeat split|].
  unfold _calcMatrices. map_fields. rewrite H. cbn. repeat split.
Qed.

Lemma setBearing_without_height (B : Browser) (v : R) (m : Map) :
  falsy (height m) = true -> none_updated m (after (setBearing B v m)).
Proof.
  intros H. unfold setBearing, after, none_updated.
  destruct (ie9 B); [repeat split|].
  destruct (isZooming m); [repeat split|].
  destruct (strict_eq _ _); [repeat split|].
  unfold _calcMatrices. map_fields. rewrite H. cbn. repeat split.
Qed.

(** C3, as stated, fails: the tilted map whose container has lost its
    height keeps its camera matrix through [setPitch(0)] and
    [setBearing(0)]. *)
Lemma collapsed_map_keeps_camera_matrix :
  getCameraMatrix (after (setBearing modern 0 (after (setPitch modern 0 collapsed_map))))
  <> None.
Proof.
  set (m1 := after (setPitch modern 0 collapsed_map)).
  assert (H1 : none_updated collapsed_map m1).
  { apply setPitch_without_height. cbn. apply Req_b_refl. }
  assert (Hh : falsy (height m1) = true).
  { destruct (setPitch_frame modern 0 collapsed_map) as ((_ & E & _) & _).
    fold m1 in E. rewrite E. cbn. apply Req_b_refl. }
  pose proof (setBearing_without_height modern 0 m1 Hh) as H2.
  destruct H1 as (_ & _ & _ & C1). destruct H2 as (_ & _ & _ & C2).
  unfold getCameraMatrix. rewrite C2, C1.
  destruct tilted_map_matrices as (_ & C & _).
  unfold collapsed_map. map_fields. rewrite C. discriminate.
Qed.

(** ** Zeroing the camera *)

Lemma or_default_0_cases v :
  or_default v 0 = 0 <-> (v = None \/ v = Some 0).
Proof.
  unfold or_default. destruct v as [x|]; [|tauto].
  destruct (Req_b x 0) eqn:E.
  - apply Req_b_true in E. subst. tauto.
  - apply Req_b_false in E. split.
    + intros H. contradiction.
    + intros [H|H]; [discriminate | injection H as H; contradiction].
Qed.

Lemma zero_RADIAN : clamp 0 0 60 * RADIAN = 0.
Proof. rewrite clamp_inside by lra. ring. Qed.

Lemma zero_bearing : - wrap 0 (-180) 180 * RADIAN = 0.
Proof. rewrite wrap_0. ring. Qed.

(** A setter that brings the camera to pitch 0 and bearing 0 over a
    viewport with a height clears the four matrices. *)
Lemma calcMatrices_flat_state (m : Map) (h : R) :
  height m = Some h -> h <> 0 ->
  or_default (_pitch m) 0 = 0 -> or_default (_angle m) 0 = 0 ->
  raised (_calcMatrices m) = None /\ all_cleared (state_of (_calcMatrices m)).
Proof.
  intros Hh Hh0 Hp Ha.
  destruct (calcMatrices_flat m h Hh Hh0 Hp Ha) as (m' & E & C).
  rewrite E. split; [reflexivity | exact C].
Qed.

(** C3, amended. On a backend that can rotate, with no zoom animation
    running and a viewport height that is set and not zero, [setPitch(0)]
    followed by [setBearing(0)] from any tilted map ends with
    [getCameraMatrix()] null, all four matrices cleared and both
    projectors on their flat path; the second call raises nothing. *)
Theorem zeroing_clears_matrices (B : Browser) (m : Map) (h : R) :
  ie9 B = false -> isZooming m = false -> height m = Some h -> h <> 0 -> tilted m ->
  let o := setBearing B 0 (after (setPitch B 0 m)) in
  raised (completion o) = None /\
  getCameraMatrix (after o) = None /\
  all_cleared (after o) /\
  (forall p zoom, _pointToContainerPoint (after o) p zoom = flat_forward (after o) p zoom) /\
  (forall p zoom, _containerPointToPoint (after o) p zoom = flat_backward (after o) p zoom).
Proof.
  intros HB HZ Hh Hh0 Ht. cbv zeta.
  set (m1 := after (setPitch B 0 m)).
  destruct (setPitch_frame B 0 m) as ((_ & Hh1 & HZ1 & _) & _ & HA1). fold m1 in Hh1, HZ1, HA1.
  rewrite Hh in Hh1. rewrite HZ in HZ1.
  assert (HP1 : or_default (_pitch m1) 0 = 0).
  { pose proof (getPitch_after_setPitch B 0 m HB HZ) as G. fold m1 in G.
    rewrite clamp_inside in G by lra. unfold getPitch in G.
    destruct (falsy (_pitch m1)) eqn:F.
    - apply or_default_0_cases. unfold falsy in F. destruct (_pitch m1) as [x|]; [|tauto].
      apply Req_b_true in F. subst. tauto.
    - pose proof PI_RGT_0. apply (f_equal (fun x => x * PI / 180)) in G.
      replace (or_default (_pitch m1) 0 / PI * 180 * PI / 180)
        with (or_default (_pitch m1) 0) in G by (field; lra).
      rewrite G. field. }
  assert (Hclear : raised (completion (setBearing B 0 m1)) = None /\
                   all_cleared (after (setBearing B 0 m1))).
  { destruct (strict_eq (_angle m1) (- wrap 0 (-180) 180 * RADIAN)) eqn:S.
    - (* the bearing is 0 already: the pitch was not, and its setter cleared *)
      assert (U : setBearing B 0 m1 = unchanged m1).
      { unfold setBearing. rewrite HB, HZ1, S. reflexivity. }
      rewrite U. split; [reflexivity|]. cbn [after unchanged completion state_of].
      assert (HA0 : or_default (_angle m) 0 = 0).
      { rewrite <- HA1. apply or_default_0_cases. right.
        unfold strict_eq in S. destruct (_angle m1) as [y|]; [|discriminate].
        apply Req_b_true in S. rewrite zero_bearing in S. subst. reflexivity. }
      assert (HP0 : or_default (_pitch m) 0 <> 0) by (unfold tilted in Ht; tauto).
      assert (SP : strict_eq (_pitch m) (clamp 0 0 60 * RADIAN) = false).
      { rewrite zero_RADIAN. unfold strict_eq. destruct (_pitch m) as [x|] eqn:E; [|reflexivity].
        apply Req_b_neq. intros ->. apply HP0. cbn. rewrite Req_b_refl. reflexivity. }
      destruct (setPitch_genuine B 0 m HB HZ SP) as (Ea & _). cbv zeta in Ea.
      fold m1 in Ea. rewrite Ea.
      apply (calcMatrices_flat_state _ h); map_fields; try assumption.
      rewrite zero_RADIAN. cbn. rewrite Req_b_refl. reflexivity.
    - destruct (setBearing_genuine B 0 m1 HB HZ1 S) as (Ea & Er & _). cbv zeta in Ea, Er.
      rewrite Ea, Er.
      apply (calcMatrices_flat_state _ h); map_fields; try assumption.
      rewrite zero_bearing. cbn. rewrite Req_b_refl. reflexivity. }
  destruct Hclear as (Hr & Hc). split; [exact Hr|].
  destruct Hc as (C1 & C2 & C3 & C4).
  split; [exact C4|]. split; [repeat split; assumption|]. split.
  - intros p zoom. unfold _pointToContainerPoint, flat_forward. rewrite C2. reflexivity.
  - intros p zoom. unfold _containerPointToPoint, flat_backward. rewrite C3.
    destruct zoom; reflexivity.
Qed.

Lemma tilted_map_tilted : tilted tilted_map.
Proof.
  destruct tilted_map_matrices as (_ & _ & _ & P & _).
  unfold tilted. rewrite P. pose proof pitch_30_domain.
  rewrite or_default_Some_neq by lra. lra.
Qed.

Lemma tilted_map_height : height tilted_map = Some 600.
Proof.
  destruct (setPitch_frame modern 30 fresh_map) as ((_ & E & _) & _). exact E.
Qed.

Lemma zeroing_clears_matrices_witness :
  let o := setBearing modern 0 (after (setPitch modern 0 tilted_map)) in
  raised (completion o) = None /\
  getCameraMatrix (after o) = None /\
  all_cleared (after o) /\
  (forall p zoom, _pointToContainerPoint (after o) p zoom = flat_forward (after o) p zoom) /\
  (forall p zoom, _containerPointToPoint (after o) p zoom = flat_backward (after o) p zoom).
Proof.
  apply (zeroing_clears_matrices modern tilted_map 600).
  - reflexivity.
  - destruct tilted_map_matrices as (_ & _ & Z & _). exact Z.
  - exact tilted_map_height.
  - lra.
  - exact tilted_map_tilted.
Defined.

(** ** The scenario: 800 by 600, default field of view, pitch 30 *)

Lemma scenario_distance : 300 < calc_cameraToCenterDistance DEFAULT_FOV 600.
Proof.
  unfold calc_cameraToCenterDistance.
  pose proof (tan_half_fov_pos _ DEFAULT_FOV_domain) as Ht.
  pose proof (tan_half_fov_lt_1 _ DEFAULT_FOV_domain) as Ht1.
  assert (1 < / tan (DEFAULT_FOV / 2)).
  { rewrite <- Rinv_1 at 1. apply Rinv_0_lt_contravar; lra. }
  unfold Rdiv. nra.
Qed.

Lemma scenario_forward (y : R) :
  let d := calc_cameraToCenterDistance DEFAULT_FOV 600 in
  let f := 1 / tan (DEFAULT_FOV / 2) in
  let Z := sin (30 * RADIAN) * y - d in
  _pointToContainerPoint tilted_map (mkPoint 0 y) None =
  mkPoint (800 / 2 * (- Z) / (- Z))
          (- (600) / 2 * (- f * (cos (30 * RADIAN) * y) + Z) / (- Z)).
Proof.
  cbv zeta. destruct tilted_map_matrices as (P & _).
  unfold _pointToContainerPoint. rewrite P. cbn [_pointToPoint px py].
  rewrite transform_pixelMatrix. cbv zeta. cbn [mat4.v0 mat4.v1 mat4.v3 px py origin].
  rewrite sin_0, cos_0. f_equal.
  - f_equal; [|ring]. f_equal. ring.
  - f_equal; [|ring]. f_equal. ring.
Qed.

(** Positive y of map space goes down the screen under pitch. *)
Lemma scenario_down (y : R) :
  0 < y <= 100 ->
  px (_pointToContainerPoint tilted_map (mkPoint 0 y) None) = 400 /\
  300 < py (_pointToContainerPoint tilted_map (mkPoint 0 y) None).
Proof.
  intros Hy.
  pose proof scenario_distance as Hd.
  pose proof (tan_half_fov_pos _ DEFAULT_FOV_domain) as Ht.
  pose proof pitch_30_domain as Hp. pose proof PI_RGT_0 as Hpi.
  assert (HC : 0 < cos (30 * RADIAN)) by (apply cos_gt_0; lra).
  assert (HS : sin (30 * RADIAN) <= 1) by (apply SIN_bound).
  assert (HS0 : 0 <= sin (30 * RADIAN)) by (apply sin_ge_0; lra).
  assert (Hf : 0 < 1 / tan (DEFAULT_FOV / 2)).
  { apply Rdiv_lt_0_compat; lra. }
  rewrite scenario_forward. cbv zeta. cbn [px py].
  set (d := calc_cameraToCenterDistance DEFAULT_FOV 600) in *.
  set (f := 1 / tan (DEFAULT_FOV / 2)) in *.
  set (Z := sin (30 * RADIAN) * y - d).
  assert (HZ : Z < 0) by (unfold Z; nra).
  split; [field; lra|].
  replace (- (600) / 2 * (- f * (cos (30 * RADIAN) * y) + Z) / - Z)
    with (300 + 300 * (f * (cos (30 * RADIAN) * y)) / (- Z)) by (field; lra).
  assert (0 < 300 * (f * (cos (30 * RADIAN) * y)) / - Z).
  { apply Rdiv_lt_0_compat; [|lra].
    apply Rmult_lt_0_compat; [lra|]. apply Rmult_lt_0_compat; [exact Hf|].
    apply Rmult_lt_0_compat; lra. }
  lra.
Qed.

(** C7, amended. In the scenario the map-space point (0,0) goes to the
    container point (400, 300), and (0, 100) goes to a point with x equal
    to 400 and y strictly greater than 300: the y axis of map space points
    down the screen. *)
Theorem pitched_scenario :
  getPitch tilted_map = 30 /\ getBearing tilted_map = 0 /\
  fst (getFov tilted_map) = DEFAULT_FOV / RADIAN /\
  _pointToContainerPoint tilted_map (mkPoint 0 0) None = mkPoint 400 300 /\
  px (_pointToContainerPoint tilted_map (mkPoint 0 100) None) = 400 /\
  300 < py (_pointToContainerPoint tilted_map (mkPoint 0 100) None).
Proof.
  pose proof scenario_distance as Hd.
  pose proof (tan_half_fov_pos _ DEFAULT_FOV_domain) as Ht.
  split; [|split; [|split; [|split]]].
  - unfold tilted_map. rewrite getPitch_after_setPitch by reflexivity. apply clamp_30.
  - destruct tilted_map_matrices as (_ & _ & _ & _ & A).
    unfold getBearing. rewrite A. cbn. rewrite Req_b_refl. reflexivity.
  - destruct (setPitch_frame modern 30 fresh_map) as (_ & F & _).
    rewrite getFov_value. fold tilted_map in F. rewrite F. reflexivity.
  - rewrite scenario_forward. cbv zeta.
    set (d := calc_cameraToCenterDistance DEFAULT_FOV 600) in *.
    f_equal; field; lra.
  - apply scenario_down. lra.
Qed.

(** C7, as stated, fails: in the scenario the y coordinate of the image
    of (0, 100) is not below 300. *)
Lemma scenario_north_is_not_up :
  ~ (py (_pointToContainerPoint tilted_map (mkPoint 0 100) None) < 300).
Proof.
  assert (H : 0 < 100 <= 100) by lra.
  destruct (scenario_down 100 H) as [_ Hy]. lra.
Qed.

Lemma getRotationAt_spec_witness :
  (rotations arrow = None -> _getRotationAt direction arrow 0 = Returned (getRotation arrow)) /\
  (forall rs p0 p1, rotations arrow = Some rs -> nth_error rs 0 = Some (p0, p1) ->
     (getCameraMatrix (getMap arrow) <> None ->
      _getRotationAt direction arrow 0 =
        Returned (Some (or_default (getRotation arrow) 0 +
          direction
            (_pointToContainerPoint (getMap arrow) p0 (Some (getMaxZoom (getMap arrow))))
            (_pointToContainerPoint (getMap arrow) p1 (Some (getMaxZoom (getMap arrow))))))) /\
     (getCameraMatrix (getMap arrow) = None ->
      _getRotationAt direction arrow 0 =
        Returned (Some (or_default (getRotation arrow) 0 + direction p0 p1)))).
Proof. exact (getRotationAt_spec direction arrow 0). Defined.

(** * Further properties of the camera *)

(** ** Repeated and refused calls *)

Lemma angle_after_setBearing (B : Browser) (v : R) (m : Map) :
  ie9 B = false -> isZooming m = false ->
  strict_eq (_angle (after (setBearing B v m))) (- wrap v (-180) 180 * RADIAN) = true.
Proof.
  intros HB HZ. set (b := - wrap v (-180) 180 * RADIAN).
  destruct (strict_eq (_angle m) b) eqn:S.
  - unfold setBearing. rewrite HB, HZ. fold b. rewrite S. exact S.
  - destruct (setBearing_genuine B v m HB HZ S) as (Ea & _). cbv zeta in Ea. rewrite Ea.
    fold b.
    destruct (calcMatrices_fields (set_angle m (Some b))) as [[_ E]|(_ & _ & _ & E)].
    + rewrite E. cbn. apply Req_b_refl.
    + rewrite E. map_fields. cbn. destruct (Req_b b 0) eqn:Z.
      * apply Req_b_true in Z. rewrite Z. apply Req_b_refl.
      * apply Req_b_refl.
Qed.

Lemma pitch_after_setPitch (B : Browser) (v : R) (m : Map) :
  ie9 B = false -> isZooming m = false ->
  strict_eq (_pitch (after (setPitch B v m))) (clamp v 0 60 * RADIAN) = true.
Proof.
  intros HB HZ. set (p := clamp v 0 60 * RADIAN).
  destruct (strict_eq (_pitch m) p) eqn:S.
  - unfold setPitch. rewrite HB, HZ. fold p. rewrite S. exact S.
  - destruct (setPitch_genuine B v m HB HZ S) as (Ea & _). cbv zeta in Ea. rewrite Ea.
    fold p.
    destruct (calcMatrices_fields (set_pitch m (Some p))) as [[_ E]|(_ & _ & E & _)].
    + rewrite E. cbn. apply Req_b_refl.
    + rewrite E. map_fields. cbn. destruct (Req_b p 0) eqn:Z.
      * apply Req_b_true in Z. rewrite Z. apply Req_b_refl.
      * apply Req_b_refl.
Qed.

(** X1. On a backend that can rotate, a second [setBearing] with the same
    argument changes nothing and has no effect, whatever the first call
    did, returned or raised. *)
Theorem setBearing_twice (B : Browser) (v : R) (m : Map) :
  ie9 B = false ->
  setBearing B v (after (setBearing B v m)) = unchanged (after (setBearing B v m)).
Proof.
  intros HB. destruct (isZooming m) eqn:HZ.
  - assert (U : setBearing B v m = unchanged m) by (unfold setBearing; rewrite HB, HZ; reflexivity).
    rewrite U. cbn [after unchanged completion state_of]. exact U.
  - pose proof (angle_after_setBearing B v m HB HZ) as S.
    destruct (setBearing_frame B v m) as ((_ & _ & Z & _) & _).
    unfold setBearing at 1. rewrite HB, Z, HZ, S. reflexivity.
Qed.

Lemma setBearing_twice_witness :
  setBearing modern 40 (after (setBearing modern 40 fresh_map)) =
  unchanged (after (setBearing modern 40 fresh_map)).
Proof. apply (setBearing_twice modern 40 fresh_map). reflexivity. Defined.

(** X2. The same for [setPitch]. *)
Theorem setPitch_twice (B : Browser) (v : R) (m : Map) :
  ie9 B = false ->
  setPitch B v (after (setPitch B v m)) = unchanged (after (setPitch B v m)).
Proof.
  intros HB. destruct (isZooming m) eqn:HZ.
  - assert (U : setPitch B v m = unchanged m) by (unfold setPitch; rewrite HB, HZ; reflexivity).
    rewrite U. cbn [after unchanged completion state_of]. exact U.
  - pose proof (pitch_after_setPitch B v m HB HZ) as S.
    destruct (setPitch_frame B v m) as ((_ & _ & Z & _) & _).
    unfold setPitch at 1. rewrite HB, Z, HZ, S. reflexivity.
Qed.

Lemma setPitch_twice_witness :
  setPitch modern 40 (after (setPitch modern 40 fresh_map)) =
  unchanged (after (setPitch modern 40 fresh_map)).
Proof. apply (setPitch_twice modern 40 fresh_map). reflexivity. Defined.

(** ** What the getters read after a setter *)

(** X3. After [setPitch(v)] on a capable backend with no zoom running,
    [getPitch()] is [v] clamped, between 0 and 60, also when the call
    raised on the inversion. *)
Theorem setPitch_then_getPitch (B : Browser) (v : R) (m : Map) :
  ie9 B = false -> isZooming m = false ->
  getPitch (after (setPitch B v m)) = Rmin 60 (Rmax 0 v) /\
  0 <= getPitch (after (setPitch B v m)) <= 60.
Proof.
  intros HB HZ. rewrite (getPitch_after_setPitch B v m HB HZ).
  split; [reflexivity|]. apply clamp_range. lra.
Qed.

Lemma setPitch_then_getPitch_witness :
  getPitch (after (setPitch modern (-5) tilted_map)) = Rmin 60 (Rmax 0 (-5)) /\
  0 <= getPitch (after (setPitch modern (-5) tilted_map)) <= 60.
Proof.
  apply (setPitch_then_getPitch modern (-5) tilted_map).
  - reflexivity.
  - destruct tilted_map_matrices as (_ & _ & Z & _). exact Z.
Defined.

(** X4. After [setBearing(v)], [getBearing()] is [v] wrapped: the sign
    flip and the conversion to radians cancel, the result lies in
    (-180, 180] and a bearing already there is read back as it is. *)
Theorem setBearing_then_getBearing (B : Browser) (v : R) (m : Map) :
  ie9 B = false -> isZooming m = false ->
  getBearing (after (setBearing B v m)) = wrap v (-180) 180 /\
  -180 < getBearing (after (setBearing B v m)) <= 180 /\
  (-180 < v <= 180 -> getBearing (after (setBearing B v m)) = v).
Proof.
  intros HB HZ. rewrite (getBearing_after_setBearing B v m HB HZ).
  split; [reflexivity|]. split.
  - apply wrap_range. lra.
  - apply wrap_inside.
Qed.

Lemma setBearing_then_getBearing_witness :
  getBearing (after (setBearing modern 270 fresh_map)) = wrap 270 (-180) 180 /\
  -180 < getBearing (after (setBearing modern 270 fresh_map)) <= 180 /\
  (-180 < 270 <= 180 -> getBearing (after (setBearing modern 270 fresh_map)) = 270).
Proof. apply (setBearing_then_getBearing modern 270 fresh_map); reflexivity. Defined.

(** X5. After a [setFov(v)] that went past its test, [getFov()] is [v]
    clamped to [0.01, 60], and the stored field of view is that number
    of degrees in radians, at most 60 degrees. *)
Theorem setFov_then_getFov (v : R) (m : Map) :
  isZooming m = false ->
  strict_eq (_fov m) (Rmax 0.01 (Rmin 60 v)) = false ->
  fst (getFov (after (setFov v m))) = Rmax 0.01 (Rmin 60 v) /\
  0.01 <= fst (getFov (after (setFov v m))) <= 60 /\
  _fov (after (setFov v m)) = Some (Rmax 0.01 (Rmin 60 v) * RADIAN) /\
  0 < Rmax 0.01 (Rmin 60 v) * RADIAN <= PI / 3.
Proof.
  intros HZ HS. rewrite (getFov_after_setFov v m HZ HS).
  split; [reflexivity|]. split; [apply fov_clamp_range|].
  split; [apply fov_after_setFov; assumption|].
  pose proof (fov_clamp_range v). pose proof PI_RGT_0. unfold RADIAN. split.
  - apply Rmult_lt_0_compat; lra.
  - apply Rmult_le_reg_r with (180 / PI).
    + apply Rdiv_lt_0_compat; lra.
    + replace (Rmax 0.01 (Rmin 60 v) * (PI / 180) * (180 / PI))
        with (Rmax 0.01 (Rmin 60 v)) by (field; lra).
      replace (PI / 3 * (180 / PI)) with 60 by (field; lra). lra.
Qed.

Lemma setFov_then_getFov_witness :
  fst (getFov (after (setFov 100 fresh_map))) = Rmax 0.01 (Rmin 60 100) /\
  0.01 <= fst (getFov (after (setFov 100 fresh_map))) <= 60 /\
  _fov (after (setFov 100 fresh_map)) = Some (Rmax 0.01 (Rmin 60 100) * RADIAN) /\
  0 < Rmax 0.01 (Rmin 60 100) * RADIAN <= PI / 3.
Proof. apply (setFov_then_getFov 100 fresh_map); reflexivity. Defined.

(** X6. No setter touches what another getter reads, nor the viewport,
    the zoom state, the centre or the layers. *)
Theorem setters_leave_the_rest (B : Browser) (v : R) (m : Map) :
  (same_view m (after (setFov v m)) /\
   getPitch (after (setFov v m)) = getPitch m /\
   getBearing (after (setFov v m)) = getBearing m) /\
  (same_view m (after (setPitch B v m)) /\
   fst (getFov (after (setPitch B v m))) = fst (getFov m) /\
   getBearing (after (setPitch B v m)) = getBearing m) /\
  (same_view m (after (setBearing B v m)) /\
   fst (getFov (after (setBearing B v m))) = fst (getFov m) /\
   getPitch (after (setBearing B v m)) = getPitch m).
Proof.
  assert (GP : forall a b, or_default (_pitch a) 0 = or_default (_pitch b) 0 ->
                           getPitch a = getPitch b).
  { intros a b E. unfold getPitch.
    assert (F : forall x, falsy (_pitch x) = Req_b (or_default (_pitch x) 0) 0).
    { intros x. unfold falsy, or_default. destruct (_pitch x) as [y|].
      - destruct (Req_b y 0) eqn:Y; [rewrite Req_b_refl | rewrite Y]; reflexivity.
      - rewrite Req_b_refl. reflexivity. }
    rewrite !F, E. reflexivity. }
  assert (GB : forall a b, or_default (_angle a) 0 = or_default (_angle b) 0 ->
                           getBearing a = getBearing b).
  { intros a b E. unfold getBearing.
    assert (F : forall x, falsy (_angle x) = Req_b (or_default (_angle x) 0) 0).
    { intros x. unfold falsy, or_default. destruct (_angle x) as [y|].
      - destruct (Req_b y 0) eqn:Y; [rewrite Req_b_refl | rewrite Y]; reflexivity.
      - rewrite Req_b_refl. reflexivity. }
    rewrite !F, E. reflexivity. }
  destruct (setFov_frame v m) as (V1 & P1 & A1).
  destruct (setPitch_frame B v m) as (V2 & F2 & A2).
  destruct (setBearing_frame B v m) as (V3 & F3 & P3).
  rewrite !getFov_value, F2, F3.
  repeat split; try assumption; try (apply GP; assumption); try (apply GB; assumption);
    try apply V1; try apply V2; try apply V3.
Qed.

(** ** Recomputing the matrices *)

Lemma or_default_fov_idem v :
  or_default (Some (or_default v DEFAULT_FOV)) DEFAULT_FOV = or_default v DEFAULT_FOV.
Proof. apply or_default_idem. left. unfold DEFAULT_FOV. lra. Qed.

Lemma or_default_0_idem v : or_default (Some (or_default v 0)) 0 = or_default v 0.
Proof. apply or_default_idem. right. reflexivity. Qed.

Ltac map_norm :=
  cbv [state_of _fov _pitch _angle width height cameraToCenterDistance
       projMatrix pixelMatrix pixelMatrixInverse cameraMatrix isZooming getMaxZoom
       _getResolution _prjCenterToPoint getBaseLayer _getLayers
       set_fov set_pitch set_angle set_cameraToCenterDistance set_projMatrix
       set_pixelMatrix set_pixelMatrixInverse set_cameraMatrix _clearMatrices].

(** X7. [_calcMatrices] called again on the map it left does the same and
    leaves the same map: it returns where it returned and raises where it
    raised. *)
Theorem calcMatrices_idempotent (m : Map) :
  _calcMatrices (state_of (_calcMatrices m)) = _calcMatrices m.
Proof.
  destruct m as [fov pitch angle w h ctd proj pixel pinv cam z mz res ctr base layers].
  unfold _calcMatrices at 2. map_norm.
  destruct (falsy h) eqn:Hh.
  - unfold _calcMatrices. map_norm. rewrite Hh. reflexivity.
  - destruct (Req_b (or_default pitch 0) 0 && Req_b (or_default angle 0) 0) eqn:Hflat.
    + unfold _calcMatrices. map_norm. rewrite Hh.
      rewrite or_default_fov_idem, !or_default_0_idem, Hflat. reflexivity.
    + destruct (mat4.invert _) as [inv|] eqn:Hinv.
      * unfold _calcMatrices. map_norm. rewrite Hh.
        rewrite or_default_fov_idem, !or_default_0_idem, Hflat, Hinv. reflexivity.
      * unfold _calcMatrices. map_norm. rewrite Hh.
        rewrite or_default_fov_idem, !or_default_0_idem, Hflat, Hinv. reflexivity.
Qed.

(** X8. Over a viewport of positive width and at least two pixels high, a
    tilted camera in the domain of the setters whose top edge looks below
    the horizon (pitch + fov / 2 < 90 degrees, so that line 207 does not
    divide by 0) never fails to invert: [_calcMatrices] returns, and the
    stored inverse is the inverse of the stored pixel matrix on both
    sides. *)
Theorem calcMatrices_never_raises_in_domain (m : Map) (h : R) :
  in_domain m h -> 2 <= h -> tilted m -> below_horizon m ->
  raised (_calcMatrices m) = None /\
  exists pixel inv,
    pixelMatrix (state_of (_calcMatrices m)) = Some pixel /\
    pixelMatrixInverse (state_of (_calcMatrices m)) = Some inv /\
    mat4.multiply pixel inv = mat4.create /\
    mat4.multiply inv pixel = mat4.create.
Proof.
  intros D H2 T BH.
  destruct (calcMatrices_succeeds m h D H2 T BH) as (inv & Hinv & HN & HI & _).
  destruct D as (Hh & Hh0 & _).
  assert (Hhn : h <> 0) by lra.
  pose proof (calcMatrices_perspective m h Hh Hhn T) as H. cbv zeta in H.
  destruct H as (_ & HP & _).
  split; [rewrite HN; reflexivity|].
  destruct (invert_Some _ _ Hinv) as (_ & M1 & M2).
  eexists. exists inv. repeat split; eassumption.
Qed.

Lemma calcMatrices_never_raises_in_domain_witness :
  raised (_calcMatrices (set_pitch fresh_map (Some (PI / 6)))) = None /\
  exists pixel inv,
    pixelMatrix (state_of (_calcMatrices (set_pitch fresh_map (Some (PI / 6))))) = Some pixel /\
    pixelMatrixInverse (state_of (_calcMatrices (set_pitch fresh_map (Some (PI / 6))))) =
      Some inv /\
    mat4.multiply pixel inv = mat4.create /\
    mat4.multiply inv pixel = mat4.create.
Proof.
  assert (Hp : 0 < PI / 6 <= PI / 3) by (pose proof PI_RGT_0; lra).
  destruct (fresh_pitched_domain (PI / 6) Hp) as (D & T & BH).
  apply (calcMatrices_never_raises_in_domain _ 600 D); [lra | exact T | exact BH].
Defined.

(** X9. Over a viewport with a height and no width a tilted camera
    always raises the inversion error, having written [projMatrix] and
    [pixelMatrix] and nothing after them. *)
Theorem calcMatrices_raises_without_width (m : Map) (h : R) :
  height m = Some h -> h <> 0 -> width m = 0 -> tilted m ->
  raised (_calcMatrices m) = Some "failed to invert matrix"%string /\
  projMatrix (state_of (_calcMatrices m)) <> None /\
  pixelMatrix (state_of (_calcMatrices m)) <> None /\
  pixelMatrixInverse (state_of (_calcMatrices m)) = pixelMatrixInverse m /\
  cameraMatrix (state_of (_calcMatrices m)) = cameraMatrix m.
Proof.
  intros Hh Hh0 Hw T.
  pose proof (calcMatrices_perspective m h Hh Hh0 T) as H. cbv zeta in H.
  rewrite Hw in H. rewrite narrow_pixel_singular in H.
  destruct H as (P1 & P2 & _ & C & P3 & P4).
  rewrite C at 1. rewrite P1, P2. repeat split; try assumption; discriminate.
Qed.

Lemma calcMatrices_raises_without_width_witness :
  raised (_calcMatrices (set_pitch narrow_map (Some 1))) =
    Some "failed to invert matrix"%string /\
  projMatrix (state_of (_calcMatrices (set_pitch narrow_map (Some 1)))) <> None /\
  pixelMatrix (state_of (_calcMatrices (set_pitch narrow_map (Some 1)))) <> None /\
  pixelMatrixInverse (state_of (_calcMatrices (set_pitch narrow_map (Some 1)))) =
    pixelMatrixInverse (set_pitch narrow_map (Some 1)) /\
  cameraMatrix (state_of (_calcMatrices (set_pitch narrow_map (Some 1)))) =
    cameraMatrix (set_pitch narrow_map (Some 1)).
Proof.
  apply (calcMatrices_raises_without_width (set_pitch narrow_map (Some 1)) 600).
  - reflexivity.
  - lra.
  - reflexivity.
  - unfold tilted. map_fields. rewrite or_default_Some_neq by lra. lra.
Defined.

(** X10. A pan changes neither [cameraMatrix] nor whether the
    recomputation raises: the camera matrix is built without the centre. *)
Theorem cameraMatrix_ignores_the_centre (m : Map) (c : option Zoom -> Point) :
  cameraMatrix (state_of (_calcMatrices (set_prjCenterToPoint m c))) =
    cameraMatrix (state_of (_calcMatrices m)) /\
  raised (_calcMatrices (set_prjCenterToPoint m c)) = raised (_calcMatrices m).
Proof.
  destruct (height_cases m) as [Hf | (h & Hh & Hh0)].
  - unfold _calcMatrices. map_fields. rewrite Hf. split; reflexivity.
  - destruct (flat_or_tilted m) as [[Hp Ha] | Ht].
    + destruct (calcMatrices_flat m h Hh Hh0 Hp Ha) as (m1 & E1 & _ & _ & _ & C1).
      destruct (calcMatrices_flat (set_prjCenterToPoint m c) h Hh Hh0 Hp Ha)
        as (m2 & E2 & _ & _ & _ & C2).
      rewrite E1, E2. cbn [state_of raised]. rewrite C1, C2. split; reflexivity.
    + pose proof (calcMatrices_perspective m h Hh Hh0 Ht) as H1.
      pose proof (calcMatrices_perspective (set_prjCenterToPoint m c) h Hh Hh0 Ht) as H2.
      cbv zeta in H1, H2. map_fields.
      destruct H1 as (_ & _ & _ & H1). destruct H2 as (_ & _ & _ & H2).
      replace (width (set_prjCenterToPoint m c)) with (width m) in H2 by reflexivity.
      replace (_fov (set_prjCenterToPoint m c)) with (_fov m) in H2 by reflexivity.
      replace (_pitch (set_prjCenterToPoint m c)) with (_pitch m) in H2 by reflexivity.
      replace (_angle (set_prjCenterToPoint m c)) with (_angle m) in H2 by reflexivity.
      replace (cameraMatrix (set_prjCenterToPoint m c)) with (cameraMatrix m) in H2
        by reflexivity.
      assert (D : forall c1 c2,
        mat4.determinant (calc_pixelMatrix (width m) h
          (calc_projMatrix (or_default (_fov m) DEFAULT_FOV) (or_default (_pitch m) 0)
             (or_default (_angle m) 0) (width m) h c1)) =
        mat4.determinant (calc_pixelMatrix (width m) h
          (calc_projMatrix (or_default (_fov m) DEFAULT_FOV) (or_default (_pitch m) 0)
             (or_default (_angle m) 0) (width m) h c2))).
      { intros c1 c2. rewrite !determinant_pixelMatrix. reflexivity. }
      destruct (mat4.invert (calc_pixelMatrix (width m) h
          (calc_projMatrix _ _ _ _ _ (_prjCenterToPoint m None)))) as [i1|] eqn:I1;
      destruct (mat4.invert (calc_pixelMatrix (width m) h
          (calc_projMatrix _ _ _ _ _
             (_prjCenterToPoint (set_prjCenterToPoint m c) None)))) as [i2|] eqn:I2.
      * destruct H1 as (C1 & _ & K1). destruct H2 as (C2 & _ & K2).
        rewrite K1, K2, C1, C2. split; reflexivity.
      * exfalso. apply invert_None in I2. apply invert_Some in I1. destruct I1 as (I1 & _).
        apply I1. rewrite (D _ (_prjCenterToPoint (set_prjCenterToPoint m c) None)). exact I2.
      * exfalso. apply invert_None in I1. apply invert_Some in I2. destruct I2 as (I2 & _).
        apply I2. rewrite (D _ (_prjCenterToPoint m None)). exact I1.
      * destruct H1 as (C1 & _ & K1). destruct H2 as (C2 & _ & K2).
        rewrite K1, K2, C1, C2. split; reflexivity.
Qed.

(** ** The projectors *)

Lemma pixelMatrix_after_calc (m : Map) (h : R) :
  height m = Some h -> h <> 0 -> tilted m ->
  pixelMatrix (state_of (_calcMatrices m)) =
    Some (calc_pixelMatrix (width m) h
      (calc_projMatrix (or_default (_fov m) DEFAULT_FOV) (or_default (_pitch m) 0)
         (or_default (_angle m) 0) (width m) h (_prjCenterToPoint m None))).
Proof.
  intros Hh Hh0 T. pose proof (calcMatrices_perspective m h Hh Hh0 T) as H.
  cbv zeta in H. tauto.
Qed.

Lemma forward_centre (m : Map) (h : R) :
  in_domain m h ->
  _pointToContainerPoint (state_of (_calcMatrices m)) (_prjCenterToPoint m None) None =
  mkPoint (width m / 2) (h / 2).
Proof.
  intros (Hh & Hh0 & Hw & Hf & Hp).
  assert (Hhn : h <> 0) by lra.
  destruct (calcMatrices_frame m) as (W & H & _ & _ & _ & C & _).
  destruct (flat_or_tilted m) as [[Hp0 Ha0] | T].
  - destruct (calcMatrices_flat m h Hh Hhn Hp0 Ha0) as (m' & E & _ & P & _).
    rewrite E in *. cbn [state_of] in *.
    unfold _pointToContainerPoint. rewrite P. cbn [_pointToPoint].
    rewrite C, W. unfold height_num. rewrite H, Hh.
    unfold Point_add, Point_sub. cbn [px py]. f_equal; ring.
  - unfold _pointToContainerPoint. rewrite (pixelMatrix_after_calc m h Hh Hhn T).
    cbn [_pointToPoint]. rewrite transform_pixelMatrix. cbv zeta.
    cbn [mat4.v0 mat4.v1 mat4.v3].
    pose proof (cameraToCenterDistance_pos _ h Hf Hh0) as Hd.
    set (d := calc_cameraToCenterDistance (or_default (_fov m) DEFAULT_FOV) h) in *.
    pose proof (tan_half_fov_pos _ Hf) as Ht.
    f_equal; field; repeat split; lra.
Qed.



(** X12. Forward projection follows a pan: with the centre moved by a
    vector, the point moved by the same vector lands on the same pixel,
    in flat and in perspective mode. *)
Theorem forward_follows_the_pan (m : Map) (c : Point) (dx dy : R) (p : Point) :
  let m1 := state_of (_calcMatrices (set_prjCenterToPoint m (fun _ => c))) in
  let m2 := state_of (_calcMatrices
                        (set_prjCenterToPoint m (fun _ => Point_add c dx dy))) in
  height m <> None -> height m <> Some 0 ->
  _pointToContainerPoint m2 (Point_add p dx dy) None = _pointToContainerPoint m1 p None.
Proof.
  intros m1 m2 Hn H0.
  destruct (height_cases m) as [Hf | (h & Hh & Hh0)].
  { exfalso. unfold falsy in Hf. destruct (height m) as [x|]; [|congruence].
    apply Req_b_true in Hf. subst. congruence. }
  set (ma := set_prjCenterToPoint m (fun _ => c)) in *.
  set (mb := set_prjCenterToPoint m (fun _ => Point_add c dx dy)) in *.
  destruct (calcMatrices_frame ma) as (Wa & Ha & _ & _ & _ & Ca & _).
  destruct (calcMatrices_frame mb) as (Wb & Hb & _ & _ & _ & Cb & _).
  fold m1 in Wa, Ha, Ca. fold m2 in Wb, Hb, Cb.
  destruct (flat_or_tilted m) as [[Hp0 Ha0] | T].
  - destruct (calcMatrices_flat ma h Hh Hh0 Hp0 Ha0) as (m1' & E1 & _ & P1 & _).
    destruct (calcMatrices_flat mb h Hh Hh0 Hp0 Ha0) as (m2' & E2 & _ & P2 & _).
    assert (Em1 : m1 = m1') by (unfold m1; rewrite E1; reflexivity).
    assert (Em2 : m2 = m2') by (unfold m2; rewrite E2; reflexivity).
    unfold _pointToContainerPoint. rewrite Em1, Em2, P1, P2, <- Em1, <- Em2.
    cbn [_pointToPoint]. rewrite Ca, Cb, Wa, Wb. unfold height_num. rewrite Ha, Hb.
    unfold ma, mb. map_fields.
    unfold Point_add, Point_sub. cbn [px py]. f_equal; ring.
  - unfold _pointToContainerPoint, m1, m2.
    rewrite (pixelMatrix_after_calc ma h Hh Hh0 T), (pixelMatrix_after_calc mb h Hh Hh0 T).
    cbn [_pointToPoint]. rewrite !transform_pixelMatrix. cbv zeta.
    unfold ma, mb. map_fields. unfold Point_add. cbn [px py mat4.v0 mat4.v1 mat4.v3].
    replace (px p + dx - (px c + dx) * 1) with (px p - px c * 1) by ring.
    replace (py p + dy - (py c + dy) * 1) with (py p - py c * 1) by ring.
    reflexivity.
Qed.

Lemma forward_follows_the_pan_witness :
  _pointToContainerPoint
    (state_of (_calcMatrices
       (set_prjCenterToPoint tilted_map (fun _ => Point_add origin 7 9))))
    (Point_add (mkPoint 1 2) 7 9) None =
  _pointToContainerPoint
    (state_of (_calcMatrices (set_prjCenterToPoint tilted_map (fun _ => origin))))
    (mkPoint 1 2) None.
Proof.
  apply (forward_follows_the_pan tilted_map origin 7 9 (mkPoint 1 2)).
  - rewrite tilted_map_height. discriminate.
  - rewrite tilted_map_height. intros E. injection E as E. lra.
Defined.

(** X13. On a map whose height is set, in flat mode, the two projectors,
    called without a zoom, undo each other in both orders. *)
Theorem flat_round_trips (m : Map) (p : Point) :
  height m <> None ->
  pixelMatrix m = None -> pixelMatrixInverse m = None ->
  _pointToContainerPoint m (_containerPointToPoint m p None) None = p /\
  _containerPointToPoint m (_pointToContainerPoint m p None) None = p.
Proof.
  intros _ P I. unfold _pointToContainerPoint, _containerPointToPoint. rewrite P, I.
  cbn [_pointToPoint]. destruct p as [x y].
  unfold Point_add, Point_sub. cbn [px py]. split; f_equal; ring.
Qed.

Lemma flat_round_trips_witness :
  _pointToContainerPoint fresh_map (_containerPointToPoint fresh_map (mkPoint 5 6) None) None
    = mkPoint 5 6 /\
  _containerPointToPoint fresh_map (_pointToContainerPoint fresh_map (mkPoint 5 6) None) None
    = mkPoint 5 6.
Proof.
  apply (flat_round_trips fresh_map (mkPoint 5 6)); [discriminate | reflexivity | reflexivity].
Defined.

(** X14. On a map whose height is set, in flat mode with a target zoom:
    unprojecting a pixel to the zoom and projecting the result from that
    zoom gives the pixel back, when both resolutions are not 0 and the
    centre at the target zoom is the centre at the current zoom
    rescaled. *)
Theorem flat_round_trip_at_zoom (m : Map) (z : Zoom) (p : Point) :
  height m <> None ->
  pixelMatrix m = None -> pixelMatrixInverse m = None ->
  _getResolution m None <> 0 -> _getResolution m (Some z) <> 0 ->
  _prjCenterToPoint m (Some z) =
    Point_multi (_prjCenterToPoint m None) (_getResolution m None / _getResolution m (Some z)) ->
  _pointToContainerPoint m (_containerPointToPoint m p (Some z)) (Some z) = p.
Proof.
  intros _ P I R0 Rz C. unfold _pointToContainerPoint, _containerPointToPoint.
  rewrite P, I, C. cbn [_pointToPoint]. destruct p as [x y].
  unfold Point_add, Point_sub, Point_multi. cbn [px py]. f_equal; field; split; assumption.
Qed.

Lemma flat_round_trip_at_zoom_witness :
  _pointToContainerPoint fresh_map (_containerPointToPoint fresh_map (mkPoint 5 6) (Some 3%Z))
    (Some 3%Z) = mkPoint 5 6.
Proof.
  apply (flat_round_trip_at_zoom fresh_map 3%Z (mkPoint 5 6)); try reflexivity.
  - discriminate.
  - cbn. lra.
  - cbn. lra.
  - cbn. unfold Point_multi, origin. cbn. f_equal; field.
Defined.

Lemma interpolate_on_ray (A B w0 w1 c0x c1x c0z c1z : R) :
  w0 <> 0 -> w1 <> 0 -> c0z / w0 <> c1z / w1 ->
  A * c0z + B * c1z = 0 -> A * w0 + B * w1 = 1 ->
  interpolate (c0x / w0) (c1x / w1) ((0 - c0z / w0) / (c1z / w1 - c0z / w0)) =
  A * c0x + B * c1x.
Proof.
  intros Hw0 Hw1 Hz E1 E2.
  assert (G0 : c0z = c0z / w0 * w0) by (field; assumption).
  assert (G1 : c1z = c1z / w1 * w1) by (field; assumption).
  remember (c0z / w0) as z0 eqn:Ez0. remember (c1z / w1) as z1 eqn:Ez1.
  clear Ez0 Ez1. subst c0z c1z.
  assert (Hd : z1 - z0 <> 0) by lra.
  assert (Ht : (0 - z0) / (z1 - z0) = B * w1).
  { apply Rmult_eq_reg_r with (z1 - z0); [|exact Hd].
    replace ((0 - z0) / (z1 - z0) * (z1 - z0)) with (0 - z0) by (field; assumption).
    assert (E1' : z0 * (A * w0) + z1 * (B * w1) = 0) by (rewrite <- E1; ring).
    remember (A * w0) as a. remember (B * w1) as b.
    replace b with (1 - a) in * by lra.
    replace (z1 * (1 - a)) with (z1 - z1 * a) in E1' by ring.
    replace ((1 - a) * (z1 - z0)) with (z1 - z1 * a - z0 + z0 * a) by ring. lra. }
  rewrite Ht. unfold interpolate.
  replace (1 - B * w1) with (A * w0) by lra.
  field. split; assumption.
Qed.

(** X15. The other order of the perspective round trip: for a camera in
    its domain whose top edge looks below the horizon (pitch + fov / 2 <
    90 degrees), with built matrices, a map point that is not on the plane
    of the camera and whose image lies strictly between the top and the
    bottom of the viewport is given back by unprojecting its image. *)
Theorem perspective_reverse_round_trip (m m' : Map) (h : R) (pm : mat4.t) (q : Point) :
  in_domain m h -> tilted m -> below_horizon m -> _calcMatrices m = Normal m' ->
  pixelMatrix m' = Some pm ->
  mat4.v3 (mat4.transformMat4 (mat4.Vec4 (px q) (py q) 0 1) pm) <> 0 ->
  0 < py (_pointToContainerPoint m' q None) < h ->
  _containerPointToPoint m' (_pointToContainerPoint m' q None) None = q.
Proof.
  intros (Hh & Hh0 & Hw & Hf & Hp) T BH Hcalc Hpm Hw' Hy. unfold below_horizon in BH.
  assert (Hhn : h <> 0) by lra.
  pose proof (calcMatrices_perspective m h Hh Hhn T) as H. cbv zeta in H.
  rewrite Hcalc in H. cbn [state_of] in H. destruct H as (_ & Hpix & _ & H).
  destruct (mat4.invert _) as [inv|] eqn:Hinv; [|destruct H as [H _]; discriminate].
  destruct H as (_ & Hpinv & _).
  assert (Epm : pm = calc_pixelMatrix (width m) h
            (calc_projMatrix (or_default (_fov m) DEFAULT_FOV) (or_default (_pitch m) 0)
               (or_default (_angle m) 0) (width m) h (_prjCenterToPoint m None)))
    by congruence.
  set (p := _pointToContainerPoint m' q None) in *.
  pose proof (unprojection_nondegenerate _ _ _ _ _ _ _ p Hf Hp BH Hw Hh0 Hinv Hy) as N.
  cbv zeta in N. destruct N as (Hw0 & Hw1 & Hz & _).
  destruct (invert_Some _ _ Hinv) as (_ & _ & Hmul). rewrite <- Epm in Hmul.
  unfold _containerPointToPoint. rewrite Hpinv. rewrite (Req_b_neq _ _ Hz).
  set (c0 := mat4.transformMat4 (mat4.Vec4 (px p) (py p) 0 1) inv) in *.
  set (c1 := mat4.transformMat4 (mat4.Vec4 (px p) (py p) 1 1) inv) in *.
  remember (mat4.transformMat4 (mat4.Vec4 (px q) (py q) 0 1) pm) as v eqn:Ev.
  assert (Ep : p = mkPoint (mat4.v0 v / mat4.v3 v) (mat4.v1 v / mat4.v3 v)).
  { unfold p, _pointToContainerPoint. rewrite Hpm. cbn [_pointToPoint]. rewrite <- Ev.
    reflexivity. }
  assert (Eq : mat4.transformMat4 v inv = mat4.Vec4 (px q) (py q) 0 1).
  { rewrite Ev, <- transformMat4_multiply, Hmul. apply transformMat4_create. }
  destruct v as [a b c k]. cbn [mat4.v0 mat4.v1 mat4.v2 mat4.v3] in *.
  assert (Ev2 : mat4.Vec4 a b c k = mat4.Vec4
            (k * (1 - c / k) * px p + k * (c / k) * px p)
            (k * (1 - c / k) * py p + k * (c / k) * py p)
            (k * (1 - c / k) * 0 + k * (c / k) * 1)
            (k * (1 - c / k) * 1 + k * (c / k) * 1)).
  { rewrite Ep. cbn [px py]. apply Vec4_ext; field; exact Hw'. }
  pose proof (transformMat4_lin (k * (1 - c / k)) (k * (c / k))
                (mat4.Vec4 (px p) (py p) 0 1) (mat4.Vec4 (px p) (py p) 1 1) inv) as L.
  cbn [mat4.v0 mat4.v1 mat4.v2 mat4.v3] in L. rewrite <- Ev2 in L. fold c0 c1 in L.
  rewrite Eq in L. injection L as Lx Ly Lz Lw.
  destruct q as [qx qy]. cbn [px py] in *. f_equal.
  - rewrite Lx. apply interpolate_on_ray; try assumption; symmetry; assumption.
  - rewrite Ly. apply interpolate_on_ray; try assumption; symmetry; assumption.
Qed.

Lemma perspective_reverse_round_trip_witness :
  let m' := state_of (_calcMatrices (set_pitch fresh_map (Some (PI / 6)))) in
  _containerPointToPoint m' (_pointToContainerPoint m' origin None) None = origin.
Proof.
  assert (Hp : 0 < PI / 6 <= PI / 3) by (pose proof PI_RGT_0; lra).
  destruct (fresh_pitched_domain (PI / 6) Hp) as (D & T & BH).
  assert (H2 : 2 <= 600) by lra.
  destruct (calcMatrices_succeeds _ 600 D H2 T BH) as (inv & _ & HN & _).
  assert (H600 : 600 <> 0) by lra.
  pose proof (pixelMatrix_after_calc (set_pitch fresh_map (Some (PI / 6))) 600
                eq_refl H600 T) as HP.
  pose proof (forward_centre _ 600 D) as HC.
  cbv zeta.
  apply (perspective_reverse_round_trip (set_pitch fresh_map (Some (PI / 6))) _ 600 _ origin
           D T BH HN HP).
  - rewrite transform_pixelMatrix. cbv zeta. cbn [mat4.v3 px py origin].
    map_fields. cbn [fresh_map _fov _angle _prjCenterToPoint or_default px py origin].
    pose proof (cameraToCenterDistance_pos DEFAULT_FOV 600 DEFAULT_FOV_domain ltac:(lra)) as Hd.
    set (d := calc_cameraToCenterDistance DEFAULT_FOV 600) in *.
    replace (- (sin (or_default (Some (PI / 6)) 0) *
                (sin 0 * (0 - 0 * 1) + cos 0 * (0 - 0 * 1)) +
                cos (or_default (Some (PI / 6)) 0) * 0 - d * 1)) with d by ring.
    lra.
  - change (_prjCenterToPoint (set_pitch fresh_map (Some (PI / 6))) None) with origin in HC.
    rewrite HC. cbn. lra.
Defined.

(** ** The camera that looks along the ground *)




(** ** The effects of a setter *)

(** X16. Every call of a setter has no effect and leaves the map as it
    was (a refused call, an unchanged value, a missing capability), or
    recomputes once and raises, or recomputes, renders and fires one event
    and returns:
    no event without a completed recomputation and render, no render
    after a failed inversion; the event's [from] is what the getter gave
    before the call. *)
Theorem events_only_after_success (B : Browser) (v : R) (m : Map) :
  outcome_shape m "pitch" (getPitch m) (setPitch B v m) /\
  outcome_shape m "rotate" (getBearing m) (setBearing B v m) /\
  outcome_shape m "fovchange" (fst (getFov m)) (setFov v m).
Proof.
  unfold outcome_shape. split; [|split].
  - unfold setPitch, after. destruct (ie9 B); [left; split; reflexivity|].
    destruct (isZooming m); [left; split; reflexivity|].
    destruct (strict_eq _ _); [left; split; reflexivity|].
    destruct (_calcMatrices _) as [m'|msg m']; right.
    + right. split; [reflexivity|]. eexists. reflexivity.
    + left. split; [discriminate | reflexivity].
  - unfold setBearing, after. destruct (ie9 B); [left; split; reflexivity|].
    destruct (isZooming m); [left; split; reflexivity|].
    destruct (strict_eq _ _); [left; split; reflexivity|].
    destruct (_calcMatrices _) as [m'|msg m']; right.
    + right. split; [reflexivity|]. eexists. reflexivity.
    + left. split; [discriminate | reflexivity].
  - unfold setFov, after.
    destruct (isZooming m); [left; split; reflexivity|].
    destruct (strict_eq _ _); [left; split; reflexivity|].
    destruct (getFov m) as [from m1]. cbn [fst].
    destruct (_calcMatrices _) as [m'|msg m']; right.
    + right. destruct (getFov m') as [to m'']. split; [reflexivity|]. eexists. reflexivity.
    + left. split; [discriminate | reflexivity].
Qed.

Lemma renderLayers_filter (m : Map) :
  _renderLayers m =
  List.map layerId
    (List.filter hasRenderer
       (match getBaseLayer m with Some b => [b] | None => [] end ++ _getLayers m)).
Proof.
  unfold _renderLayers. rewrite filter_app, map_app. f_equal.
  - destruct (getBaseLayer m) as [b|]; [|reflexivity]. cbn.
    destruct (hasRenderer b); reflexivity.
  - induction (_getLayers m) as [|l ls IH]; [reflexivity|].
    cbn [flat_map filter]. rewrite IH. unfold render.
    destruct (hasRenderer l); reflexivity.
Qed.

(** X17. [_renderLayers] calls [render] on the base layer first, when
    there is one and it has a renderer, and then on every entry of
    [_getLayers()] that has a renderer, in the order of the list and once
    per entry.  Nothing removes a repetition: a base layer with a renderer
    that [_getLayers()] lists as well is rendered at least twice. *)
Theorem renderLayers_spec (m : Map) :
  _renderLayers m =
  List.map layerId
    (List.filter hasRenderer
       (match getBaseLayer m with Some b => [b] | None => [] end ++ _getLayers m)) /\
  forall b, getBaseLayer m = Some b -> hasRenderer b = true -> In b (_getLayers m) ->
            (2 <= count_occ string_dec (_renderLayers m) (layerId b))%nat.
Proof.
  split; [apply renderLayers_filter|].
  intros b Hb Hr Hin. rewrite renderLayers_filter, Hb.
  rewrite filter_app, map_app, count_occ_app.
  cbn [filter]. rewrite Hr. cbn [List.map count_occ].
  destruct (string_dec (layerId b) (layerId b)) as [_|N]; [|congruence].
  assert (In (layerId b) (List.map layerId (List.filter hasRenderer (_getLayers m)))) as Hi.
  { apply in_map. apply filter_In. split; assumption. }
  apply (count_occ_In string_dec) in Hi. lia.
Qed.

Lemma renderLayers_spec_witness :
  (2 <= count_occ string_dec (_renderLayers layered_map) (layerId tiles))%nat.
Proof.
  apply (proj2 (renderLayers_spec layered_map) tiles);
    [reflexivity | reflexivity | left; reflexivity].
Defined.

(** ** The point symbolizer *)

(** X18. [_getRotationAt(i)] ends in a [TypeError] exactly when there is
    a rotations array and [i] is not an index of it. *)
Theorem getRotationAt_TypeError (computeDegree : Point -> Point -> R)
    (s : PointSymbolizer) (i : nat) :
  _getRotationAt computeDegree s i = TypeError <->
  exists rs, rotations s = Some rs /\ (List.length rs <= i)%nat.
Proof.
  unfold _getRotationAt. destruct (rotations s) as [rs|].
  - destruct (nth_error rs i) as [[r0 r1]|] eqn:E.
    + split.
      * destruct (getCameraMatrix (getMap s)); discriminate.
      * intros (rs' & E' & L). injection E' as <-.
        apply nth_error_None in L. congruence.
    + split; [|reflexivity]. intros _. exists rs. split; [reflexivity|].
      apply nth_error_None. exact E.
  - split; [discriminate|]. intros (rs & E & _). discriminate.
Qed.

(** X19. [_getRenderContainerPoints] gives back the render points
    themselves when spriting, and one container point per render point
    otherwise; on a map in flat mode whose height is set that point is the
    render point rescaled from the maximum zoom, plus the offset, minus
    the north-west corner of the layer, whatever the centre and size of
    the viewport. *)
Theorem getRenderContainerPoints_spec (s : PointSymbolizer) :
  (isSpriting s = true -> _getRenderContainerPoints s = renderPoints s) /\
  List.length (_getRenderContainerPoints s) = List.length (renderPoints s) /\
  (isSpriting s = false -> height (getMap s) <> None -> pixelMatrix (getMap s) = None ->
   _getRenderContainerPoints s =
   List.map (fun point =>
               Point_sub
                 (Point_addp (_pointToPoint (getMap s) point (Some (getMaxZoom (getMap s))))
                             (getDxDy s))
                 (_northWest s))
            (renderPoints s)).
Proof.
  unfold _getRenderContainerPoints. split; [|split].
  - intros ->. reflexivity.
  - destruct (isSpriting s); [reflexivity | apply length_map].
  - intros -> _ P. apply map_ext. intros p.
    unfold _pointToContainerPoint. rewrite P. cbn [_pointToPoint].
    unfold Point_sub, Point_addp, Point_add. cbn [px py]. f_equal; ring.
Qed.

Lemma getRenderContainerPoints_spec_witness :
  (isSpriting (mkPointSymbolizer None [mkPoint 3 4] None fresh_map false origin origin) = true ->
   _getRenderContainerPoints
     (mkPointSymbolizer None [mkPoint 3 4] None fresh_map false origin origin) =
   renderPoints (mkPointSymbolizer None [mkPoint 3 4] None fresh_map false origin origin)) /\
  List.length (_getRenderContainerPoints
            (mkPointSymbolizer None [mkPoint 3 4] None fresh_map false origin origin)) =
  List.length (renderPoints
            (mkPointSymbolizer None [mkPoint 3 4] None fresh_map false origin origin)) /\
  (isSpriting (mkPointSymbolizer None [mkPoint 3 4] None fresh_map false origin origin) = false ->
   height (getMap (mkPointSymbolizer None [mkPoint 3 4] None fresh_map false origin origin))
     <> None ->
   pixelMatrix (getMap (mkPointSymbolizer None [mkPoint 3 4] None fresh_map false origin origin))
     = None ->
   _getRenderContainerPoints
     (mkPointSymbolizer None [mkPoint 3 4] None fresh_map false origin origin) =
   List.map (fun point =>
      Point_sub
        (Point_addp
           (_pointToPoint
              (getMap (mkPointSymbolizer None [mkPoint 3 4] None fresh_map false origin origin))
              point
              (Some (getMaxZoom
                 (getMap (mkPointSymbolizer None [mkPoint 3 4] None fresh_map false
                            origin origin)))))
           (getDxDy (mkPointSymbolizer None [mkPoint 3 4] None fresh_map false origin origin)))
        (_northWest (mkPointSymbolizer None [mkPoint 3 4] None fresh_map false origin origin)))
     (renderPoints (mkPointSymbolizer None [mkPoint 3 4] None fresh_map false origin origin))).
Proof.
  exact (getRenderContainerPoints_spec
           (mkPointSymbolizer None [mkPoint 3 4] None fresh_map false origin origin)).
Defined.

(** * Scripts of setter calls *)

Lemma camera_in_range_setFov (v : R) (m : Map) :
  camera_in_range m -> camera_in_range (after (setFov v m)).
Proof.
  intros (F & P & A). unfold camera_in_range.
  destruct (setFov_frame v m) as (_ & EP & EA). rewrite EP, EA.
  split; [|split; assumption].
  destruct (isZooming m) eqn:HZ.
  { unfold setFov. rewrite HZ. exact F. }
  destruct (strict_eq (_fov m) (Rmax 0.01 (Rmin 60 v))) eqn:HS.
  { unfold setFov. rewrite HZ, HS. exact F. }
  rewrite (fov_after_setFov v m HZ HS).
  rewrite (or_default_Some_neq _ _ (fov_clamp_RADIAN_neq_0 v)).
  pose proof (fov_clamp_range v). pose proof PI_RGT_0. unfold RADIAN. split.
  - apply Rmult_lt_0_compat; lra.
  - apply Rmult_le_reg_r with (180 / PI).
    + apply Rdiv_lt_0_compat; lra.
    + replace (Rmax 0.01 (Rmin 60 v) * (PI / 180) * (180 / PI))
        with (Rmax 0.01 (Rmin 60 v)) by (field; lra).
      replace (PI / 3 * (180 / PI)) with 60 by (field; lra). lra.
Qed.

Lemma camera_in_range_setPitch (B : Browser) (v : R) (m : Map) :
  camera_in_range m -> camera_in_range (after (setPitch B v m)).
Proof.
  intros (F & P & A). unfold camera_in_range.
  destruct (setPitch_frame B v m) as (_ & EF & EA). rewrite EF, EA.
  split; [assumption|]. split; [|assumption].
  destruct (ie9 B) eqn:HB.
  { unfold setPitch. rewrite HB. exact P. }
  destruct (isZooming m) eqn:HZ.
  { unfold setPitch. rewrite HB, HZ. exact P. }
  rewrite (strict_eq_or_default _ _ (pitch_after_setPitch B v m HB HZ)).
  pose proof (clamp_range v 0 60 ltac:(lra)). pose proof PI_RGT_0. unfold RADIAN. split.
  - apply Rmult_le_pos; [lra|]. apply Rlt_le. apply Rdiv_lt_0_compat; lra.
  - apply Rmult_le_reg_r with (180 / PI).
    + apply Rdiv_lt_0_compat; lra.
    + replace (clamp v 0 60 * (PI / 180) * (180 / PI)) with (clamp v 0 60) by (field; lra).
      replace (PI / 3 * (180 / PI)) with 60 by (field; lra). lra.
Qed.

Lemma camera_in_range_setBearing (B : Browser) (v : R) (m : Map) :
  camera_in_range m -> camera_in_range (after (setBearing B v m)).
Proof.
  intros (F & P & A). unfold camera_in_range.
  destruct (setBearing_frame B v m) as (_ & EF & EP). rewrite EF, EP.
  split; [assumption|]. split; [assumption|].
  destruct (ie9 B) eqn:HB.
  { unfold setBearing. rewrite HB. exact A. }
  destruct (isZooming m) eqn:HZ.
  { unfold setBearing. rewrite HB, HZ. exact A. }
  rewrite (strict_eq_or_default _ _ (angle_after_setBearing B v m HB HZ)).
  pose proof (wrap_range v (-180) 180 ltac:(lra)) as [W1 W2]. pose proof PI_RGT_0.
  set (w := wrap v (-180) 180) in *. unfold RADIAN.
  replace (- w * (PI / 180)) with (- (w / 180) * PI) by (field; lra).
  assert (-1 < w / 180 <= 1).
  { split.
    - apply Rmult_lt_reg_r with 180; [lra|].
      replace (w / 180 * 180) with w by field. lra.
    - apply Rmult_le_reg_r with 180; [lra|].
      replace (w / 180 * 180) with w by field. lra. }
  split; nra.
Qed.

Lemma camera_in_range_call (B : Browser) (c : Call) (m : Map) :
  camera_in_range m -> camera_in_range (after (call B c m)).
Proof.
  destruct c; cbn [call].
  - apply camera_in_range_setFov.
  - apply camera_in_range_setBearing.
  - apply camera_in_range_setPitch.
Qed.

Lemma after_run_cons (B : Browser) (c : Call) (cs : list Call) (m : Map) :
  after (run B (c :: cs) m) =
  match completion (call B c m) with
  | Raise _ m' => m'
  | Normal m' => after (run B cs m')
  end.
Proof.
  cbn [run]. destruct (call B c m) as [[m'|msg m'] eff]; reflexivity.
Qed.

(** X20. The ranges of the camera are an invariant of the setters: from
    a map whose field of view is in (0, 60 degrees], whose pitch is in
    [0, 60 degrees] and whose internal angle is in [-180, 180) degrees,
    every script of setter calls, completed or cut short by an error,
    leaves a map within the same ranges. *)
Theorem camera_stays_in_range (B : Browser) (cs : list Call) (m : Map) :
  camera_in_range m -> camera_in_range (after (run B cs m)).
Proof.
  revert m. induction cs as [|c cs IH]; intros m H.
  - exact H.
  - rewrite after_run_cons.
    pose proof (camera_in_range_call B c m H) as Hc. unfold after in Hc.
    destruct (completion (call B c m)) as [m'|msg m']; cbn [state_of] in Hc.
    + apply IH. exact Hc.
    + exact Hc.
Qed.

Lemma fresh_map_in_range : camera_in_range fresh_map.
Proof.
  unfold camera_in_range. cbn [fresh_map _fov _pitch _angle or_default].
  pose proof DEFAULT_FOV_domain. pose proof PI_RGT_0. lra.
Qed.

Lemma camera_stays_in_range_witness :
  camera_in_range
    (after (run modern [CallPitch 75; CallBearing 400; CallFov 0; CallPitch (-3)] fresh_map)).
Proof. apply (camera_stays_in_range modern _ fresh_map). exact fresh_map_in_range. Defined.

(** X21. While a zoom animation runs, a script of setter calls on a
    capable backend changes nothing and has no effect, however long. *)
Theorem scripts_refused_while_zooming (cs : list Call) (m : Map) :
  isZooming m = true -> run modern cs m = unchanged m.
Proof.
  intros HZ. induction cs as [|c cs IH]; [reflexivity|].
  cbn [run].
  assert (E : call modern c m = unchanged m).
  { destruct c; cbn [call]; unfold setFov, setBearing, setPitch; rewrite HZ; reflexivity. }
  rewrite E. cbn [unchanged completion effects]. rewrite IH. reflexivity.
Qed.

Lemma scripts_refused_while_zooming_witness :
  run modern [CallPitch 10; CallFov 20; CallBearing 30] (set_isZooming tilted_map true) =
  unchanged (set_isZooming tilted_map true).
Proof.
  apply (scripts_refused_while_zooming _ (set_isZooming tilted_map true)). reflexivity.
Defined.

(** X22. With a viewport height, a [_calcMatrices] that returns leaves
    [getCameraMatrix()] null exactly when pitch and bearing are both 0,
    and then all four matrices are cleared. *)
Theorem camera_matrix_null_iff_flat (m m' : Map) (h : R) :
  height m = Some h -> h <> 0 -> _calcMatrices m = Normal m' ->
  (getCameraMatrix m' = None <-> getPitch m = 0 /\ getBearing m = 0) /\
  (getCameraMatrix m' = None -> all_cleared m').
Proof.
  intros Hh Hh0 Hc.
  assert (GP : getPitch m = 0 <-> or_default (_pitch m) 0 = 0).
  { unfold getPitch, falsy, or_default. destruct (_pitch m) as [x|]; [|tauto].
    destruct (Req_b x 0) eqn:Z; [tauto|]. apply Req_b_false in Z.
    pose proof PI_RGT_0. split.
    - intros E. apply (f_equal (fun y => y * PI / 180)) in E.
      replace (x / PI * 180 * PI / 180) with x in E by (field; lra). lra.
    - intros E. contradiction. }
  assert (GB : getBearing m = 0 <-> or_default (_angle m) 0 = 0).
  { unfold getBearing, falsy, or_default. destruct (_angle m) as [x|]; [|tauto].
    destruct (Req_b x 0) eqn:Z; [tauto|]. apply Req_b_false in Z.
    pose proof RADIAN_pos. split.
    - intros E. apply (f_equal (fun y => - y * RADIAN)) in E.
      replace (- (- x / RADIAN) * RADIAN) with x in E by (field; lra). lra.
    - intros E. contradiction. }
  rewrite GP, GB.
  destruct (flat_or_tilted m) as [[Hp Ha] | T].
  - destruct (calcMatrices_flat m h Hh Hh0 Hp Ha) as (m1 & E & C).
    rewrite Hc in E. injection E as <-. destruct C as (C1 & C2 & C3 & C4).
    unfold getCameraMatrix, all_cleared. tauto.
  - pose proof (calcMatrices_perspective m h Hh Hh0 T) as H. cbv zeta in H.
    rewrite Hc in H. cbn [state_of] in H. destruct H as (_ & _ & _ & H).
    destruct (mat4.invert _); [|destruct H as [H _]; discriminate].
    destruct H as (_ & _ & C). unfold getCameraMatrix. rewrite C. unfold tilted in T.
    split; [split; [discriminate | tauto] | discriminate].
Qed.

Lemma camera_matrix_null_iff_flat_witness :
  (getCameraMatrix (state_of (_calcMatrices fresh_map)) = None <->
   getPitch fresh_map = 0 /\ getBearing fresh_map = 0) /\
  (getCameraMatrix (state_of (_calcMatrices fresh_map)) = None ->
   all_cleared (state_of (_calcMatrices fresh_map))).
Proof.
  apply (camera_matrix_null_iff_flat fresh_map _ 600).
  - reflexivity.
  - lra.
  - destruct (calcMatrices_flat fresh_map 600 eq_refl ltac:(lra) eq_refl eq_refl)
      as (m1 & E & _).
    rewrite E. reflexivity.
Defined.

(** X23. A repeated [setFov] is never recognised: when a call has gone
    past the test for an unchanged value, the same call made again goes
    past it too and recomputes again. *)
Theorem setFov_repeat_recomputes (v : R) (m : Map) :
  isZooming m = false ->
  effects (setFov v m) <> [] ->
  In CalcMatrices (effects (setFov v (after (setFov v m)))).
Proof.
  intros HZ HE.
  destruct (strict_eq (_fov m) (Rmax 0.01 (Rmin 60 v))) eqn:HS.
  { exfalso. apply HE. unfold setFov. rewrite HZ, HS. reflexivity. }
  pose proof (setFov_never_settles v m HZ HS) as HS2.
  pose proof (after_frame_setFov v m) as Z. rewrite HZ in Z.
  destruct (setFov_genuine v (after (setFov v m)) Z HS2) as (_ & _ & E).
  cbv zeta in E. rewrite E.
  destruct (_calcMatrices _); left; reflexivity.
Qed.

Lemma setFov_repeat_recomputes_witness :
  In CalcMatrices (effects (setFov 45 (after (setFov 45 fresh_map)))).
Proof.
  apply (setFov_repeat_recomputes 45 fresh_map).
  - reflexivity.
  - destruct (setFov_genuine 45 fresh_map eq_refl eq_refl) as (_ & _ & E).
    cbv zeta in E. rewrite E. destruct (_calcMatrices _); discriminate.
Defined.

(** * The vector layer *)

Lemma first_match_split (cooked : list VectorLayer.CookedStyle) (g : VectorLayer.Feature)
    (s : VectorLayer.Symbol) :
  VectorLayer.first_match cooked g = Some s <->
  exists pre c post,
    cooked = pre ++ c :: post /\ VectorLayer.symbol c = s /\
    VectorLayer.is_true (VectorLayer.filter c g) = true /\
    forall c', In c' pre -> VectorLayer.is_true (VectorLayer.filter c' g) = false.
Proof.
  induction cooked as [|c0 rest IH]; cbn [VectorLayer.first_match].
  - split; [discriminate|]. intros (pre & c & post & E & _).
    destruct pre; discriminate.
  - destruct (VectorLayer.is_true (VectorLayer.filter c0 g)) eqn:T.
    + split.
      * intros E. injection E as <-. exists [], c0, rest. repeat split; try assumption.
        intros c' [].
      * intros (pre & c & post & E & Es & Tc & Hpre).
        destruct pre as [|p pre'].
        -- cbn in E. injection E as <- _. congruence.
        -- cbn in E. injection E as <- _. rewrite (Hpre c0) in T; [discriminate|].
           left. reflexivity.
    + rewrite IH. split.
      * intros (pre & c & post & E & Es & Tc & Hpre).
        exists (c0 :: pre), c, post. rewrite E. repeat split; try assumption.
        intros c' [<- | Hin]; [exact T | apply Hpre; exact Hin].
      * intros (pre & c & post & E & Es & Tc & Hpre).
        destruct pre as [|p pre'].
        -- cbn in E. injection E as <- _. congruence.
        -- cbn in E. injection E as <- E. exists pre', c, post. repeat split; try assumption.
           intros c' Hin. apply Hpre. right. exact Hin.
Qed.

Lemma first_match_none (cooked : list VectorLayer.CookedStyle) (g : VectorLayer.Feature) :
  VectorLayer.first_match cooked g = None <->
  forall c, In c cooked -> VectorLayer.is_true (VectorLayer.filter c g) = false.
Proof.
  induction cooked as [|c0 rest IH]; cbn [VectorLayer.first_match].
  - split; [intros _ c [] | reflexivity].
  - destruct (VectorLayer.is_true (VectorLayer.filter c0 g)) eqn:T.
    + split; [discriminate|]. intros H. rewrite (H c0) in T; [discriminate | left; reflexivity].
    + rewrite IH. split.
      * intros H c [<- | Hin]; [exact T | apply H; exact Hin].
      * intros H c Hin. apply H. right. exact Hin.
Qed.

(** X24. [_styleGeometry] gives the geometry the symbol of the first
    cooked style whose filter returns exactly [true] and answers [true];
    when no filter does, or the layer has no cooked styles, it answers
    [false] and leaves the geometry as it is. *)
Theorem styleGeometry_first_match (Style : Type) (l : VectorLayer.Layer Style)
    (g : VectorLayer.Geometry) :
  (VectorLayer._cookedStyles l = None -> VectorLayer._styleGeometry l g = (false, g)) /\
  (forall pre c post,
     VectorLayer._cookedStyles l = Some (pre ++ c :: post) ->
     (forall c', In c' pre ->
        VectorLayer.filter c' (VectorLayer.feature g) <> VectorLayer.JsBool true) ->
     VectorLayer.filter c (VectorLayer.feature g) = VectorLayer.JsBool true ->
     VectorLayer._styleGeometry l g =
       (true, VectorLayer._setExternSymbol g (Some (VectorLayer.symbol c)))) /\
  (forall cooked,
     VectorLayer._cookedStyles l = Some cooked ->
     (forall c, In c cooked ->
        VectorLayer.filter c (VectorLayer.feature g) <> VectorLayer.JsBool true) ->
     VectorLayer._styleGeometry l g = (false, g)).
Proof.
  assert (NT : forall v, v <> VectorLayer.JsBool true -> VectorLayer.is_true v = false).
  { intros [[|]|] H; try reflexivity. congruence. }
  unfold VectorLayer._styleGeometry. split; [|split].
  - intros ->. reflexivity.
  - intros pre c post -> Hpre Hc.
    assert (E : VectorLayer.first_match (pre ++ c :: post) (VectorLayer.feature g) =
                Some (VectorLayer.symbol c)).
    { apply first_match_split. exists pre, c, post. repeat split.
      - rewrite Hc. reflexivity.
      - intros c' Hin. apply NT. apply Hpre. exact Hin. }
    rewrite E. reflexivity.
  - intros cooked -> H.
    assert (E : VectorLayer.first_match cooked (VectorLayer.feature g) = None).
    { apply first_match_none. intros c Hin. apply NT. apply H. exact Hin. }
    rewrite E. reflexivity.
Qed.

(** X25. [setStyle] stores the style and fires one [setstyle] event
    after the events already fired; it keeps the number of geometries;
    and a geometry that no rule of the new style matches stays exactly as
    it was, the symbol of an earlier style included. *)
Theorem setStyle_spec (Style : Type) (compileStyle : Style -> list VectorLayer.CookedStyle)
    (style : Style) (l : VectorLayer.Layer Style) :
  let l' := VectorLayer.setStyle compileStyle style l in
  VectorLayer.getStyle l' = Some style /\
  VectorLayer._cookedStyles l' = Some (compileStyle style) /\
  VectorLayer.fired l' = VectorLayer.fired l ++ [VectorLayer.setstyle style] /\
  List.length (VectorLayer.getGeometries l') = List.length (VectorLayer.getGeometries l) /\
  (forall g, In g (VectorLayer.getGeometries l) ->
     (forall c, In c (compileStyle style) ->
        VectorLayer.filter c (VectorLayer.feature g) <> VectorLayer.JsBool true) ->
     In g (VectorLayer.getGeometries l')).
Proof.
  cbv zeta. unfold VectorLayer.setStyle. cbn. repeat split.
  - apply length_map.
  - intros g Hin H. apply in_map_iff. exists g. split; [|exact Hin].
    unfold VectorLayer._styleGeometry. cbn.
    assert (E : VectorLayer.first_match (compileStyle style) (VectorLayer.feature g) = None).
    { apply first_match_none. intros c Hc. specialize (H c Hc).
      destruct (VectorLayer.filter c (VectorLayer.feature g)) as [[|]|]; try reflexivity.
      congruence. }
    rewrite E. reflexivity.
Qed.

(** X26. [removeStyle] on a layer without a style returns it as it is
    and fires nothing; on a styled layer it drops the style and the
    cooked styles, sets the extern symbol of every geometry to null and
    fires one [removestyle]; a second [removeStyle] does nothing more,
    and a geometry added afterwards is not styled. *)
Theorem removeStyle_spec (Style : Type) (l : VectorLayer.Layer Style) :
  (VectorLayer.getStyle l = None -> VectorLayer.removeStyle l = l) /\
  (VectorLayer.getStyle l <> None ->
     VectorLayer.getStyle (VectorLayer.removeStyle l) = None /\
     VectorLayer._cookedStyles (VectorLayer.removeStyle l) = None /\
     (forall g, In g (VectorLayer.getGeometries (VectorLayer.removeStyle l)) ->
                VectorLayer.externSymbol g = None) /\
     VectorLayer.fired (VectorLayer.removeStyle l) =
       VectorLayer.fired l ++ [VectorLayer.removestyle]) /\
  VectorLayer.removeStyle (VectorLayer.removeStyle l) = VectorLayer.removeStyle l /\
  (forall geo, VectorLayer.onAddGeometry (VectorLayer.removeStyle l) geo = geo).
Proof.
  unfold VectorLayer.onAddGeometry, VectorLayer.removeStyle, VectorLayer.getStyle.
  destruct (VectorLayer._style l) as [s|] eqn:E.
  - split; [discriminate|]. split; [|split; reflexivity].
    intros _. cbn. repeat split.
    intros g Hin. apply in_map_iff in Hin. destruct Hin as (g0 & <- & _). reflexivity.
  - rewrite E. split; [reflexivity|]. split; [congruence|]. split; reflexivity.
Qed.

Lemma export_geometry_cases (Style : Type) (intersects : VectorLayer.Extent -> VectorLayer.Extent -> bool)
    (l : VectorLayer.Layer Style) (clip : option VectorLayer.Extent) (g : VectorLayer.Geometry)
    (j : VectorLayer.GeoJSON) :
  In j (VectorLayer.export_geometry intersects l clip g) ->
  VectorLayer.getExtent g <> None /\
  VectorLayer.json_rest j = VectorLayer.json_rest (VectorLayer.toJSON_of g) /\
  (VectorLayer.getStyle l = None -> j = VectorLayer.toJSON_of g) /\
  (VectorLayer.getStyle l <> None ->
   VectorLayer.json_symbol (VectorLayer.toJSON_of g) <> None ->
   VectorLayer.json_symbol j = VectorLayer._symbolBeforeStyle g) /\
  (VectorLayer.json_symbol (VectorLayer.toJSON_of g) = None ->
   j = VectorLayer.toJSON_of g).
Proof.
  unfold VectorLayer.export_geometry.
  destruct (VectorLayer.getExtent g) as [e|]; [|intros []].
  destruct (match clip with Some c => negb (intersects c e) | None => false end);
    [intros []|].
  intros [<- | []]. split; [discriminate|].
  destruct (VectorLayer.json_symbol (VectorLayer.toJSON_of g)) as [s|] eqn:S;
    destruct (VectorLayer.getStyle l) as [st|] eqn:G; cbn; repeat split;
    try congruence; try reflexivity.
Qed.

Lemma export_geometry_length (Style : Type)
    (intersects : VectorLayer.Extent -> VectorLayer.Extent -> bool)
    (l : VectorLayer.Layer Style) (clip : option VectorLayer.Extent)
    (gs : list VectorLayer.Geometry) :
  (List.length (flat_map (VectorLayer.export_geometry intersects l clip) gs)
   <= List.length gs)%nat.
Proof.
  induction gs as [|g gs IH]; [cbn; lia|].
  cbn [flat_map]. rewrite length_app. cbn [List.length].
  assert (List.length (VectorLayer.export_geometry intersects l clip g) <= 1)%nat.
  { unfold VectorLayer.export_geometry. destruct (VectorLayer.getExtent g); [|cbn; lia].
    destruct (match clip with Some c => negb (intersects c e) | None => false end);
      cbn; lia. }
  lia.
Qed.

(** X27. The profile of [toJSON] has type "VectorLayer" and the layer's
    id; its style, when it has one, is the layer's; its geometries, when
    it has them, come one each from geometries of the layer that have an
    extent, are no more than the layer has, and on a styled layer carry
    the symbol the geometry had before the style instead of their own. *)
Theorem toJSON_spec (Style : Type)
    (intersects : VectorLayer.Extent -> VectorLayer.Extent -> bool)
    (l : VectorLayer.Layer Style) (options : option VectorLayer.JSONOptions) :
  let p := VectorLayer.toJSON intersects l options in
  VectorLayer.profile_type p = "VectorLayer"%string /\
  VectorLayer.profile_id p = VectorLayer.getId l /\
  (forall s, VectorLayer.profile_style p = Some s -> VectorLayer.getStyle l = Some s) /\
  (options = None -> VectorLayer.profile_style p = VectorLayer.getStyle l) /\
  (forall js, VectorLayer.profile_geometries p = Some js ->
     (List.length js <= List.length (VectorLayer.getGeometries l))%nat /\
     forall j, In j js ->
       exists g, In g (VectorLayer.getGeometries l) /\
         VectorLayer.getExtent g <> None /\
         VectorLayer.json_rest j = VectorLayer.json_rest (VectorLayer.toJSON_of g) /\
         (VectorLayer.getStyle l = None -> j = VectorLayer.toJSON_of g) /\
         (VectorLayer.getStyle l <> None ->
          VectorLayer.json_symbol (VectorLayer.toJSON_of g) <> None ->
          VectorLayer.json_symbol j = VectorLayer._symbolBeforeStyle g)).
Proof.
  cbv zeta. unfold VectorLayer.toJSON. cbn [VectorLayer.profile_type VectorLayer.profile_id
    VectorLayer.profile_style VectorLayer.profile_geometries].
  split; [reflexivity|]. split; [reflexivity|]. split; [|split].
  - intros s. destruct (VectorLayer.nil_or_truthy _); [tauto | discriminate].
  - intros ->. reflexivity.
  - intros js. destruct (VectorLayer.nil_or_truthy _); [|discriminate].
    intros E. injection E as <-. split; [apply export_geometry_length|].
    intros j Hin. apply in_flat_map in Hin. destruct Hin as (g & Hg & Hj).
    exists g. split; [exact Hg|].
    destruct (export_geometry_cases _ _ _ _ _ _ Hj) as (A & B & C & D & _).
    repeat split; assumption.
Qed.

(** X28. [fromJSON] returns null for a null JSON and for one of another
    type; it ends in a [TypeError] on what [toJSON] exports when asked to
    leave the geometries out; and it returns a layer on what [toJSON]
    exports by default. *)
Theorem fromJSON_spec (Style : Type)
    (compileStyle : Style -> list VectorLayer.CookedStyle)
    (intersects : VectorLayer.Extent -> VectorLayer.Extent -> bool)
    (construct : string -> list (string * string) -> VectorLayer.Layer Style)
    (addGeometry : VectorLayer.Layer Style -> list VectorLayer.Geometry ->
                   VectorLayer.Layer Style)
    (Geometry_fromJSON : VectorLayer.GeoJSON -> option VectorLayer.Geometry) :
  let parse := VectorLayer.fromJSON compileStyle construct addGeometry Geometry_fromJSON in
  parse None = Returned None /\
  (forall json, VectorLayer.profile_type json <> "VectorLayer"%string ->
                parse (Some json) = Returned None) /\
  (forall l o, VectorLayer.opt_geometries o = Some false ->
               parse (Some (VectorLayer.toJSON intersects l (Some o))) = TypeError) /\
  (forall l, exists layer,
               parse (Some (VectorLayer.toJSON intersects l None)) = Returned (Some layer)).
Proof.
  cbv zeta. unfold VectorLayer.fromJSON. split; [reflexivity|]. split; [|split].
  - intros json H. apply String.eqb_neq in H. rewrite H. reflexivity.
  - intros l o H. unfold VectorLayer.toJSON. cbn. rewrite H. reflexivity.
  - intros l. unfold VectorLayer.toJSON. cbn. eexists. reflexivity.
Qed.

(** On the example layer: a style that names towns gives the town its
    symbol and leaves the lake with the symbol it had; the export of the
    styled layer carries the town's own symbol, not the style's, and
    leaves the lake, which has no extent, out. *)
Example styled_layer_example :
  VectorLayer.getGeometries styled_layer =
    [VectorLayer._setExternSymbol town (Some red); lake] /\
  VectorLayer.profile_geometries
    (VectorLayer.toJSON (fun _ _ => true) styled_layer None) =
    Some [VectorLayer.mkGeoJSON (Some blue) []] /\
  VectorLayer.getGeometries (VectorLayer.removeStyle styled_layer) =
    [VectorLayer._setExternSymbol town None; VectorLayer._setExternSymbol lake None].
Proof. repeat split. Qed.
